(** * Storage control plane and chunk engine: a shallow embedding

    The development follows two source files.

    - [controller.js] (class [StorageController]): the node registry, the
      file-location index, the announce / deannounce / locate handlers and
      the periodic heartbeat checker (the liveness sweep).
    - [storage.js] (class [StorageManager]): [splitFile] and
      [reassembleFile], the chunk engine.

    Modelling conventions.

    - A JS [Map] keyed by strings is a [gmap string _]: the handlers never
      depend on the iteration order of a [Map].
    - A JS [Set] of node ids is an insertion-ordered list without
      duplicates, because [GET /api/locations] iterates it and the order of
      the reply follows the insertion order.
    - Byte counts ([size], [storage.used], buffer lengths, chunk indices)
      are natural numbers ([N]); they stay far below 2^53, where JS number
      arithmetic on integers is exact.  [Math.max(0, a - b)] is computed on
      [Z] as written.
    - Timestamps are milliseconds since the epoch ([Z]).  The source keeps
      [lastSeen] as an ISO string and parses it back with [new Date(..)];
      that round trip is exact at millisecond precision.
    - Each request handler is run to completion (one atomic step, also
      across its [await]s on [data/users.json]); console logging and the
      admin WebSocket broadcasts only write outwards and are left out.
      The deannounce handler writes the index on both sides of its
      [await]s, so it is given a second time in the steps the event loop
      runs it in ([deannounce_begin], [deannounce_read],
      [deannounce_written]).
    - The digest of [storage.js] is MD5 itself (module [MD5] below), so
      that the integrity check can be run on concrete chunks. *)

From Stdlib Require Import ZArith NArith Lia.
From Stdlib Require Import Ascii Strings.Byte DecimalString DecimalN.
From stdpp Require Import gmap strings list fin_maps sorting.

Local Open Scope string_scope.

(* ===================================================================== *)
(** * controller.js                                                       *)
(* ===================================================================== *)

Module Controller.

(** ** Data model *)

Record Storage := mkStorage { total : N; used : N }.

Record Node := mkNode {
  address  : string;
  port     : N;
  online   : bool;
  lastSeen : Z;
  owner    : option string;          (* [null] is [None] *)
  storage  : option Storage          (* [None]: the field is missing *)
}.

(** A JS [Set] of strings: insertion ordered, no duplicates. *)
Definition Set_has (x : string) (s : list string) : bool := bool_decide (x ∈ s).
Definition Set_add (x : string) (s : list string) : list string :=
  if Set_has x s then s else s ++ [x].
Definition Set_delete (x : string) (s : list string) : list string :=
  filter (λ y, y ≠ x) s.

Record FileInfo := mkFileInfo {
  owners     : list string;
  uploadTime : Z;
  size       : N;
  replicated : bool
}.

(** The controller object ([registeredNodes], [fileLocations]) together
    with the part of the disk its handlers touch: [data/users.json], a
    table from user name to [usedStorage].  [None] stands for a file that
    cannot be read or parsed (the handlers catch that error). *)
Record State := mkState {
  registeredNodes : gmap string Node;
  fileLocations   : gmap string FileInfo;
  usersJson       : option (gmap string N)
}.

Definition initial (users : option (gmap string N)) : State :=
  mkState ∅ ∅ users.

(** The JSON reply of a handler: HTTP status, [success], [message]. *)
Record Reply := mkReply { status : N; success : bool; message : string }.

Definition NodeNotRegistered : Reply := mkReply 400 false "Node not registered".
Definition ok (msg : string) : Reply := mkReply 200 true msg.

(** ** Small helpers for JS idioms *)

(** [x || 0] on an optional number. *)
Definition or0 (x : option N) : N := default 0%N x.

(** [s || null] on an optional string: the empty string is falsy. *)
Definition or_null (s : option string) : option string :=
  match s with
  | Some o => if decide (o = "") then None else Some o
  | None => None
  end.

(** [!!s] on an optional string. *)
Definition truthy (s : option string) : bool :=
  match s with
  | Some o => negb (bool_decide (o = ""))
  | None => false
  end.

(** [if (!node.storage) node.storage = { total: 0, used: 0 }] *)
Definition storage_or_zero (n : Node) : Storage :=
  default (mkStorage 0 0) (storage n).

Definition set_storage (n : Node) (s : Storage) : Node :=
  mkNode (address n) (port n) (online n) (lastSeen n) (owner n) (Some s).

Definition set_online (n : Node) (b : bool) : Node :=
  mkNode (address n) (port n) b (lastSeen n) (owner n) (storage n).

Definition set_owners (fi : FileInfo) (os : list string) : FileInfo :=
  mkFileInfo os (uploadTime fi) (size fi) (replicated fi).

(** The value the node list and the dashboards show as a node's used
    storage: [data.storage || { total: 0, used: 0 }]. *)
Definition node_used (n : Node) : N := used (storage_or_zero n).

Definition used_of (st : State) (id : string) : option N :=
  node_used <$> registeredNodes st !! id.

Definition owners_of (st : State) (filename : string) : option (list string) :=
  owners <$> fileLocations st !! filename.

(** ** POST /api/register *)

Record StorageReq := mkStorageReq { req_total : option N; req_used : option N }.

Definition register (id addr : string) (prt : option N) (own : option string)
    (sto : option StorageReq) (now : Z) (st : State) : Reply * State :=
  let node := mkNode addr
                (if decide (or0 prt = 0%N) then 5001%N else or0 prt)
                true now (or_null own)
                (Some match sto with
                      | Some s => mkStorage (or0 (req_total s)) (or0 (req_used s))
                      | None => mkStorage 0 0
                      end) in
  (ok ("Node " +:+ id +:+ " registered successfully"),
   mkState (<[id := node]> (registeredNodes st)) (fileLocations st) (usersJson st)).

(** ** POST /api/heartbeat *)

Definition heartbeat (id : string) (now : Z) (st : State) : Reply * State :=
  (ok "Heartbeat received",
   match registeredNodes st !! id with
   | Some node =>
       let node' := mkNode (address node) (port node) true now
                      (owner node) (storage node) in
       mkState (<[id := node']> (registeredNodes st)) (fileLocations st) (usersJson st)
   | None => st
   end).

(** ** The best-effort update of data/users.json

    [usersData[owner].usedStorage = f(usersData[owner].usedStorage || 0)],
    done only when the node has an owner, the file can be read and the
    user exists. *)
Definition update_users (own : option string) (f : N → N)
    (users : option (gmap string N)) : option (gmap string N) :=
  match own, users with
  | Some o, Some tbl =>
      if truthy own then
        match tbl !! o with
        | Some u => Some (<[o := f u]> tbl)
        | None => users
        end
      else users
  | _, _ => users
  end.

(** ** POST /api/announce *)

Definition announce (id filename : string) (sz : N) (now : Z) (st : State)
    : Reply * State :=
  match registeredNodes st !! id with
  | None => (NodeNotRegistered, st)
  | Some node =>
      (* isNewFile: create the entry with an empty owner set, then get it *)
      let fileInfo :=
        match fileLocations st !! filename with
        | Some fi => fi
        | None => mkFileInfo [] now sz false
        end in
      let alreadyOwner := Set_has id (owners fileInfo) in
      let files' :=
        <[filename := set_owners fileInfo (Set_add id (owners fileInfo))]>
          (fileLocations st) in
      if negb alreadyOwner && negb (sz =? 0)%N then
        let sto := storage_or_zero node in
        let node' := set_storage node (mkStorage (total sto) (used sto + sz)) in
        (ok ("File " +:+ filename +:+ " announced"),
         mkState (<[id := node']> (registeredNodes st)) files'
                 (update_users (owner node) (λ u, u + sz)%N (usersJson st)))
      else
        (ok ("File " +:+ filename +:+ " announced"),
         mkState (registeredNodes st) files' (usersJson st))
  end.

(** ** GET /api/locations/:filename *)

Record Location := mkLocation { loc_id : string; loc_address : string; loc_port : N }.

Definition locations (filename : string) (st : State) : list Location :=
  match fileLocations st !! filename with
  | Some fileInfo =>
      omap (λ ownerId,
              match registeredNodes st !! ownerId with
              | Some node =>
                  if online node
                  then Some (mkLocation ownerId (address node) (port node))
                  else None
              | None => None
              end)
           (owners fileInfo)
  | None => []
  end.

(** The handler as a state transformer: it answers and hands the state on
    untouched. *)
Definition locate (filename : string) (st : State) : list Location * State :=
  (locations filename st, st).

(** ** POST /api/deannounce *)

(** [Math.max(0, used - size)] *)
Definition sub_floor (u sz : N) : N :=
  Z.to_N (Z.max 0 (Z.of_N u - Z.of_N sz)).

Definition deannounce (id filename : string) (sz : N) (st : State)
    : Reply * State :=
  match registeredNodes st !! id with
  | None => (NodeNotRegistered, st)
  | Some node =>
      match fileLocations st !! filename with
      | None => (ok "File not tracked", st)
      | Some fileInfo =>
          let reply := ok ("File " +:+ filename +:+ " deannounced for " +:+ id) in
          if Set_has id (owners fileInfo) then
            let fileInfo' := set_owners fileInfo (Set_delete id (owners fileInfo)) in
            let nodes_users :=
              if negb (sz =? 0)%N then
                let sto := storage_or_zero node in
                let node' :=
                  set_storage node (mkStorage (total sto) (sub_floor (used sto) sz)) in
                (<[id := node']> (registeredNodes st),
                 update_users (owner node) (λ u, sub_floor u sz) (usersJson st))
              else (registeredNodes st, usersJson st) in
            let files' :=
              if decide (length (owners fileInfo') = 0)
              then delete filename (fileLocations st)
              else <[filename := fileInfo']> (fileLocations st) in
            (reply, mkState nodes_users.1 files' nodes_users.2)
          else (reply, st)
      end
  end.

(** ** startHeartbeatChecker: one run of the interval callback (the sweep) *)

Definition timeout_ms : Z := 30000.

(** The guard of the first loop:
    [node.online && !isPersonalNode && (now - lastSeen) > 30000]. *)
Definition timed_out (now : Z) (node : Node) : bool :=
  online node && negb (truthy (owner node)) && (timeout_ms <? now - lastSeen node)%Z.

Definition sweep_node (now : Z) (node : Node) : Node :=
  if timed_out now node then set_online node false else node.

(** [changed]: some iteration of the first loop took the branch. *)
Definition sweep_changed (now : Z) (nodes : gmap string Node) : bool :=
  existsb (λ kv, timed_out now kv.2) (map_to_list nodes).

(** The inner loop of the clean-up, with its [break]. *)
Definition hasOnlineOwner (nodes : gmap string Node) (fileInfo : FileInfo) : bool :=
  existsb (λ ownerId,
             match nodes !! ownerId with
             | Some node => online node
             | None => false
             end)
          (owners fileInfo).

Definition sweep (now : Z) (st : State) : State :=
  let nodes' := sweep_node now <$> registeredNodes st in
  if sweep_changed now (registeredNodes st) then
    mkState nodes'
            (filter (λ kv, hasOnlineOwner nodes' kv.2 = true) (fileLocations st))
            (usersJson st)
  else
    mkState nodes' (fileLocations st) (usersJson st).

(** ** Runs of the control plane *)

Inductive Op :=
| Register (id addr : string) (prt : option N) (own : option string)
           (sto : option StorageReq) (now : Z)
| Heartbeat (id : string) (now : Z)
| Announce (id filename : string) (sz : N) (now : Z)
| Locate (filename : string)
| Deannounce (id filename : string) (sz : N)
| Sweep (now : Z).

Definition exec (op : Op) (st : State) : State :=
  match op with
  | Register id addr prt own sto now => (register id addr prt own sto now st).2
  | Heartbeat id now => (heartbeat id now st).2
  | Announce id f sz now => (announce id f sz now st).2
  | Locate f => (locate f st).2
  | Deannounce id f sz => (deannounce id f sz st).2
  | Sweep now => sweep now st
  end.

Definition run (ops : list Op) (st : State) : State :=
  foldl (λ s op, exec op s) st ops.

(** The states the controller can be in: it starts with empty maps and
    changes only through its handlers and the sweep. *)
Inductive reachable : State → Prop :=
| reachable_initial users : reachable (initial users)
| reachable_step op st : reachable st → reachable (exec op st).

(** ** POST /api/deannounce, in the steps the event loop runs it in

    The handler is an [async] function.  It runs from l.159 to
    [await fs.readFile] (l.183), is resumed when the read has settled and
    runs to [await fs.writeFile] (l.186), and is resumed once more to run
    to its end (l.187-201).  Only a handler that reaches l.183 suspends, that
    is one called by an owner of the file with a truthy [size] and a truthy
    [node.owner]; every other call runs from l.159 to its [return] in one
    step.  While a handler is suspended, other handlers and the sweep run.

    [announce] needs no such treatment for the registry and the index: its
    two [await]s (l.111, l.114) come after its last write to either. *)

(** The locals a suspended handler resumes with.  It holds two object
    references besides: [node] (only [node.owner] is read again, and no
    code assigns to the [owner] of an existing record) and [fileInfo], the
    entry object it took from the index at l.169. *)
Record Suspended := mkSuspended {
  s_id       : string;
  s_filename : string;
  s_size     : N;
  s_owner    : string                (* [node.owner], truthy *)
}.

Inductive Progress :=
| Finished (r : Reply) (st : State)
| AwaitRead (k : Suspended) (st : State)        (* at l.183 *)
| AwaitWrite (k : Suspended) (usersData : gmap string N) (st : State).  (* at l.186 *)

Definition state_of (p : Progress) : State :=
  match p with
  | Finished _ st | AwaitRead _ st | AwaitWrite _ _ st => st
  end.

(** l.195-201.  [held] is [fileInfo.owners] as the handler finds it at that
    point.  [fileLocations.delete(filename)] goes by name: it removes
    whatever entry the index has for [filename] then. *)
Definition deannounce_end (id filename : string) (held : list string) (st : State)
    : Progress :=
  Finished (ok ("File " +:+ filename +:+ " deannounced for " +:+ id))
    (if decide (length held = 0)
     then mkState (registeredNodes st) (delete filename (fileLocations st))
                  (usersJson st)
     else st).

(** l.159-183: from the start of the handler to its first [await], or to
    its [return] when it reaches none.  [fileInfo.owners.delete(id)] (l.171)
    changes the entry object in place: the index holds the entry with the
    owner taken out from then on, also when no owner is left. *)
Definition deannounce_begin (id filename : string) (sz : N) (st : State)
    : Progress :=
  match registeredNodes st !! id with
  | None => Finished NodeNotRegistered st
  | Some node =>
      match fileLocations st !! filename with
      | None => Finished (ok "File not tracked") st
      | Some fileInfo =>
          if Set_has id (owners fileInfo) then
            let held := Set_delete id (owners fileInfo) in
            let files1 :=
              <[filename := set_owners fileInfo held]> (fileLocations st) in
            if negb (sz =? 0)%N then
              let sto := storage_or_zero node in
              let node' :=
                set_storage node (mkStorage (total sto) (sub_floor (used sto) sz)) in
              let st1 :=
                mkState (<[id := node']> (registeredNodes st)) files1 (usersJson st) in
              match owner node with
              | Some o =>
                  if truthy (owner node)
                  then AwaitRead (mkSuspended id filename sz o) st1
                  else deannounce_end id filename held st1
              | None => deannounce_end id filename held st1
              end
            else
              deannounce_end id filename held
                (mkState (registeredNodes st) files1 (usersJson st))
          else
            Finished (ok ("File " +:+ filename +:+ " deannounced for " +:+ id)) st
      end
  end.

(** l.183-186: resumed after [fs.readFile].  A file that cannot be read or
    parsed throws into the [catch] of l.189, a user that is not in the table
    skips the write; both go on to l.195 at once. *)
Definition deannounce_read (k : Suspended) (held : list string) (st : State)
    : Progress :=
  match usersJson st with
  | Some usersData =>
      match usersData !! s_owner k with
      | Some u =>
          AwaitWrite k (<[s_owner k := sub_floor u (s_size k)]> usersData) st
      | None => deannounce_end (s_id k) (s_filename k) held st
      end
  | None => deannounce_end (s_id k) (s_filename k) held st
  end.

(** l.186-201: resumed after [fs.writeFile], which has put [usersData] in
    place of the file. *)
Definition deannounce_written (k : Suspended) (usersData : gmap string N)
    (held : list string) (st : State) : Progress :=
  deannounce_end (s_id k) (s_filename k) held
    (mkState (registeredNodes st) (fileLocations st) (Some usersData)).

(** One resumption of a handler, given what [fileInfo.owners] is by then. *)
Definition resume (held : list string) (p : Progress) : Progress :=
  match p with
  | Finished _ _ => p
  | AwaitRead k st => deannounce_read k held st
  | AwaitWrite k usersData st => deannounce_written k usersData held st
  end.

(** [fileInfo.owners] for a handler whose [fileInfo] is still the entry the
    index has under [filename]: nothing has deleted the entry since l.169. *)
Definition held_in_index (filename : string) (st : State) : list string :=
  default [] (owners_of st filename).

(** The states in which a handler or the sweep has just returned, or a
    deannounce has just suspended at l.183: whole operations as in
    [reachable], and besides them a deannounce that has run as far as its
    first [await] and has not been resumed yet. *)
Inductive reachable_suspending : State → Prop :=
| suspending_initial users : reachable_suspending (initial users)
| suspending_step op st :
    reachable_suspending st → reachable_suspending (exec op st)
| suspending_await id filename sz st k st1 :
    reachable_suspending st →
    deannounce_begin id filename sz st = AwaitRead k st1 →
    reachable_suspending st1.

End Controller.

(* ===================================================================== *)
(** * The digest used by storage.js                                       *)
(* ===================================================================== *)

(** [crypto.createHash('md5').update(data).digest('hex')]: MD5 as RFC 1321
    defines it, on 32-bit words kept in [N], printed as 32 lower-case
    hexadecimal digits. *)
Module MD5.

Local Open Scope N_scope.

Definition mask32 : N := 0xFFFFFFFF.
Definition add32 (a b : N) : N := N.land (a + b) mask32.
Definition not32 (a : N) : N := N.lxor a mask32.
Definition rotl32 (x c : N) : N :=
  N.land (N.lor (N.shiftl x c) (N.shiftr x (32 - c))) mask32.

Definition F (b c d : N) : N := N.lor (N.land b c) (N.land (not32 b) d).
Definition G (b c d : N) : N := N.lor (N.land b d) (N.land c (not32 d)).
Definition H (b c d : N) : N := N.lxor (N.lxor b c) d.
Definition I (b c d : N) : N := N.lxor c (N.lor b (not32 d)).

(** Per-round shift amounts. *)
Definition S : list N :=
  [
    7; 12; 17; 22; 7; 12; 17; 22; 7; 12; 17; 22; 7; 12; 17; 22;
    5; 9; 14; 20; 5; 9; 14; 20; 5; 9; 14; 20; 5; 9; 14; 20;
    4; 11; 16; 23; 4; 11; 16; 23; 4; 11; 16; 23; 4; 11; 16; 23;
    6; 10; 15; 21; 6; 10; 15; 21; 6; 10; 15; 21; 6; 10; 15; 21 ].

(** [K[i] = floor(2^32 * |sin(i + 1)|)]. *)
Definition K : list N :=
  [
    0xd76aa478; 0xe8c7b756; 0x242070db; 0xc1bdceee;
    0xf57c0faf; 0x4787c62a; 0xa8304613; 0xfd469501;
    0x698098d8; 0x8b44f7af; 0xffff5bb1; 0x895cd7be;
    0x6b901122; 0xfd987193; 0xa679438e; 0x49b40821;
    0xf61e2562; 0xc040b340; 0x265e5a51; 0xe9b6c7aa;
    0xd62f105d; 0x02441453; 0xd8a1e681; 0xe7d3fbc8;
    0x21e1cde6; 0xc33707d6; 0xf4d50d87; 0x455a14ed;
    0xa9e3e905; 0xfcefa3f8; 0x676f02d9; 0x8d2a4c8a;
    0xfffa3942; 0x8771f681; 0x6d9d6122; 0xfde5380c;
    0xa4beea44; 0x4bdecfa9; 0xf6bb4b60; 0xbebfbc70;
    0x289b7ec6; 0xeaa127fa; 0xd4ef3085; 0x04881d05;
    0xd9d4d039; 0xe6db99e5; 0x1fa27cf8; 0xc4ac5665;
    0xf4292244; 0x432aff97; 0xab9423a7; 0xfc93a039;
    0x655b59c3; 0x8f0ccc92; 0xffeff47d; 0x85845dd1;
    0x6fa87e4f; 0xfe2ce6e0; 0xa3014314; 0x4e0811a1;
    0xf7537e82; 0xbd3af235; 0x2ad7d2bb; 0xeb86d391 ].

Definition A0 : N := 0x67452301.
Definition B0 : N := 0xefcdab89.
Definition C0 : N := 0x98badcfe.
Definition D0 : N := 0x10325476.

Definition state : Type := N * N * N * N.

(** Operation [i] (0..63) of the block transform, on the sixteen message
    words [M]. *)
Definition step (M : list N) (st : state) (i : nat) : state :=
  let '(a, b, c, d) := st in
  let j := N.of_nat i in
  let '(f, g) :=
    if j <? 16 then (F b c d, j)
    else if j <? 32 then (G b c d, (5 * j + 1) mod 16)
    else if j <? 48 then (H b c d, (3 * j + 5) mod 16)
    else (I b c d, (7 * j) mod 16) in
  let f' := add32 (add32 (add32 f a) (nth i K 0)) (nth (N.to_nat g) M 0) in
  (d, add32 b (rotl32 f' (nth i S 0)), b, c).

(** Little-endian 32-bit words of a byte sequence. *)
Fixpoint words (l : list N) : list N :=
  match l with
  | b0 :: b1 :: b2 :: b3 :: r =>
      (b0 + b1 * 2 ^ 8 + b2 * 2 ^ 16 + b3 * 2 ^ 24) :: words r
  | _ => []
  end.

Definition process_block (st : state) (block : list N) : state :=
  let '(a, b, c, d) := st in
  let '(a', b', c', d') := foldl (step (words block)) st (seq 0 64) in
  (add32 a a', add32 b b', add32 c c', add32 d d').

(** The [n] low bytes of [x], least significant first. *)
Fixpoint le_bytes (n : nat) (x : N) : list N :=
  match n with
  | O => []
  | Datatypes.S n' => (x mod 256) :: le_bytes n' (x / 256)
  end.

(** Padding: a 1 bit, zeros up to 56 mod 64, then the bit length on 64
    bits. *)
Definition pad (msg : list N) : list N :=
  let len := N.of_nat (length msg) in
  msg ++ [0x80] ++ replicate (N.to_nat ((119 - len mod 64) mod 64)) 0
      ++ le_bytes 8 ((8 * len) mod 2 ^ 64).

Fixpoint blocks (fuel : nat) (l : list N) : list (list N) :=
  match fuel, l with
  | Datatypes.S fuel', _ :: _ => take 64 l :: blocks fuel' (drop 64 l)
  | _, _ => []
  end.

Definition digest_words (msg : list N) : state :=
  let p := pad msg in
  foldl process_block (A0, B0, C0, D0) (blocks (length p) p).

Definition hex_digit (n : N) : ascii :=
  match n with
  | 0 => "0" | 1 => "1" | 2 => "2" | 3 => "3" | 4 => "4" | 5 => "5"
  | 6 => "6" | 7 => "7" | 8 => "8" | 9 => "9" | 10 => "a" | 11 => "b"
  | 12 => "c" | 13 => "d" | 14 => "e" | _ => "f"
  end%char.

Fixpoint hex_of_bytes (l : list N) : string :=
  match l with
  | [] => ""
  | b :: r => String (hex_digit (b / 16)) (String (hex_digit (b mod 16)) (hex_of_bytes r))
  end.

Definition md5_hex (data : list byte) : string :=
  let '(a, b, c, d) := digest_words (Byte.to_N <$> data) in
  hex_of_bytes (le_bytes 4 a ++ le_bytes 4 b ++ le_bytes 4 c ++ le_bytes 4 d).

End MD5.

(* ===================================================================== *)
(** * storage.js                                                          *)
(* ===================================================================== *)

(** The disk as [StorageManager] sees it: the two directories it owns
    under [basePath], keyed by file name, and every other path.  The
    metadata files are kept parsed ([JSON.stringify] followed by
    [JSON.parse] gives the record back).  File names are plain names
    without path separators, and the input and output paths lie outside
    the two directories.  Reading a missing file fails; writes succeed. *)
Module Storage.

Record StorageManager := mkStorageManager {
  basePath  : string;
  chunkSize : N
}.

(** [constructor(basePath = './storage')]: 1MB chunks. *)
Definition new_StorageManager (base : option string) : StorageManager :=
  mkStorageManager (default "./storage" base) (1024 * 1024).

(** An entry of [metadata.chunks]. *)
Record ChunkInfo := mkChunkInfo {
  index : N;
  id    : string;
  size  : N;
  hash  : string
}.

Record Manifest := mkManifest {
  filename           : string;
  originalSize       : N;
  manifest_chunkSize : N;
  chunkCount         : N;
  chunks             : list ChunkInfo;
  createdAt          : Z;
  reassembled        : bool;
  reassembledAt      : option Z
}.

Record Disk := mkDisk {
  chunksDir   : gmap string (list byte);   (* <basePath>/chunks/<chunk id> *)
  metadataDir : gmap string Manifest;      (* <basePath>/metadata/<name>.json *)
  files       : gmap string (list byte)    (* any other path *)
}.

(** What the two methods throw.  The first three are the [ENOENT] of
    [fs.readFile] on the input file, on the metadata file and on a chunk
    file; the last is [new Error(`Chunk ${index} integrity check failed`)]. *)
Inductive Error :=
| FileNotFound (path : string)
| ManifestNotFound (name : string)
| ChunkNotFound (chunkId : string)
| ChunkIntegrityError (chunkIndex : N).

Inductive Result (A : Type) :=
| Ok (a : A)
| Throw (e : Error).
Arguments Ok {A} a.
Arguments Throw {A} e.

(** A number inside a template literal: its decimal digits. *)
Definition decimal (n : N) : string := NilEmpty.string_of_uint (N.to_uint n).

(** [`${filename}_chunk_${i}_${chunkHash}`] *)
Definition chunkId (filename : string) (i : N) (chunkHash : string) : string :=
  filename +:+ "_chunk_" +:+ decimal i +:+ "_" +:+ chunkHash.

(** [`${filename}.json`] *)
Definition metadataName (filename : string) : string := filename +:+ ".json".

(** [Math.ceil(a / b)] for [b > 0]: on integers below 2^53 the
    floating-point quotient does not round across an integer, so this is
    the integer ceiling.  (With [b = 0] the source divides by zero; the
    constructor never sets that.) *)
Definition ceil_div (a b : N) : N :=
  if (a mod b =? 0)%N then (a / b)%N else (a / b + 1)%N.

(** [buffer.slice(start, end)] *)
Definition slice (buf : list byte) (start end_ : N) : list byte :=
  take (N.to_nat (end_ - start)) (drop (N.to_nat start) buf).

(** ** splitFile *)

(** The body of the [for] loop for chunk [i]. *)
Definition make_chunk (sm : StorageManager) (filename : string)
    (fileBuffer : list byte) (fileSize : N) (i : N) : ChunkInfo * list byte :=
  let start := (i * chunkSize sm)%N in
  let end_ := N.min (start + chunkSize sm) fileSize in
  let chunkData := slice fileBuffer start end_ in
  let chunkHash := MD5.md5_hex chunkData in
  (mkChunkInfo i (chunkId filename i chunkHash) (N.of_nat (length chunkData)) chunkHash,
   chunkData).

(** [for (let i = 0; i < chunkCount; i++)]: [n] iterations are left, the
    next one is for chunk [i]. *)
Fixpoint split_loop (sm : StorageManager) (filename : string)
    (fileBuffer : list byte) (fileSize : N) (n : nat) (i : N)
    (dir : gmap string (list byte)) (acc : list ChunkInfo)
    : gmap string (list byte) * list ChunkInfo :=
  match n with
  | O => (dir, acc)
  | S n' =>
      let '(info, chunkData) := make_chunk sm filename fileBuffer fileSize i in
      split_loop sm filename fileBuffer fileSize n' (i + 1)%N
        (<[id info := chunkData]> dir) (acc ++ [info])
  end.

Definition splitFile (sm : StorageManager) (filePath filename : string)
    (now : Z) (disk : Disk) : Result Manifest * Disk :=
  match files disk !! filePath with
  | None => (Throw (FileNotFound filePath), disk)
  | Some fileBuffer =>
      let fileSize := N.of_nat (length fileBuffer) in
      let count := ceil_div fileSize (chunkSize sm) in
      let '(dir, cs) :=
        split_loop sm filename fileBuffer fileSize (N.to_nat count) 0
          (chunksDir disk) [] in
      let metadata :=
        mkManifest filename fileSize (chunkSize sm) count cs now false None in
      (Ok metadata,
       mkDisk dir (<[metadataName filename := metadata]> (metadataDir disk))
              (files disk))
  end.

(** ** reassembleFile *)

(** [metadata.chunks.sort((a, b) => a.index - b.index)]: a stable sort by
    ascending index. *)
Fixpoint insert_by_index (c : ChunkInfo) (l : list ChunkInfo) : list ChunkInfo :=
  match l with
  | [] => [c]
  | x :: r =>
      if (index c <=? index x)%N then c :: x :: r
      else x :: insert_by_index c r
  end.

Definition sort_by_index (l : list ChunkInfo) : list ChunkInfo :=
  foldr insert_by_index [] l.

(** [source.copy(target, targetStart)]: copies what fits and leaves the
    length of [target] as it is. *)
Definition buffer_copy (source target : list byte) (targetStart : nat) : list byte :=
  let n := Nat.min (length source) (length target - targetStart) in
  take targetStart target ++ take n source ++ drop (targetStart + n) target.

Fixpoint reassemble_loop (dir : gmap string (list byte)) (infos : list ChunkInfo)
    (fileBuffer : list byte) (bytesWritten : N) : Result (list byte) :=
  match infos with
  | [] => Ok fileBuffer
  | chunkInfo :: rest =>
      match dir !! id chunkInfo with
      | None => Throw (ChunkNotFound (id chunkInfo))
      | Some chunkData =>
          if decide (MD5.md5_hex chunkData = hash chunkInfo) then
            reassemble_loop dir rest
              (buffer_copy chunkData fileBuffer (N.to_nat bytesWritten))
              (bytesWritten + N.of_nat (length chunkData))%N
          else Throw (ChunkIntegrityError (index chunkInfo))
      end
  end.

Definition reassembleFile (sm : StorageManager) (name outputPath : string)
    (now : Z) (disk : Disk) : Result string * Disk :=
  match metadataDir disk !! metadataName name with
  | None => (Throw (ManifestNotFound (metadataName name)), disk)
  | Some metadata =>
      let sorted := sort_by_index (chunks metadata) in
      match reassemble_loop (chunksDir disk) sorted
              (replicate (N.to_nat (originalSize metadata)) x00) 0 with
      | Throw e => (Throw e, disk)
      | Ok fileBuffer =>
          let metadata' :=
            mkManifest (filename metadata) (originalSize metadata)
              (manifest_chunkSize metadata) (chunkCount metadata) sorted
              (createdAt metadata) true (Some now) in
          (Ok outputPath,
           mkDisk (chunksDir disk)
                  (<[metadataName name := metadata']> (metadataDir disk))
                  (<[outputPath := fileBuffer]> (files disk)))
      end
  end.

(** ** cleanup *)

(** The first loop of [cleanup]: the ids of the chunks of every metadata
    file, collected in a [Set] that is only asked for membership. *)
Definition usedChunks (metadata : gmap string Manifest) : gset string :=
  foldl (λ used kv, foldl (λ u c, {[ id c ]} ∪ u) used (chunks kv.2)) ∅
        (map_to_list metadata).

(** The second loop, over the names [readdir] lists: a chunk file no
    metadata refers to is unlinked and counted. *)
Definition cleanup_loop (used : gset string) (names : list string)
    (dir : gmap string (list byte)) (deletedCount : N)
    : gmap string (list byte) * N :=
  foldl (λ acc chunkFile,
           if decide (chunkFile ∈ used) then acc
           else (delete chunkFile acc.1, (acc.2 + 1)%N))
        (dir, deletedCount) names.

(** [cleanup()]: returns [deletedCount].  (The [catch] branch, which
    returns 0, is for a directory that cannot be listed or a metadata file
    that cannot be parsed; both directories are present and parsed here.) *)
Definition cleanup (sm : StorageManager) (disk : Disk) : N * Disk :=
  let used := usedChunks (metadataDir disk) in
  let r := cleanup_loop used (map_to_list (chunksDir disk)).*1 (chunksDir disk) 0 in
  (r.2, mkDisk r.1 (metadataDir disk) (files disk)).

(** ** getStorageStats *)

(** The numbers [getStorageStats] returns; the [formatted] strings, which
    go through floating-point formatting, are left out. *)
Record Stats := mkStats {
  totalSize        : N;
  stats_chunkCount : N;
  fileCount        : N
}.

Definition getStorageStats (sm : StorageManager) (disk : Disk) : Stats :=
  let chunkFiles := map_to_list (chunksDir disk) in
  mkStats (foldl (λ total kv, (total + N.of_nat (length kv.2))%N) 0%N chunkFiles)
          (N.of_nat (length chunkFiles))
          (N.of_nat (length (map_to_list (metadataDir disk)))).

End Storage.

(* ===================================================================== *)
(** * The one-time passwords of utils/email.js                            *)
(* ===================================================================== *)

(** [otpStore], the in-memory [Map] from e-mail address to the pending
    one-time password, and the JSON file [data/otps.json] that mirrors it
    ([None]: the file is missing or cannot be parsed).  Times are
    milliseconds ([Date.now()]).  [saveOTPToFile] is run to completion where
    [storeOTP] starts it. *)
Module Email.

Record Otp := mkOtp { otp : string; expiryTime : Z }.

Record OtpFileEntry := mkOtpFileEntry {
  file_otp        : string;
  file_expiryTime : Z;
  createdAt       : Z
}.

Record State := mkState {
  otpStore : gmap string Otp;
  otpFile  : option (gmap string OtpFileEntry)
}.

(** [const otpExpiry = 10 * 60 * 1000] *)
Definition otpExpiry : Z := 10 * 60 * 1000.

(** [saveOTPToFile]: an unreadable file counts as the empty object. *)
Definition saveOTPToFile (email code : string) (expiry now : Z)
    (file : option (gmap string OtpFileEntry)) : option (gmap string OtpFileEntry) :=
  Some (<[email := mkOtpFileEntry code expiry now]> (default ∅ file)).

(** [storeOTP(email, otp)]: returns the code. *)
Definition storeOTP (email code : string) (now : Z) (st : State) : string * State :=
  let expiry := (now + otpExpiry)%Z in
  (code,
   mkState (<[email := mkOtp code expiry]> (otpStore st))
           (saveOTPToFile email code expiry now (otpFile st))).

(** [verifyOTP(email, otp)] *)
Definition verifyOTP (email code : string) (now : Z) (st : State) : bool * State :=
  match otpStore st !! email with
  | None => (false, st)
  | Some stored =>
      if (expiryTime stored <? now)%Z then
        (false, mkState (delete email (otpStore st)) (otpFile st))
      else if decide (otp stored = code) then
        (true, mkState (delete email (otpStore st)) (otpFile st))
      else (false, st)
  end.

(** [cleanupExpiredOTPs()]: the store drops the entries with
    [now > expiryTime]; the file, when it can be read, keeps the entries
    with [now < expiryTime]. *)
Definition cleanupExpiredOTPs (now : Z) (st : State) : State :=
  mkState (filter (λ kv, ¬ (expiryTime kv.2 < now)%Z) (otpStore st))
          (match otpFile st with
           | Some otps => Some (filter (λ kv, (now < file_expiryTime kv.2)%Z) otps)
           | None => None
           end).

End Email.

(* ===================================================================== *)
(** * Properties of the control plane                                     *)
(* ===================================================================== *)

Module ControllerSpec.
Import Controller.

(** ** The owner set *)

Lemma Set_has_true x s : Set_has x s = true ↔ x ∈ s.
Proof. unfold Set_has. apply bool_decide_eq_true. Qed.

Lemma Set_has_false x s : Set_has x s = false ↔ x ∉ s.
Proof. unfold Set_has. apply bool_decide_eq_false. Qed.

Lemma elem_of_Set_add x y s : y ∈ Set_add x s ↔ y = x ∨ y ∈ s.
Proof.
  unfold Set_add. destruct (Set_has x s) eqn:E.
  - apply Set_has_true in E. split; [auto|]. intros [->|?]; done.
  - rewrite elem_of_app, elem_of_cons, elem_of_nil. tauto.
Qed.

Lemma Set_add_member x s : x ∈ s → Set_add x s = s.
Proof. intros H. unfold Set_add. apply Set_has_true in H. by rewrite H. Qed.

Lemma Set_add_not_nil x s : Set_add x s ≠ [].
Proof.
  intros E. assert (H : x ∈ Set_add x s) by (apply elem_of_Set_add; by left).
  rewrite E in H. by apply not_elem_of_nil in H.
Qed.

Lemma elem_of_Set_delete x y s : y ∈ Set_delete x s ↔ y ≠ x ∧ y ∈ s.
Proof. unfold Set_delete. by rewrite list_elem_of_filter. Qed.

Lemma Set_delete_add_fresh x s : x ∉ s → Set_delete x (Set_add x s) = s.
Proof.
  intros Hx. unfold Set_add, Set_delete.
  rewrite (proj2 (Set_has_false x s) Hx).
  rewrite filter_app. cbn. rewrite decide_False by (intros ?; done).
  rewrite app_nil_r. induction s as [|y s IH]; [done|].
  apply not_elem_of_cons in Hx as [Hne Hx].
  rewrite filter_cons, decide_True by done. f_equal. by apply IH.
Qed.

Lemma Set_delete_singleton x : Set_delete x [x] = [].
Proof. apply (Set_delete_add_fresh x []), not_elem_of_nil. Qed.

(** ** Arithmetic of the storage counter *)

Lemma sub_floor_add u sz : sub_floor (u + sz) sz = u.
Proof. unfold sub_floor. lia. Qed.

(** ** Reading the state after a handler *)


(** ** locate *)

Lemma elem_of_locations l filename st :
  l ∈ locations filename st ↔
  ∃ fi node, fileLocations st !! filename = Some fi ∧ loc_id l ∈ owners fi ∧
    registeredNodes st !! loc_id l = Some node ∧ online node = true ∧
    l = mkLocation (loc_id l) (address node) (port node).
Proof.
  unfold locations. destruct (fileLocations st !! filename) as [fi|] eqn:Hf.
  - rewrite list_elem_of_omap. split.
    + intros (o & Ho & Hl).
      destruct (registeredNodes st !! o) as [node|] eqn:Hn; [|done].
      destruct (online node) eqn:Hon; [|done].
      injection Hl as <-. cbn. by exists fi, node.
    + intros (fi' & node & Hfi & Ho & Hn & Hon & Hl).
      injection Hfi as <-. exists (loc_id l). split; [done|].
      rewrite Hn, Hon. by rewrite <- Hl.
  - rewrite elem_of_nil. split; [done|]. by intros (? & ? & ? & _).
Qed.

(** C3. Every location [locate] returns is the address and port of an
    owner of the file whose node record is online; an owner whose record is
    offline is never in the answer although it is still in the owner set;
    every online owner is in the answer; and the handler leaves the
    registry and the index (hence every owner set) as they were. *)
Theorem locate_only_online_owners (filename : string) (st : State) :
  (∀ l, l ∈ (locate filename st).1 →
     ∃ fi node, fileLocations st !! filename = Some fi ∧
       loc_id l ∈ owners fi ∧
       registeredNodes st !! loc_id l = Some node ∧ online node = true ∧
       loc_address l = address node ∧ loc_port l = port node) ∧
  (∀ fi o node, fileLocations st !! filename = Some fi → o ∈ owners fi →
     registeredNodes st !! o = Some node → online node = false →
     ∀ l, l ∈ (locate filename st).1 → loc_id l ≠ o) ∧
  (∀ fi o node, fileLocations st !! filename = Some fi → o ∈ owners fi →
     registeredNodes st !! o = Some node → online node = true →
     mkLocation o (address node) (port node) ∈ (locate filename st).1) ∧
  (locate filename st).2 = st ∧
  owners_of (locate filename st).2 filename = owners_of st filename.
Proof.
  unfold locate. cbn [fst snd]. split_and!; [| | |done|done].
  - intros l (fi & node & Hfi & Ho & Hn & Hon & Hl)%elem_of_locations.
    exists fi, node. destruct l as [i a p]. cbn in *.
    injection Hl as -> ->. done.
  - intros fi o node _ _ Hn Hoff l
      (fi' & node' & _ & _ & Hn' & Hon & _)%elem_of_locations E.
    rewrite E in Hn'. congruence.
  - intros fi o node Hfi Ho Hn Hon. apply elem_of_locations.
    by exists fi, node.
Qed.

(** ** announce and deannounce: the registration check *)

Lemma announce_unregistered id filename sz now st :
  registeredNodes st !! id = None →
  announce id filename sz now st = (NodeNotRegistered, st).
Proof. intros H. unfold announce. by rewrite H. Qed.

Lemma announce_registered_success id filename sz now st :
  is_Some (registeredNodes st !! id) →
  (announce id filename sz now st).1 = ok ("File " +:+ filename +:+ " announced").
Proof.
  intros [node H]. unfold announce. rewrite H. cbn zeta.
  by destruct (negb _ && negb _).
Qed.

Lemma deannounce_unregistered id filename sz st :
  registeredNodes st !! id = None →
  deannounce id filename sz st = (NodeNotRegistered, st).
Proof. intros H. unfold deannounce. by rewrite H. Qed.

Lemma deannounce_registered_success id filename sz st :
  is_Some (registeredNodes st !! id) →
  success (deannounce id filename sz st).1 = true.
Proof.
  intros [node H]. unfold deannounce. rewrite H.
  destruct (fileLocations st !! filename); [|done]. cbn zeta.
  by destruct (Set_has _ _).
Qed.

(** C6. [announce] and [deannounce] answer [NodeNotRegistered] (status
    400, [success: false]) exactly when the node id is absent from the
    registry, and then the whole state is unchanged; for a registered node
    both succeed, and a [deannounce] of an untracked file name answers
    "File not tracked" and changes nothing. *)
Theorem node_not_registered_exactly (id filename : string) (sz : N) (now : Z)
    (st : State) :
  ((announce id filename sz now st).1 = NodeNotRegistered ↔
     registeredNodes st !! id = None) ∧
  (success (announce id filename sz now st).1 = false ↔
     registeredNodes st !! id = None) ∧
  (registeredNodes st !! id = None → (announce id filename sz now st).2 = st) ∧
  ((deannounce id filename sz st).1 = NodeNotRegistered ↔
     registeredNodes st !! id = None) ∧
  (success (deannounce id filename sz st).1 = false ↔
     registeredNodes st !! id = None) ∧
  (registeredNodes st !! id = None → (deannounce id filename sz st).2 = st) ∧
  (is_Some (registeredNodes st !! id) → fileLocations st !! filename = None →
     deannounce id filename sz st = (ok "File not tracked", st)).
Proof.
  destruct (registeredNodes st !! id) as [node|] eqn:Hn.
  - assert (Hs : is_Some (registeredNodes st !! id)) by (rewrite Hn; eauto).
    pose proof (announce_registered_success id filename sz now st Hs) as Ha.
    pose proof (deannounce_registered_success id filename sz st Hs) as Hd.
    split_and!.
    + rewrite Ha. split; done.
    + rewrite Ha. split; done.
    + done.
    + split; [|done]. intros E. rewrite E in Hd. done.
    + rewrite Hd. split; done.
    + done.
    + intros _ Hf. unfold deannounce. by rewrite Hn, Hf.
  - rewrite (announce_unregistered _ _ _ _ _ Hn).
    rewrite (deannounce_unregistered _ _ _ _ Hn).
    split_and!; done.
Qed.

(** ** announce: what it does to the index and to the registry *)

(** The entry [announce] works on: the existing one, or the fresh one it
    has just created. *)
Definition entry_for (filename : string) (sz : N) (now : Z) (st : State) : FileInfo :=
  match fileLocations st !! filename with
  | Some fi => fi
  | None => mkFileInfo [] now sz false
  end.

Lemma announce_files id filename sz now st :
  is_Some (registeredNodes st !! id) →
  fileLocations (announce id filename sz now st).2 =
  <[filename := set_owners (entry_for filename sz now st)
                  (Set_add id (owners (entry_for filename sz now st)))]>
    (fileLocations st).
Proof.
  intros [node H]. unfold announce, entry_for. rewrite H. cbn zeta.
  by destruct (negb _ && negb _).
Qed.

Lemma announce_nodes id filename sz now st node :
  registeredNodes st !! id = Some node →
  registeredNodes (announce id filename sz now st).2 =
  if negb (Set_has id (owners (entry_for filename sz now st))) && negb (sz =? 0)%N
  then <[id := set_storage node
                 (mkStorage (total (storage_or_zero node))
                            (used (storage_or_zero node) + sz))]>
         (registeredNodes st)
  else registeredNodes st.
Proof.
  intros H. unfold announce, entry_for. rewrite H. cbn zeta.
  by destruct (negb _ && negb _).
Qed.

Lemma announce_owners id filename sz now st :
  is_Some (registeredNodes st !! id) →
  owners_of (announce id filename sz now st).2 filename =
  Some (Set_add id (owners (entry_for filename sz now st))).
Proof.
  intros H. unfold owners_of. rewrite (announce_files _ _ _ _ _ H).
  by rewrite lookup_insert_eq.
Qed.

Lemma announce_used id filename sz now st node :
  registeredNodes st !! id = Some node →
  used_of (announce id filename sz now st).2 id =
  Some (if Set_has id (owners (entry_for filename sz now st))
        then node_used node else (node_used node + sz)%N).
Proof.
  intros H. unfold used_of. rewrite (announce_nodes _ _ _ _ _ _ H).
  destruct (Set_has _ _); cbn [negb andb].
  - by rewrite H.
  - destruct (sz =? 0)%N eqn:E; cbn [negb].
    + apply N.eqb_eq in E as ->. rewrite H. cbn. f_equal. lia.
    + by rewrite lookup_insert_eq.
Qed.

(** A repeated [announce] changes nothing at all. *)
Lemma announce_again id filename sz now st fi :
  is_Some (registeredNodes st !! id) →
  fileLocations st !! filename = Some fi → id ∈ owners fi →
  (announce id filename sz now st).2 = st.
Proof.
  intros [node Hn] Hf Ho. unfold announce. rewrite Hn, Hf. cbn zeta.
  rewrite (proj2 (Set_has_true _ _) Ho). cbn [negb andb snd].
  rewrite (Set_add_member _ _ Ho).
  destruct st as [nodes files users]. cbn in *. f_equal.
  apply insert_id. by destruct fi.
Qed.

(** C4 (as amended). For a registered node, two [announce] calls in a row
    with the same arguments both succeed; the second one changes nothing:
    the node's used storage and the file's owner set are what the first
    call left.  Over the two calls the used storage grows by [sz] exactly
    once when the node was not yet an owner of the file, and not at all
    when it already was. *)
Theorem announce_twice_counts_once (id filename : string) (sz : N)
    (now1 now2 : Z) (st : State) (node : Node) :
  registeredNodes st !! id = Some node →
  let st1 := (announce id filename sz now1 st).2 in
  let st2 := (announce id filename sz now2 st1).2 in
  success (announce id filename sz now1 st).1 = true ∧
  success (announce id filename sz now2 st1).1 = true ∧
  used_of st2 id = used_of st1 id ∧
  owners_of st2 filename = owners_of st1 filename ∧
  st2 = st1 ∧
  (id ∉ default [] (owners_of st filename) →
     used_of st2 id = Some (node_used node + sz)%N) ∧
  (id ∈ default [] (owners_of st filename) →
     used_of st2 id = Some (node_used node)).
Proof.
  intros Hn st1 st2.
  assert (Hs : is_Some (registeredNodes st !! id)) by (rewrite Hn; eauto).
  assert (Hs1 : is_Some (registeredNodes st1 !! id)).
  { subst st1. rewrite (announce_nodes _ _ _ _ _ _ Hn).
    destruct (negb _ && negb _); [|done]. rewrite lookup_insert_eq. eauto. }
  assert (E : st2 = st1).
  { subst st2.
    eapply announce_again; [done| |].
    - subst st1. rewrite (announce_files _ _ _ _ _ Hs). apply lookup_insert_eq.
    - cbn. apply elem_of_Set_add. by left. }
  split_and!.
  - by rewrite (announce_registered_success _ _ _ _ _ Hs).
  - by rewrite (announce_registered_success _ _ _ _ _ Hs1).
  - by rewrite E.
  - by rewrite E.
  - done.
  - intros Hno. rewrite E. subst st1.
    rewrite (announce_used _ _ _ _ _ _ Hn).
    unfold owners_of, entry_for in *.
    destruct (fileLocations st !! filename) as [fi|]; cbn in *.
    + by rewrite (proj2 (Set_has_false _ _) Hno).
    + done.
  - intros Hin. rewrite E. subst st1.
    rewrite (announce_used _ _ _ _ _ _ Hn).
    unfold owners_of, entry_for in *.
    destruct (fileLocations st !! filename) as [fi|]; cbn in *.
    + by rewrite (proj2 (Set_has_true _ _) Hin).
    + by apply elem_of_nil in Hin.
Qed.


(** ** Runs and reachable states *)

Lemma reachable_run ops st : reachable st → reachable (run ops st).
Proof.
  revert st. induction ops as [|op ops IH]; intros st H; [done|].
  cbn. apply IH. by constructor.
Qed.

(** [register] stores [owner || null], so no record ever carries the empty
    string as owner: in the registry a node is personal exactly when its
    owner is not [null]. *)
Definition owner_ok (node : Node) : Prop := owner node ≠ Some "".

Definition owners_wf (st : State) : Prop :=
  map_Forall (λ _ node, owner_ok node) (registeredNodes st).

Lemma truthy_owner_ok node :
  owner_ok node → truthy (owner node) = false ↔ owner node = None.
Proof.
  unfold owner_ok, truthy. destruct (owner node) as [o|]; [|done].
  intros H. split; [|done]. intros E%negb_false_iff%bool_decide_eq_true.
  by subst o.
Qed.

Lemma exec_owners_wf op st : owners_wf st → owners_wf (exec op st).
Proof.
  intros H. unfold owners_wf in *.
  destruct op as [id addr prt own sto now|id now|id f sz now|f|id f sz|now]; cbn.
  - apply map_Forall_insert_2; [|done]. unfold owner_ok, or_null. cbn.
    destruct own as [o|]; [|done].
    destruct (decide (o = "")); [done|]. by intros [= ->].
  - destruct (registeredNodes st !! id) as [node|] eqn:Hn; [|done]. cbn.
    apply map_Forall_insert_2; [|done]. exact (H _ _ Hn).
  - destruct (registeredNodes st !! id) as [node|] eqn:Hn.
    + rewrite (announce_nodes _ _ _ _ _ _ Hn).
      destruct (negb _ && negb _); [|done].
      apply map_Forall_insert_2; [|done]. exact (H _ _ Hn).
    + by rewrite (announce_unregistered _ _ _ _ _ Hn).
  - done.
  - unfold deannounce.
    destruct (registeredNodes st !! id) as [node|] eqn:Hn; [|done].
    destruct (fileLocations st !! f) as [fi|]; [|done]. cbn zeta.
    destruct (Set_has id (owners fi)); [|done].
    destruct (negb (sz =? 0)%N); cbn; [|done].
    apply map_Forall_insert_2; [|done]. exact (H _ _ Hn).
  - unfold sweep.
    assert (Hs : map_Forall (λ _ n, owner_ok n)
                   (sweep_node now <$> registeredNodes st)).
    { intros i n. rewrite lookup_fmap.
      destruct (registeredNodes st !! i) as [n0|] eqn:Hn; [|done].
      cbn. intros [= <-]. unfold sweep_node.
      destruct (timed_out now n0); [|exact (H _ _ Hn)]. exact (H _ _ Hn). }
    by destruct (sweep_changed now (registeredNodes st)).
Qed.

Lemma reachable_owners_wf st : reachable st → owners_wf st.
Proof.
  induction 1 as [users|op st _ IH].
  - unfold owners_wf, initial. cbn. apply map_Forall_empty.
  - by apply exec_owners_wf.
Qed.

(** ** The sweep, first loop *)

Lemma sweep_nodes now st :
  registeredNodes (sweep now st) = sweep_node now <$> registeredNodes st.
Proof. unfold sweep. by destruct (sweep_changed _ _). Qed.

Lemma sweep_changed_true now (nodes : gmap string Node) :
  sweep_changed now nodes = true ↔
  ∃ id node, nodes !! id = Some node ∧ timed_out now node = true.
Proof.
  unfold sweep_changed. rewrite existsb_exists. split.
  - intros ([id node] & Hin & Ht). exists id, node. split; [|done].
    by apply elem_of_map_to_list, list_elem_of_In.
  - intros (id & node & Hn & Ht). exists (id, node). split; [|done].
    by apply list_elem_of_In, elem_of_map_to_list.
Qed.

Lemma sweep_changed_false now (nodes : gmap string Node) :
  sweep_changed now nodes = false ↔
  ∀ id node, nodes !! id = Some node → timed_out now node = false.
Proof.
  rewrite <- not_true_iff_false, sweep_changed_true. split.
  - intros H id node Hn. apply not_true_iff_false. intros Ht. apply H. eauto.
  - intros H (id & node & Hn & Ht). rewrite (H _ _ Hn) in Ht. done.
Qed.

(** The guard of the first loop, in the words of the registry. *)
Lemma timed_out_spec now node :
  owner_ok node →
  timed_out now node = true ↔
  owner node = None ∧ online node = true ∧ (now - lastSeen node > timeout_ms)%Z.
Proof.
  intros Hok. unfold timed_out.
  rewrite !andb_true_iff, negb_true_iff, (truthy_owner_ok _ Hok), Z.ltb_lt.
  split; intros H; destruct_and!; split_and!; done || lia.
Qed.

(** C7. For a node record of a reachable registry, one run of the sweep
    sets [online] to [false] and changes nothing else when the record has
    [owner == null], is online and has [now - lastSeen > 30000]; in every
    other case the record is left as it is.  So exactly those nodes go from
    online to offline, and a node with an owner (a personal node) is never
    marked offline, however old its [lastSeen]. *)
Theorem sweep_marks_exactly_timed_out (now : Z) (st : State) (id : string)
    (node : Node) :
  reachable st →
  registeredNodes st !! id = Some node →
  ∃ node', registeredNodes (sweep now st) !! id = Some node' ∧
    (owner node = None ∧ online node = true ∧ (now - lastSeen node > 30000)%Z →
       node' = set_online node false) ∧
    (¬ (owner node = None ∧ online node = true ∧ (now - lastSeen node > 30000)%Z) →
       node' = node) ∧
    (online node = true ∧ online node' = false ↔
       owner node = None ∧ online node = true ∧ (now - lastSeen node > 30000)%Z) ∧
    (owner node ≠ None → node' = node).
Proof.
  intros Hreach Hn.
  pose proof (reachable_owners_wf _ Hreach _ _ Hn) as Hok. cbn in Hok.
  pose proof (timed_out_spec now node Hok) as Hspec.
  unfold timeout_ms in Hspec.
  exists (sweep_node now node). rewrite sweep_nodes, lookup_fmap, Hn.
  split; [done|]. unfold sweep_node.
  destruct (timed_out now node) eqn:Ht.
  - assert (Hc : owner node = None ∧ online node = true ∧
                    (now - lastSeen node > 30000)%Z) by by apply Hspec.
    split_and!; try done.
    + cbn. split; [done|]. intros _. split; [|done]. by destruct Hc as (_ & ? & _).
    + intros Ho. by destruct Hc as [? _].
  - assert (Hnc : ¬ (owner node = None ∧ online node = true ∧
                     (now - lastSeen node > 30000)%Z)).
    { intros Hc. apply Hspec in Hc. congruence. }
    split_and!; try done.
    split; [|done]. intros [H1 H2]. congruence.
Qed.

(** ** The sweep, second loop *)

Definition every_entry_has_online_owner (st : State) : Prop :=
  ∀ filename fi, fileLocations st !! filename = Some fi →
    ∃ o node, o ∈ owners fi ∧ registeredNodes st !! o = Some node ∧
              online node = true.

Lemma hasOnlineOwner_true nodes fi :
  hasOnlineOwner nodes fi = true ↔
  ∃ o node, o ∈ owners fi ∧ nodes !! o = Some node ∧ online node = true.
Proof.
  unfold hasOnlineOwner. rewrite existsb_exists. split.
  - intros (o & Hin%list_elem_of_In & H).
    destruct (nodes !! o) as [node|] eqn:Hn; [|done]. by exists o, node.
  - intros (o & node & Hin%list_elem_of_In & Hn & Hon). exists o.
    by rewrite Hn.
Qed.

Lemma sweep_unchanged now st :
  sweep_changed now (registeredNodes st) = false → sweep now st = st.
Proof.
  intros Hc. unfold sweep. rewrite Hc.
  destruct st as [nodes files users]. cbn in *. f_equal.
  apply map_eq. intros i. rewrite lookup_fmap.
  destruct (nodes !! i) as [node|] eqn:Hn; [|done]. cbn. f_equal.
  unfold sweep_node.
  by rewrite (proj1 (sweep_changed_false now nodes) Hc _ _ Hn).
Qed.

(** C2 (as amended). A run of the sweep that marks at least one node
    offline leaves only index entries with an online owner: an entry
    survives exactly when one of its owners is online after the first loop,
    and the others are deleted.  A run that marks no node offline changes
    neither the registry nor the index. *)
Theorem sweep_evicts_when_a_node_timed_out (now : Z) (st : State) :
  (sweep_changed now (registeredNodes st) = true ↔
     ∃ id node, registeredNodes st !! id = Some node ∧
                timed_out now node = true) ∧
  (sweep_changed now (registeredNodes st) = true →
     every_entry_has_online_owner (sweep now st) ∧
     ∀ filename fi,
       fileLocations (sweep now st) !! filename = Some fi ↔
       fileLocations st !! filename = Some fi ∧
       hasOnlineOwner (registeredNodes (sweep now st)) fi = true) ∧
  (sweep_changed now (registeredNodes st) = false → sweep now st = st).
Proof.
  split_and!.
  - apply sweep_changed_true.
  - intros Hc.
    assert (Hfiles : ∀ filename fi,
              fileLocations (sweep now st) !! filename = Some fi ↔
              fileLocations st !! filename = Some fi ∧
              hasOnlineOwner (registeredNodes (sweep now st)) fi = true).
    { intros filename fi. rewrite sweep_nodes. unfold sweep. rewrite Hc.
      cbn [fileLocations]. by rewrite map_lookup_filter_Some. }
    split; [|done].
    intros filename fi [_ Hon]%Hfiles. by apply hasOnlineOwner_true.
  - apply sweep_unchanged.
Qed.

(** The run behind the counterexample: node [A] registers, misses its
    heartbeats and is marked offline; it then announces a file; the next
    sweep finds no node to mark and leaves the entry in place. *)
Definition stale_run : list Op :=
  [ Register "A" "10.0.0.1" (Some 5001%N) None None 0;
    Sweep 31000;
    Announce "A" "report.pdf" 3145728 32000 ].

(** C2 (as stated) fails: there is a reachable state from which the sweep
    returns with an index entry none of whose owners is online. *)
Lemma sweep_can_leave_entry_without_online_owner :
  ∃ st now, reachable st ∧ ¬ every_entry_has_online_owner (sweep now st).
Proof.
  exists (run stale_run (initial None)), 41000%Z. split.
  - apply reachable_run. constructor.
  - intros H.
    destruct (H "report.pdf" (mkFileInfo ["A"] 32000 3145728 false))
      as (o & node & Ho & Hn & Hon).
    { by vm_compute. }
    cbn in Ho. apply list_elem_of_singleton in Ho. subst o.
    vm_compute in Hn. injection Hn as <-. discriminate Hon.
Qed.

(** ** The index invariant *)

Definition no_empty_owner_set (st : State) : Prop :=
  map_Forall (λ _ fi, owners fi ≠ []) (fileLocations st).

Lemma exec_no_empty_owner_set op st :
  no_empty_owner_set st → no_empty_owner_set (exec op st).
Proof.
  intros H. unfold no_empty_owner_set in *.
  destruct op as [id addr prt own sto now|id now|id f sz now|f|id f sz|now]; cbn.
  - done.
  - by destruct (registeredNodes st !! id).
  - destruct (registeredNodes st !! id) as [node|] eqn:Hn.
    + rewrite announce_files by (rewrite Hn; eauto).
      apply map_Forall_insert_2; [|done]. cbn. apply Set_add_not_nil.
    + by rewrite (announce_unregistered _ _ _ _ _ Hn).
  - done.
  - unfold deannounce.
    destruct (registeredNodes st !! id) as [node|] eqn:Hn; [|done].
    destruct (fileLocations st !! f) as [fi|]; [|done]. cbn zeta.
    destruct (Set_has id (owners fi)); [|done]. cbn.
    destruct (decide (length (Set_delete id (owners fi)) = 0)) as [E|E].
    + by apply map_Forall_delete.
    + apply map_Forall_insert_2; [|done]. cbn. intros E'. by rewrite E' in E.
  - unfold sweep. destruct (sweep_changed now (registeredNodes st)); [|done].
    cbn. intros filename fi [Hf _]%map_lookup_filter_Some. exact (H _ _ Hf).
Qed.

(** Operations taken whole keep the index free of empty owner sets: the
    empty index has none, every operation of [exec] (register, heartbeat,
    announce, locate, a deannounce run from its first line to its last, the
    sweep) keeps it so, hence every state of [reachable] has it; and a
    [deannounce] that removes the last owner deletes the entry.  This is
    the invariant of runs in which no deannounce is suspended at an
    [await]. *)
Theorem index_has_no_empty_owner_set :
  (∀ users, no_empty_owner_set (initial users)) ∧
  (∀ op st, no_empty_owner_set st → no_empty_owner_set (exec op st)) ∧
  (∀ st, reachable st → no_empty_owner_set st) ∧
  (∀ id filename sz st fi,
     is_Some (registeredNodes st !! id) →
     fileLocations st !! filename = Some fi → owners fi = [id] →
     fileLocations (deannounce id filename sz st).2 !! filename = None).
Proof.
  split_and!.
  - intros users. apply map_Forall_empty.
  - apply exec_no_empty_owner_set.
  - induction 1 as [users|op st _ IH].
    + apply map_Forall_empty.
    + by apply exec_no_empty_owner_set.
  - intros id filename sz st fi [node Hn] Hf Ho. unfold deannounce.
    rewrite Hn, Hf. cbn zeta. rewrite Ho.
    rewrite (proj2 (Set_has_true id [id])) by (apply elem_of_cons; by left).
    cbn [set_owners owners]. rewrite Set_delete_singleton. cbn.
    apply lookup_delete_eq.
Qed.

(** ** deannounce across its awaits *)

(** The three steps of the handler, taken one after the other with no other
    handler in between, are [deannounce]: the reply and the state are the
    same. *)
Lemma deannounce_in_one_go id filename sz st :
  let p1 := deannounce_begin id filename sz st in
  let p2 := resume (held_in_index filename (state_of p1)) p1 in
  let p3 := resume (held_in_index filename (state_of p2)) p2 in
  p3 = Finished (deannounce id filename sz st).1 (deannounce id filename sz st).2.
Proof.
  unfold deannounce_begin, deannounce.
  destruct (registeredNodes st !! id) as [node|]; [|done].
  destruct (fileLocations st !! filename) as [fi|]; [|done]. cbn zeta.
  destruct (Set_has id (owners fi)); [|done].
  set (held := Set_delete id (owners fi)).
  assert (Hend : ∀ nodes0 users0 nodes users,
    deannounce_end id filename
      (held_in_index filename
         (mkState nodes0 (<[filename := set_owners fi held]> (fileLocations st)) users0))
      (mkState nodes (<[filename := set_owners fi held]> (fileLocations st)) users)
    = Finished (ok ("File " +:+ filename +:+ " deannounced for " +:+ id))
        (mkState nodes
           (if decide (length held = 0)
            then delete filename (fileLocations st)
            else <[filename := set_owners fi held]> (fileLocations st))
           users)).
  { intros nodes0 users0 nodes users. unfold deannounce_end, held_in_index, owners_of.
    cbn [fileLocations registeredNodes usersJson].
    rewrite lookup_insert_eq.
    cbn [fmap option_fmap option_map default from_option Datatypes.id owners set_owners].
    destruct (decide (length held = 0)); [|done].
    by rewrite delete_insert_eq. }
  assert (Hheld : ∀ nodes users,
    deannounce_end id filename held
      (mkState nodes (<[filename := set_owners fi held]> (fileLocations st)) users)
    = deannounce_end id filename
        (held_in_index filename
           (mkState nodes (<[filename := set_owners fi held]> (fileLocations st)) users))
        (mkState nodes (<[filename := set_owners fi held]> (fileLocations st)) users)).
  { intros nodes users. unfold held_in_index, owners_of.
    cbn [fileLocations]. by rewrite lookup_insert_eq. }
  cbn [owners set_owners fst snd]. fold held.
  destruct (sz =? 0)%N; cbn [negb].
  { by rewrite Hheld, Hend. }
  destruct node as [a p on ls [o|] sto]; cbn [owner update_users].
  2:{ by rewrite Hheld, Hend. }
  destruct (truthy (Some o)).
  2:{ rewrite Hheld, Hend. by destruct (usersJson st). }
  destruct (usersJson st) as [tbl|];
    cbn [resume state_of deannounce_read usersJson s_owner s_size s_id s_filename].
  2:{ by rewrite Hend. }
  destruct (tbl !! o) as [u|]; cbn [resume state_of].
  2:{ by rewrite Hend. }
  unfold deannounce_written.
  cbn [registeredNodes fileLocations s_id s_filename].
  by rewrite Hend.
Qed.

(** A deannounce that reaches no [await] (the caller is not an owner of the
    file, or [size] is falsy, or the node has no owner) is the whole
    handler, and keeps the index free of empty owner sets. *)
Lemma deannounce_not_suspended id filename sz st r st' :
  deannounce_begin id filename sz st = Finished r st' →
  deannounce id filename sz st = (r, st') ∧
  (no_empty_owner_set st → no_empty_owner_set st').
Proof.
  intros Hb. pose proof (deannounce_in_one_go id filename sz st) as H.
  cbn zeta in H. rewrite Hb in H. cbn [resume state_of] in H.
  injection H as Hr Hst.
  split.
  - rewrite Hr, Hst. by destruct (deannounce id filename sz st).
  - intros Hinv. rewrite Hst.
    exact (exec_no_empty_owner_set (Deannounce id filename sz) st Hinv).
Qed.

(** A handler that is suspended has taken its caller out of the owner set
    and left the entry in the index, whatever is left of the set. *)
Lemma deannounce_begin_suspends id filename sz st node o fi :
  registeredNodes st !! id = Some node →
  owner node = Some o → o ≠ "" →
  fileLocations st !! filename = Some fi → id ∈ owners fi → sz ≠ 0%N →
  ∃ st1,
    deannounce_begin id filename sz st
      = AwaitRead (mkSuspended id filename sz o) st1 ∧
    fileLocations st1
      = <[filename := set_owners fi (Set_delete id (owners fi))]> (fileLocations st) ∧
    usersJson st1 = usersJson st.
Proof.
  intros Hn Ho Hne Hf Hin Hsz. unfold deannounce_begin. rewrite Hn, Hf.
  rewrite (proj2 (Set_has_true _ _) Hin).
  apply N.eqb_neq in Hsz. rewrite Hsz. cbn [negb]. rewrite Ho.
  cbn [truthy]. rewrite bool_decide_eq_false_2 by done. cbn [negb].
  eexists. split_and!; reflexivity.
Qed.

(** A personal node [P] owns [f.bin] alone; [Q] is a second node. *)
Definition sole_personal_owner : State :=
  run [ Register "P" "10.0.0.1" (Some 5001%N) (Some "u@x.org") None 0;
        Register "Q" "10.0.0.2" (Some 5002%N) None None 0;
        Announce "P" "f.bin" 100 1000 ]
      (initial (Some {[ "u@x.org" := 0%N ]})).

(** [P]'s deannounce of [f.bin] has run to its first [await]. *)
Definition P_suspended : Suspended := mkSuspended "P" "f.bin" 100 "u@x.org".

Definition mid_deannounce : State :=
  state_of (deannounce_begin "P" "f.bin" 100 sole_personal_owner).

(** [Q]'s heartbeat has been answered meanwhile. *)
Definition heartbeat_meanwhile : State := (heartbeat "Q" 2000 mid_deannounce).2.

(** [P]'s handler is resumed after the read, and after the write; its
    [fileInfo] is still the entry of the index. *)
Definition resumed_once : Progress :=
  resume (held_in_index "f.bin" heartbeat_meanwhile)
         (AwaitRead P_suspended heartbeat_meanwhile).

Definition resumed_twice : Progress :=
  resume (held_in_index "f.bin" (state_of resumed_once)) resumed_once.

(** C9.  The index invariant fails across the [await]s of deannounce.  A
    deannounce by a personal node with a truthy size takes the caller out
    of the owner set (l.171), suspends at [await fs.readFile] (l.183) and
    deletes an entry without owners only after it has been resumed (l.197).
    When the caller was the only owner, the index has the entry with an
    empty owner set for as long as the handler is suspended, and a
    heartbeat that arrives meanwhile completes in such a state.  So it is
    for [P] and [f.bin] above: the state before the deannounce is reachable
    and has no empty owner set, [Q]'s heartbeat is answered while [P]'s
    deannounce is suspended, and the index then has [f.bin] with no owner;
    it still has it so when the handler waits for the write, and the entry
    goes when the handler is resumed for the last time. *)
Theorem suspended_deannounce_leaves_empty_owner_set :
  (∀ id filename sz st node o fi,
     registeredNodes st !! id = Some node →
     owner node = Some o → o ≠ "" →
     fileLocations st !! filename = Some fi → owners fi = [id] → sz ≠ 0%N →
     ∃ k st1,
       deannounce_begin id filename sz st = AwaitRead k st1 ∧
       owners_of st1 filename = Some [] ∧
       ∀ id' now,
         owners_of (heartbeat id' now st1).2 filename = Some [] ∧
         ¬ no_empty_owner_set (heartbeat id' now st1).2) ∧
  (reachable sole_personal_owner ∧
   no_empty_owner_set sole_personal_owner ∧
   owners_of sole_personal_owner "f.bin" = Some ["P"] ∧
   deannounce_begin "P" "f.bin" 100 sole_personal_owner
     = AwaitRead P_suspended mid_deannounce ∧
   (heartbeat "Q" 2000 mid_deannounce).1 = ok "Heartbeat received" ∧
   reachable_suspending heartbeat_meanwhile ∧
   owners_of heartbeat_meanwhile "f.bin" = Some [] ∧
   ¬ no_empty_owner_set heartbeat_meanwhile) ∧
  (resumed_once
     = AwaitWrite P_suspended {[ "u@x.org" := 0%N ]} heartbeat_meanwhile ∧
   resumed_twice
     = Finished (ok "File f.bin deannounced for P") (state_of resumed_twice) ∧
   owners_of (state_of resumed_twice) "f.bin" = None ∧
   no_empty_owner_set (state_of resumed_twice)).
Proof.
  assert (Hheart : ∀ id' now st1,
            fileLocations (heartbeat id' now st1).2 = fileLocations st1).
  { intros id' now st1. unfold heartbeat. cbn [snd].
    by destruct (registeredNodes st1 !! id'). }
  split_and!.
  - intros id filename sz st node o fi Hn Ho Hne Hf Hfi Hsz.
    destruct (deannounce_begin_suspends id filename sz st node o fi)
      as (st1 & Hb & Hfiles & _); try done.
    { rewrite Hfi. apply elem_of_cons. by left. }
    assert (Hown : owners_of st1 filename = Some []).
    { unfold owners_of. rewrite Hfiles, lookup_insert_eq, Hfi.
      cbn [fmap option_fmap option_map owners set_owners].
      by rewrite Set_delete_singleton. }
    exists (mkSuspended id filename sz o), st1. split_and!; [done..|].
    intros id' now.
    assert (Hown' : owners_of (heartbeat id' now st1).2 filename = Some []).
    { unfold owners_of. rewrite (Hheart id' now st1). exact Hown. }
    split; [done|].
    intros Hinv. unfold owners_of in Hown'.
    destruct (fileLocations (heartbeat id' now st1).2 !! filename)
      as [fi'|] eqn:E; [|done].
    injection Hown' as Hown'. exact (Hinv filename fi' E Hown').
  - apply reachable_run. constructor.
  - assert (Hr : reachable sole_personal_owner)
      by (apply reachable_run; constructor).
    induction Hr as [users|op st _ IH].
    + apply map_Forall_empty.
    + by apply exec_no_empty_owner_set.
  - by vm_compute.
  - by vm_compute.
  - done.
  - apply suspending_step with (op := Heartbeat "Q" 2000).
    apply suspending_await with (id := "P") (filename := "f.bin") (sz := 100%N)
                                (st := sole_personal_owner) (k := P_suspended).
    + assert (Hr : ∀ ops st, reachable_suspending st → reachable_suspending (run ops st)).
      { intros ops. induction ops as [|op ops IH]; intros st Hst; [done|].
        cbn. apply IH. by constructor. }
      unfold sole_personal_owner. apply Hr. constructor.
    + by vm_compute.
  - by vm_compute.
  - intros Hinv.
    assert (E : fileLocations heartbeat_meanwhile !! "f.bin"
                = Some (mkFileInfo [] 1000 100 false)) by (by vm_compute).
    by apply (Hinv _ _ E).
  - by vm_compute.
  - by vm_compute.
  - by vm_compute.
  - assert (E : fileLocations (state_of resumed_twice) = ∅) by (by vm_compute).
    unfold no_empty_owner_set. rewrite E. apply map_Forall_empty.
Qed.

(** What else the suspension leads to.  While [P]'s handler is suspended,
    the sweep marks [Q] offline and so removes the entry without owners; a
    node [R] registers and announces [f.bin], which makes a new entry owned
    by [R].  The handler still refers to the removed object, whose owner set
    is empty, and [fileLocations.delete(filename)] goes by name: resumed, it
    deletes [R]'s entry.  [R] is online and is charged for the file, and the
    index no longer has it. *)
Lemma resumed_deannounce_deletes_newer_entry :
  let st2 := run [ Sweep 31000;
                   Register "R" "10.0.0.3" (Some 5003%N) None None 31001;
                   Announce "R" "f.bin" 50 31002 ] mid_deannounce in
  let p' := resume [] (AwaitRead P_suspended st2) in
  let p'' := resume [] p' in
  owners_of mid_deannounce "f.bin" = Some [] ∧
  owners_of (sweep 31000 mid_deannounce) "f.bin" = None ∧
  owners_of st2 "f.bin" = Some ["R"] ∧
  locations "f.bin" st2 = [mkLocation "R" "10.0.0.3" 5003] ∧
  p'' = Finished (ok "File f.bin deannounced for P") (state_of p'') ∧
  owners_of (state_of p'') "f.bin" = None ∧
  locations "f.bin" (state_of p'') = [] ∧
  used_of (state_of p'') "R" = Some 50%N.
Proof.
  cbn zeta. split_and!; by vm_compute.
Qed.

(** ** announce does not touch liveness *)

(** C10. A successful [announce] leaves the announcing node's [online] and
    [lastSeen] (and its address, port and owner) as they were, and every
    other node record untouched.  In particular a registered node that is
    marked offline can announce an untracked file: the call succeeds, the
    node stays offline, and the index gets an entry whose only owner is
    that offline node, so [locate] answers with no location for it. *)
Theorem announce_keeps_liveness (id filename : string) (sz : N) (now : Z)
    (st : State) (node : Node) :
  registeredNodes st !! id = Some node →
  let st' := (announce id filename sz now st).2 in
  success (announce id filename sz now st).1 = true ∧
  (∃ node', registeredNodes st' !! id = Some node' ∧
     online node' = online node ∧ lastSeen node' = lastSeen node ∧
     address node' = address node ∧ port node' = port node ∧
     owner node' = owner node) ∧
  (∀ other, other ≠ id →
     registeredNodes st' !! other = registeredNodes st !! other) ∧
  (online node = false → fileLocations st !! filename = None →
     owners_of st' filename = Some [id] ∧
     (∃ node', registeredNodes st' !! id = Some node' ∧ online node' = false) ∧
     ¬ every_entry_has_online_owner st' ∧
     locations filename st' = []).
Proof.
  intros Hn st'.
  assert (Hs : is_Some (registeredNodes st !! id)) by (rewrite Hn; eauto).
  assert (Hnode : ∃ node', registeredNodes st' !! id = Some node' ∧
     online node' = online node ∧ lastSeen node' = lastSeen node ∧
     address node' = address node ∧ port node' = port node ∧
     owner node' = owner node).
  { subst st'. rewrite (announce_nodes _ _ _ _ _ _ Hn).
    destruct (negb _ && negb _).
    - rewrite lookup_insert_eq. eexists. split; [done|]. by cbn.
    - by exists node. }
  split_and!.
  - by rewrite (announce_registered_success _ _ _ _ _ Hs).
  - done.
  - intros other Hne. subst st'. rewrite (announce_nodes _ _ _ _ _ _ Hn).
    destruct (negb _ && negb _); [|done]. by rewrite lookup_insert_ne.
  - intros Hoff Hf.
    destruct Hnode as (node' & Hn' & Hon' & _).
    assert (Ho : owners_of st' filename = Some [id]).
    { subst st'. rewrite (announce_owners _ _ _ _ _ Hs).
      unfold entry_for. by rewrite Hf. }
    split_and!.
    + done.
    + exists node'. split; [done|]. congruence.
    + intros Hall. unfold owners_of in Ho.
      destruct (fileLocations st' !! filename) as [fi|] eqn:Hfi; [|done].
      injection Ho as Ho.
      destruct (Hall _ _ Hfi) as (o & n & Hin & Hno & Hono).
      rewrite Ho in Hin. apply list_elem_of_singleton in Hin. subst o.
      congruence.
    + apply elem_of_nil_inv. intros l Hl.
      apply elem_of_locations in Hl as (fi & n & Hfi & Hin & Hno & Hono & _).
      unfold owners_of in Ho. rewrite Hfi in Ho. injection Ho as Ho.
      rewrite Ho in Hin. apply list_elem_of_singleton in Hin.
      rewrite Hin in Hno. congruence.
Qed.

(** ** The theorems at concrete states *)

(** One storage node, registered at time 0 with no owner. *)
Definition one_node : State :=
  run [ Register "A" "10.0.0.1" (Some 5001%N) None None 0 ] (initial None).

Definition node_A : Node :=
  mkNode "10.0.0.1" 5001 true 0 None (Some (mkStorage 0 0)).

Lemma one_node_A : registeredNodes one_node !! "A" = Some node_A.
Proof. by vm_compute. Defined.

(** C4 at [one_node]: node [A], not yet an owner, announces twice. *)
Lemma announce_twice_counts_once_witness :
  registeredNodes one_node !! "A" = Some node_A ∧
  used_of (announce "A" "report.pdf" 3145728 2000
             (announce "A" "report.pdf" 3145728 1000 one_node).2).2 "A"
  = Some 3145728%N.
Proof.
  split; [exact one_node_A|].
  destruct (announce_twice_counts_once "A" "report.pdf" 3145728 1000 2000
              one_node node_A one_node_A) as (_ & _ & _ & _ & _ & Hfresh & _).
  rewrite Hfresh; [done|]. apply not_elem_of_nil.
Defined.

(** Node [A] has announced the file with 50 bytes: it owns it. *)
Definition one_owner : State :=
  run [ Announce "A" "report.pdf" 50 1000 ] one_node.

(** C4 (as stated) fails for a node that already owns the file: two
    [announce] calls in a row with size 100 leave its used storage at 50
    bytes; they do not add the 100 bytes even once. *)
Lemma announce_twice_by_an_owner_adds_nothing :
  ∃ node, reachable one_owner ∧
    registeredNodes one_owner !! "A" = Some node ∧
    node_used node = 50%N ∧
    used_of (announce "A" "report.pdf" 100 3000
               (announce "A" "report.pdf" 100 2000 one_owner).2).2 "A"
    = Some 50%N ∧
    used_of (announce "A" "report.pdf" 100 3000
               (announce "A" "report.pdf" 100 2000 one_owner).2).2 "A"
    ≠ Some (node_used node + 100)%N.
Proof.
  exists (mkNode "10.0.0.1" 5001 true 0 None (Some (mkStorage 0 50))).
  split_and!.
  - do 2 apply reachable_run. constructor.
  - by vm_compute.
  - done.
  - by vm_compute.
  - intros E. by vm_compute in E.
Qed.


(** C7 at [one_node]: one millisecond past the timeout the node is marked
    offline, at the timeout it is not. *)
Lemma sweep_marks_exactly_timed_out_witness :
  reachable one_node ∧
  registeredNodes one_node !! "A" = Some node_A ∧
  registeredNodes (sweep 30001 one_node) !! "A" = Some (set_online node_A false) ∧
  registeredNodes (sweep 30000 one_node) !! "A" = Some node_A.
Proof.
  assert (Hr : reachable one_node) by (apply reachable_run; constructor).
  split; [exact Hr|]. split; [exact one_node_A|]. split.
  - destruct (sweep_marks_exactly_timed_out 30001 one_node "A" node_A Hr one_node_A)
      as (node' & Hn & Hmark & _).
    rewrite Hn, Hmark; [done|]. by vm_compute.
  - destruct (sweep_marks_exactly_timed_out 30000 one_node "A" node_A Hr one_node_A)
      as (node' & Hn & _ & Hkeep & _).
    rewrite Hn, Hkeep; [done|]. intros (_ & _ & Hlt). by vm_compute in Hlt.
Defined.

(** Node [A] after it has timed out. *)
Definition offline_node : State := sweep 31000 one_node.

(** C10 at [offline_node]: the offline node announces a new file. *)
Lemma announce_keeps_liveness_witness :
  registeredNodes offline_node !! "A" = Some (set_online node_A false) ∧
  success (announce "A" "report.pdf" 3145728 32000 offline_node).1 = true ∧
  owners_of (announce "A" "report.pdf" 3145728 32000 offline_node).2 "report.pdf"
  = Some ["A"] ∧
  locations "report.pdf" (announce "A" "report.pdf" 3145728 32000 offline_node).2
  = [].
Proof.
  assert (Hn : registeredNodes offline_node !! "A" = Some (set_online node_A false))
    by (by vm_compute).
  split; [exact Hn|].
  destruct (announce_keeps_liveness "A" "report.pdf" 3145728 32000
              offline_node _ Hn) as (Hs & _ & _ & Hoff).
  split; [exact Hs|].
  destruct Hoff as (Ho & _ & _ & Hl); [done|by vm_compute|].
  by split.
Defined.

End ControllerSpec.

(* ===================================================================== *)
(** * Properties of the chunk engine                                      *)
(* ===================================================================== *)

Module StorageSpec.
Import Storage.

(** ** The digest against the RFC 1321 test suite *)

Definition bytes_of_string (s : string) : list byte := String.list_byte_of_string s.

Example md5_empty : MD5.md5_hex [] = "d41d8cd98f00b204e9800998ecf8427e".
Proof. by vm_compute. Qed.

Example md5_a : MD5.md5_hex (bytes_of_string "a") = "0cc175b9c0f1b6a831c399e269772661".
Proof. by vm_compute. Qed.

Example md5_abc :
  MD5.md5_hex (bytes_of_string "abc") = "900150983cd24fb0d6963f7d28e17f72".
Proof. by vm_compute. Qed.

Example md5_message_digest :
  MD5.md5_hex (bytes_of_string "message digest") = "f96b697d7cb7938d525a2f31aaf161d0".
Proof. by vm_compute. Qed.

Example md5_alphabet :
  MD5.md5_hex (bytes_of_string "abcdefghijklmnopqrstuvwxyz")
  = "c3fcd3d76192e4007dfb496cca67e13b".
Proof. by vm_compute. Qed.

Example md5_digits :
  MD5.md5_hex (bytes_of_string
    "12345678901234567890123456789012345678901234567890123456789012345678901234567890")
  = "57edf4a22be3c955ac49da2e2107b67a".
Proof. by vm_compute. Qed.

(** ** Chunk ids *)

Lemma digits_then_separator d1 d2 s1 s2 :
  NilEmpty.string_of_uint d1 +:+ "_" +:+ s1 =
  NilEmpty.string_of_uint d2 +:+ "_" +:+ s2 →
  d1 = d2.
Proof.
  revert d2. induction d1 as [|d1 IH|d1 IH|d1 IH|d1 IH|d1 IH|d1 IH|d1 IH|d1 IH|d1 IH|d1 IH];
    intros [|d2|d2|d2|d2|d2|d2|d2|d2|d2|d2]; cbn; intros H;
    try discriminate H; try done;
    injection H as H; f_equal; by apply IH.
Qed.

Lemma decimal_then_separator i j s1 s2 :
  decimal i +:+ "_" +:+ s1 = decimal j +:+ "_" +:+ s2 → i = j.
Proof.
  intros H. apply DecimalN.Unsigned.to_uint_inj.
  by apply digits_then_separator in H.
Qed.

(** Two ids for the same file name agree only on the same index. *)
Lemma chunkId_index_inj name i j h1 h2 :
  chunkId name i h1 = chunkId name j h2 → i = j.
Proof.
  unfold chunkId. intros H. apply (inj (String.app name)) in H.
  cbn in H. injection H as H. by apply decimal_then_separator in H.
Qed.

(** ** The split loop, unrolled *)

(** The indices [i, i+1, ..., i+n-1]. *)
Fixpoint Nseq (i : N) (n : nat) : list N :=
  match n with
  | O => []
  | S n' => i :: Nseq (i + 1) n'
  end.

Lemma elem_of_Nseq j i n : j ∈ Nseq i n ↔ (i ≤ j < i + N.of_nat n)%N.
Proof.
  revert i. induction n as [|n IH]; intros i; cbn [Nseq].
  - rewrite elem_of_nil. lia.
  - rewrite elem_of_cons, IH. lia.
Qed.

Lemma NoDup_Nseq i n : NoDup (Nseq i n).
Proof.
  revert i. induction n as [|n IH]; intros i; cbn [Nseq]; constructor.
  - rewrite elem_of_Nseq. lia.
  - apply IH.
Qed.

Lemma length_Nseq i n : length (Nseq i n) = n.
Proof. revert i. induction n as [|n IH]; intros i; cbn; [done|]. by rewrite IH. Qed.

Lemma lookup_Nseq i n k : k < n → Nseq i n !! k = Some (i + N.of_nat k)%N.
Proof.
  revert i k. induction n as [|n IH]; intros i k Hk; [lia|].
  destruct k as [|k]; cbn.
  - f_equal. lia.
  - rewrite IH by lia. f_equal. lia.
Qed.

(** Chunk [i] of a file: its bytes and its manifest entry. *)
Definition chunk_bytes (sm : StorageManager) (data : list byte) (i : N) : list byte :=
  slice data (i * chunkSize sm)
    (N.min (i * chunkSize sm + chunkSize sm) (N.of_nat (length data))).

Definition chunk_info (sm : StorageManager) (name : string) (data : list byte)
    (i : N) : ChunkInfo :=
  mkChunkInfo i (chunkId name i (MD5.md5_hex (chunk_bytes sm data i)))
    (N.of_nat (length (chunk_bytes sm data i)))
    (MD5.md5_hex (chunk_bytes sm data i)).

Lemma make_chunk_eq sm name data i :
  make_chunk sm name data (N.of_nat (length data)) i =
  (chunk_info sm name data i, chunk_bytes sm data i).
Proof. reflexivity. Qed.

Section Split.
Context (sm : StorageManager) (name : string) (data : list byte).

Definition write_chunk (dir : gmap string (list byte)) (i : N)
    : gmap string (list byte) :=
  <[id (chunk_info sm name data i) := chunk_bytes sm data i]> dir.

Lemma split_loop_unroll n i dir acc :
  split_loop sm name data (N.of_nat (length data)) n i dir acc =
  (foldl write_chunk dir (Nseq i n),
   (acc ++ (chunk_info sm name data <$> Nseq i n))%list).
Proof.
  revert i dir acc. induction n as [|n IH]; intros i dir acc; cbn [split_loop Nseq].
  - cbn. by rewrite app_nil_r.
  - rewrite make_chunk_eq, IH. cbn [foldl fmap list_fmap]. f_equal.
    by rewrite <- app_assoc.
Qed.

Lemma write_chunks_other dir l key :
  (∀ j, j ∈ l → id (chunk_info sm name data j) ≠ key) →
  foldl write_chunk dir l !! key = dir !! key.
Proof.
  revert dir. induction l as [|x l IH]; intros dir H; [done|].
  cbn [foldl]. rewrite IH.
  - unfold write_chunk. apply lookup_insert_ne. apply H. by left.
  - intros j Hj. apply H. by right.
Qed.

Lemma chunk_info_id_inj i j :
  id (chunk_info sm name data i) = id (chunk_info sm name data j) → i = j.
Proof. cbn. apply chunkId_index_inj. Qed.

Lemma write_chunks_lookup dir l j :
  NoDup l → j ∈ l →
  foldl write_chunk dir l !! id (chunk_info sm name data j) =
  Some (chunk_bytes sm data j).
Proof.
  revert dir. induction l as [|x l IH]; intros dir Hnd Hj.
  - by apply elem_of_nil in Hj.
  - apply NoDup_cons in Hnd as [Hx Hnd]. cbn [foldl].
    apply elem_of_cons in Hj as [->|Hj].
    + rewrite write_chunks_other.
      * unfold write_chunk. apply lookup_insert_eq.
      * intros j Hj E. apply chunk_info_id_inj in E. by subst j.
    + by apply IH.
Qed.

End Split.

(** ** How many chunks, and where they lie *)

Lemma ceil_div_bounds a b :
  (0 < b)%N →
  (a ≤ ceil_div a b * b)%N ∧ (∀ i, i < ceil_div a b → i * b < a)%N.
Proof.
  intros Hb. unfold ceil_div.
  pose proof (N.div_mod a b ltac:(lia)) as Hdm.
  pose proof (N.mod_lt a b ltac:(lia)) as Hlt.
  set (q := (a / b)%N) in *. set (r := (a mod b)%N) in *.
  destruct (r =? 0)%N eqn:E.
  - apply N.eqb_eq in E. split; [lia|]. intros i Hi.
    assert ((i + 1) * b ≤ q * b)%N by (apply N.mul_le_mono_r; lia). lia.
  - apply N.eqb_neq in E. split; [lia|]. intros i Hi.
    assert (i * b ≤ q * b)%N by (apply N.mul_le_mono_r; lia). lia.
Qed.

Lemma ceil_div_is_ceiling a b :
  (0 < b)%N →
  ∀ k, (ceil_div a b ≤ k ↔ a ≤ k * b)%N.
Proof.
  intros Hb k. destruct (ceil_div_bounds a b Hb) as [Hup Hlow]. split.
  - intros Hk.
    assert (ceil_div a b * b ≤ k * b)%N by (by apply N.mul_le_mono_r). lia.
  - intros Hk. destruct (decide (ceil_div a b ≤ k)%N) as [|Hn]; [done|].
    specialize (Hlow k ltac:(lia)). lia.
Qed.

Section Chunks.
Context (sm : StorageManager) (data : list byte).
Hypothesis chunkSize_pos : (0 < chunkSize sm)%N.

Let count : N := ceil_div (N.of_nat (length data)) (chunkSize sm).

Lemma chunk_bytes_length i :
  length (chunk_bytes sm data i) =
  N.to_nat (N.min (chunkSize sm) (N.of_nat (length data) - i * chunkSize sm)).
Proof.
  unfold chunk_bytes, slice. rewrite length_take, length_drop. lia.
Qed.

Lemma chunk_bytes_full i :
  (i + 1 < count)%N → N.of_nat (length (chunk_bytes sm data i)) = chunkSize sm.
Proof.
  intros Hi. rewrite chunk_bytes_length.
  destruct (ceil_div_bounds (N.of_nat (length data)) (chunkSize sm) chunkSize_pos)
    as [_ Hlow].
  specialize (Hlow (i + 1)%N Hi). lia.
Qed.

Lemma chunk_bytes_last i :
  (i < count)%N →
  (0 < N.of_nat (length (chunk_bytes sm data i)) ≤ chunkSize sm)%N.
Proof.
  intros Hi. rewrite chunk_bytes_length.
  destruct (ceil_div_bounds (N.of_nat (length data)) (chunkSize sm) chunkSize_pos)
    as [_ Hlow].
  specialize (Hlow i Hi). lia.
Qed.

Lemma drop_same_or_past (l : list byte) (n m : nat) :
  n = m ∨ (length l ≤ n ∧ length l ≤ m)%nat → drop n l = drop m l.
Proof. intros [->|[H1 H2]]; [done|]. by rewrite !drop_ge. Qed.

(** The chunks from [i] on, laid end to end, are the file from byte
    [i * chunkSize] on. *)
Lemma chunks_cover_from n i :
  (N.of_nat n + i = count)%N →
  concat (chunk_bytes sm data <$> Nseq i n) =
  drop (N.to_nat (i * chunkSize sm)) data.
Proof.
  destruct (ceil_div_bounds (N.of_nat (length data)) (chunkSize sm) chunkSize_pos)
    as [Hup Hlow]. fold count in Hup, Hlow.
  revert i. induction n as [|n IH]; intros i Hi; cbn [Nseq fmap list_fmap concat].
  - symmetry. apply drop_ge. nia.
  - rewrite IH by lia. unfold chunk_bytes, slice.
    set (a := N.to_nat (i * chunkSize sm)).
    set (k := N.to_nat (_ - _)).
    rewrite <- (take_drop k (drop a data)) at 2. f_equal.
    rewrite drop_drop. apply drop_same_or_past.
    subst a k. specialize (Hlow i ltac:(lia)). lia.
Qed.

Lemma chunks_cover :
  concat (chunk_bytes sm data <$> Nseq 0 (N.to_nat count)) = data.
Proof. rewrite chunks_cover_from by lia. done. Qed.

(** ** reassembleFile on what splitFile wrote *)

Lemma insert_by_index_head c l :
  (∀ x, head l = Some x → (index c ≤ index x)%N) →
  insert_by_index c l = c :: l.
Proof.
  destruct l as [|x l]; [done|]. intros H. cbn.
  specialize (H x eq_refl). by rewrite (proj2 (N.leb_le _ _) H).
Qed.

Lemma sort_by_index_chunks name i n :
  sort_by_index (chunk_info sm name data <$> Nseq i n) =
  chunk_info sm name data <$> Nseq i n.
Proof.
  revert i. induction n as [|n IH]; intros i; [done|].
  cbn [Nseq fmap list_fmap]. unfold sort_by_index in *. cbn [foldr].
  rewrite IH. apply insert_by_index_head.
  destruct n as [|n]; cbn; [done|]. intros x [= <-]. cbn. lia.
Qed.

(** The buffer after the chunks below [i] have been copied in: the file up
    to [bytesWritten], zeros after. *)
Definition partial_buffer (written : nat) : list byte :=
  (take written data ++ replicate (length data - written) x00)%list.

Lemma buffer_copy_chunk i :
  (i < count)%N →
  buffer_copy (chunk_bytes sm data i)
    (partial_buffer (N.to_nat (i * chunkSize sm))) (N.to_nat (i * chunkSize sm))
  = partial_buffer
      (N.to_nat (i * chunkSize sm + N.of_nat (length (chunk_bytes sm data i)))).
Proof.
  intros Hi.
  destruct (ceil_div_bounds (N.of_nat (length data)) (chunkSize sm) chunkSize_pos)
    as [_ Hlow]. fold count in Hlow. specialize (Hlow i Hi).
  pose proof (chunk_bytes_length i) as Hlen.
  unfold buffer_copy, partial_buffer.
  set (a := N.to_nat (i * chunkSize sm)) in *.
  set (k := length (chunk_bytes sm data i)) in *.
  assert (Ha : (a < length data)%nat) by lia.
  assert (Hk : (a + k ≤ length data)%nat) by lia.
  rewrite length_app, length_take, length_replicate.
  replace (Nat.min k (Nat.min a (length data) + (length data - a) - a)) with k by lia.
  rewrite take_app_length' by (rewrite length_take; lia).
  rewrite (take_ge (chunk_bytes sm data i)) by (fold k; lia).
  rewrite drop_app_ge by (rewrite length_take; lia).
  rewrite length_take, drop_replicate.
  replace (N.to_nat (i * chunkSize sm + N.of_nat k)) with (a + k) by lia.
  rewrite <- take_take_drop, <- app_assoc. f_equal.
  unfold chunk_bytes at 1, slice. fold a.
  f_equal.
  - f_equal. lia.
  - f_equal. lia.
Qed.

Lemma partial_buffer_all : partial_buffer (length data) = data.
Proof.
  unfold partial_buffer. rewrite take_ge by done.
  rewrite Nat.sub_diag. cbn. by rewrite app_nil_r.
Qed.

Lemma reassemble_loop_chunks name dir n i :
  (N.of_nat n + i = count)%N →
  (∀ j, j ∈ Nseq i n →
     dir !! id (chunk_info sm name data j) = Some (chunk_bytes sm data j)) →
  reassemble_loop dir (chunk_info sm name data <$> Nseq i n)
    (partial_buffer (N.to_nat (N.min (i * chunkSize sm) (N.of_nat (length data)))))
    (N.min (i * chunkSize sm) (N.of_nat (length data)))
  = Ok data.
Proof.
  destruct (ceil_div_bounds (N.of_nat (length data)) (chunkSize sm) chunkSize_pos)
    as [Hup Hlow]. fold count in Hup, Hlow.
  revert i. induction n as [|n IH]; intros i Hi Hdir;
    cbn [Nseq fmap list_fmap reassemble_loop].
  - replace (N.to_nat _) with (length data) by nia.
    by rewrite partial_buffer_all.
  - rewrite (Hdir i) by (apply elem_of_Nseq; lia).
    cbn [hash chunk_info]. rewrite decide_True by done.
    specialize (Hlow i ltac:(lia)) as Hi'.
    replace (N.min (i * chunkSize sm) (N.of_nat (length data)))
      with (i * chunkSize sm)%N by lia.
    rewrite buffer_copy_chunk by (fold count; lia).
    pose proof (chunk_bytes_length i) as Hlen.
    replace (i * chunkSize sm + N.of_nat (length (chunk_bytes sm data i)))%N
      with (N.min ((i + 1) * chunkSize sm) (N.of_nat (length data))) by lia.
    apply IH; [lia|]. intros j Hj. apply Hdir. apply elem_of_Nseq.
    apply elem_of_Nseq in Hj. lia.
Qed.

End Chunks.

(** ** A changed chunk *)

Lemma elem_of_insert_by_index c x l :
  x ∈ insert_by_index c l ↔ x = c ∨ x ∈ l.
Proof.
  induction l as [|y l IH]; cbn.
  - rewrite list_elem_of_singleton, elem_of_nil. tauto.
  - destruct (index c <=? index y)%N.
    + by rewrite elem_of_cons.
    + rewrite !elem_of_cons, IH. tauto.
Qed.

Lemma elem_of_sort_by_index x l : x ∈ sort_by_index l ↔ x ∈ l.
Proof.
  unfold sort_by_index. induction l as [|y l IH]; cbn; [done|].
  rewrite elem_of_insert_by_index, elem_of_cons, IH. done.
Qed.

(** When every chunk file is there and one of them no longer has the
    digest its manifest entry records, the loop throws the integrity
    error at such a chunk. *)
Lemma reassemble_loop_mismatch dir infos buf written :
  (∀ c, c ∈ infos → is_Some (dir !! id c)) →
  (∃ c b, c ∈ infos ∧ dir !! id c = Some b ∧ MD5.md5_hex b ≠ hash c) →
  ∃ c b, c ∈ infos ∧ dir !! id c = Some b ∧ MD5.md5_hex b ≠ hash c ∧
    reassemble_loop dir infos buf written = Throw (ChunkIntegrityError (index c)).
Proof.
  revert buf written. induction infos as [|x infos IH]; intros buf written Hall Hbad.
  - destruct Hbad as (c & b & Hc & _). by apply elem_of_nil in Hc.
  - cbn [reassemble_loop].
    destruct (Hall x) as [bx Hx]; [by left|]. rewrite Hx.
    destruct (decide (MD5.md5_hex bx = hash x)) as [Heq|Hne].
    + destruct (IH (buffer_copy bx buf (N.to_nat written))
                  (written + N.of_nat (length bx))%N)
        as (c & b & Hc & Hb & Hne & Hthrow).
      * intros c Hc. apply Hall. by right.
      * destruct Hbad as (c & b & Hc & Hb & Hne).
        apply elem_of_cons in Hc as [->|Hc]; [congruence|]. by exists c, b.
      * exists c, b. split_and!; try done. by right.
    + exists x, bx. split_and!; try done. by left.
Qed.

(** The same for the whole method, on any manifest: nothing is written. *)
Lemma reassembleFile_mismatch sm name outputPath now disk m :
  metadataDir disk !! metadataName name = Some m →
  (∀ c, c ∈ chunks m → is_Some (chunksDir disk !! id c)) →
  (∃ c b, c ∈ chunks m ∧ chunksDir disk !! id c = Some b ∧
          MD5.md5_hex b ≠ hash c) →
  ∃ c b, c ∈ chunks m ∧ chunksDir disk !! id c = Some b ∧
    MD5.md5_hex b ≠ hash c ∧
    reassembleFile sm name outputPath now disk =
    (Throw (ChunkIntegrityError (index c)), disk).
Proof.
  intros Hm Hall Hbad. unfold reassembleFile. rewrite Hm.
  destruct (reassemble_loop_mismatch (chunksDir disk)
              (sort_by_index (chunks m))
              (replicate (N.to_nat (originalSize m)) x00) 0%N)
    as (c & b & Hc & Hb & Hne & Hthrow).
  - intros c Hc. apply Hall. by apply (proj1 (elem_of_sort_by_index _ _)).
  - destruct Hbad as (c & b & Hc & Hb & Hne). exists c, b.
    split_and!; try done. by apply (proj2 (elem_of_sort_by_index _ _)).
  - exists c, b. apply (proj1 (elem_of_sort_by_index _ _)) in Hc.
    split_and!; try done. by rewrite Hthrow.
Qed.

(** ** splitFile and reassembleFile, end to end *)

Definition split_manifest (sm : StorageManager) (name : string)
    (data : list byte) (now : Z) : Manifest :=
  let count := ceil_div (N.of_nat (length data)) (chunkSize sm) in
  mkManifest name (N.of_nat (length data)) (chunkSize sm) count
    (chunk_info sm name data <$> Nseq 0 (N.to_nat count)) now false None.

Definition split_disk (sm : StorageManager) (name : string)
    (data : list byte) (now : Z) (disk : Disk) : Disk :=
  let count := ceil_div (N.of_nat (length data)) (chunkSize sm) in
  mkDisk (foldl (write_chunk sm name data) (chunksDir disk) (Nseq 0 (N.to_nat count)))
         (<[metadataName name := split_manifest sm name data now]> (metadataDir disk))
         (files disk).

Lemma splitFile_eq sm filePath name now disk data :
  files disk !! filePath = Some data →
  splitFile sm filePath name now disk =
  (Ok (split_manifest sm name data now), split_disk sm name data now disk).
Proof.
  intros Hf. unfold splitFile. rewrite Hf. cbn zeta.
  rewrite split_loop_unroll. done.
Qed.

Lemma elem_of_split_chunks sm name data now c :
  c ∈ chunks (split_manifest sm name data now) ↔
  ∃ j, (j < ceil_div (N.of_nat (length data)) (chunkSize sm))%N ∧
       c = chunk_info sm name data j.
Proof.
  cbn. rewrite list_elem_of_fmap. split.
  - intros (j & -> & Hj%elem_of_Nseq). exists j. split; [lia|done].
  - intros (j & Hj & ->). exists j. split; [done|]. apply elem_of_Nseq. lia.
Qed.

Lemma split_disk_chunk sm name data now disk j :
  (j < ceil_div (N.of_nat (length data)) (chunkSize sm))%N →
  chunksDir (split_disk sm name data now disk) !! id (chunk_info sm name data j)
  = Some (chunk_bytes sm data j).
Proof.
  intros Hj. cbn. apply write_chunks_lookup; [apply NoDup_Nseq|].
  apply elem_of_Nseq. lia.
Qed.

Lemma reassemble_after_split sm name outputPath now now' disk data :
  (0 < chunkSize sm)%N →
  ∃ disk2,
    reassembleFile sm name outputPath now' (split_disk sm name data now disk)
    = (Ok outputPath, disk2) ∧
    files disk2 !! outputPath = Some data.
Proof.
  intros Hpos. unfold reassembleFile.
  cbn [metadataDir split_disk]. rewrite lookup_insert_eq.
  cbn [chunks split_manifest originalSize]. rewrite sort_by_index_chunks.
  pose proof (reassemble_loop_chunks sm data Hpos name
                (chunksDir (split_disk sm name data now disk))
                (N.to_nat (ceil_div (N.of_nat (length data)) (chunkSize sm)))
                0%N ltac:(lia)) as Hloop.
  replace (N.to_nat (N.min (0 * chunkSize sm) (N.of_nat (length data)))) with 0%nat
    in Hloop by lia.
  replace (N.min (0 * chunkSize sm) (N.of_nat (length data))) with 0%N
    in Hloop by lia.
  unfold partial_buffer in Hloop. rewrite take_0, Nat.sub_0_r in Hloop.
  cbn [app] in Hloop. rewrite Nat2N.id, Hloop.
  - eexists. split; [done|]. cbn. apply lookup_insert_eq.
  - intros j Hj%elem_of_Nseq. apply split_disk_chunk. lia.
  - done.
Qed.

(** C8. For a file of [S] bytes and a positive chunk size, [splitFile]
    succeeds and its manifest lists exactly [ceil(S / chunkSize)] chunks
    (the least [k] with [S <= k * chunkSize]), numbered 0, 1, ... in order.
    Chunk [i] is persisted under its id with the bytes
    [data[i * chunkSize .. min((i + 1) * chunkSize, S))]; the chunks laid
    end to end are the file; every chunk but the last has [chunkSize]
    bytes and the last has between 1 and [chunkSize]; each id is
    [chunkId name index hash] with [hash] the digest of the chunk's bytes,
    so a second split of the same content under the same name, from any
    path, at any time, on any disk, lists the same chunks with the same
    ids.  A file of 3,145,728 bytes with chunk size 1,048,576 gives 3
    chunks. *)
Theorem splitFile_chunks (sm : StorageManager) (filePath name : string)
    (now : Z) (disk : Disk) (data : list byte) :
  (0 < chunkSize sm)%N →
  files disk !! filePath = Some data →
  ∃ m disk',
    splitFile sm filePath name now disk = (Ok m, disk') ∧
    chunkCount m = ceil_div (N.of_nat (length data)) (chunkSize sm) ∧
    (∀ k, chunkCount m ≤ k ↔ N.of_nat (length data) ≤ k * chunkSize sm)%N ∧
    length (chunks m) = N.to_nat (chunkCount m) ∧
    (∀ (k : nat) c, chunks m !! k = Some c →
       index c = N.of_nat k ∧
       chunksDir disk' !! id c = Some (chunk_bytes sm data (index c)) ∧
       size c = N.of_nat (length (chunk_bytes sm data (index c))) ∧
       hash c = MD5.md5_hex (chunk_bytes sm data (index c)) ∧
       id c = chunkId name (index c) (hash c) ∧
       (index c + 1 < chunkCount m → size c = chunkSize sm)%N ∧
       (0 < size c ≤ chunkSize sm)%N) ∧
    concat ((λ c, chunk_bytes sm data (index c)) <$> chunks m) = data ∧
    (∀ filePath2 now2 disk2, files disk2 !! filePath2 = Some data →
       ∃ m2 disk2', splitFile sm filePath2 name now2 disk2 = (Ok m2, disk2') ∧
                    chunks m2 = chunks m) ∧
    (chunkSize sm = 1048576%N → N.of_nat (length data) = 3145728%N →
       chunkCount m = 3%N ∧ length (chunks m) = 3%nat).
Proof.
  intros Hpos Hf.
  exists (split_manifest sm name data now), (split_disk sm name data now disk).
  set (count := ceil_div (N.of_nat (length data)) (chunkSize sm)).
  assert (Hlen : length (chunks (split_manifest sm name data now)) = N.to_nat count).
  { cbn. by rewrite length_fmap, length_Nseq. }
  split_and!.
  - by apply splitFile_eq.
  - done.
  - apply ceil_div_is_ceiling. done.
  - done.
  - intros k c Hk.
    assert (Hlt : (k < N.to_nat count)%nat).
    { rewrite <- Hlen. by apply lookup_lt_Some in Hk. }
    cbn in Hk. rewrite list_lookup_fmap, lookup_Nseq in Hk by done.
    injection Hk as <-. cbn [index id size hash chunk_info].
    replace (0 + N.of_nat k)%N with (N.of_nat k) by lia.
    split_and!; try done.
    + apply (split_disk_chunk sm name data now disk). fold count. lia.
    + intros Hk. by apply chunk_bytes_full.
    + apply chunk_bytes_last; [done|]. fold count. lia.
    + apply chunk_bytes_last; [done|]. fold count. lia.
  - cbn [chunks split_manifest]. rewrite <- list_fmap_compose.
    exact (chunks_cover sm data Hpos).
  - intros filePath2 now2 disk2 Hf2.
    exists (split_manifest sm name data now2), (split_disk sm name data now2 disk2).
    split; [by apply splitFile_eq|done].
  - intros HC HS. cbn [chunkCount split_manifest] in *.
    assert (E : count = 3%N) by (subst count; rewrite HC, HS; by vm_compute).
    rewrite Hlen, E. done.
Qed.

(** C1 (as amended). For a positive chunk size (the constructor's 1 MiB
    in particular), [splitFile] followed by [reassembleFile] writes an
    output file with the bytes of the original.  If instead, between the
    two, the chunk files are changed so that all are still there and at
    least one no longer has the MD5 digest its manifest entry records (the
    digest of the bytes [splitFile] wrote), [reassembleFile] throws the
    integrity error for such a chunk and leaves the disk as it found it: no
    output file is written. *)
Theorem split_then_reassemble (sm : StorageManager)
    (filePath name outputPath : string) (now now' : Z) (disk : Disk)
    (data : list byte) :
  (0 < chunkSize sm)%N →
  files disk !! filePath = Some data →
  ∃ m disk1,
    splitFile sm filePath name now disk = (Ok m, disk1) ∧
    (∃ disk2,
       reassembleFile sm name outputPath now' disk1 = (Ok outputPath, disk2) ∧
       files disk2 !! outputPath = Some data) ∧
    (∀ c, c ∈ chunks m →
       ∃ original, chunksDir disk1 !! id c = Some original ∧
                   hash c = MD5.md5_hex original) ∧
    (∀ dir',
       (∀ c, c ∈ chunks m → is_Some (dir' !! id c)) →
       (∃ c changed, c ∈ chunks m ∧ dir' !! id c = Some changed ∧
                     MD5.md5_hex changed ≠ hash c) →
       ∃ c changed, c ∈ chunks m ∧ dir' !! id c = Some changed ∧
         MD5.md5_hex changed ≠ hash c ∧
         reassembleFile sm name outputPath now'
           (mkDisk dir' (metadataDir disk1) (files disk1))
         = (Throw (ChunkIntegrityError (index c)),
            mkDisk dir' (metadataDir disk1) (files disk1))).
Proof.
  intros Hpos Hf.
  exists (split_manifest sm name data now), (split_disk sm name data now disk).
  split_and!.
  - by apply splitFile_eq.
  - by apply reassemble_after_split.
  - intros c (j & Hj & ->)%elem_of_split_chunks.
    exists (chunk_bytes sm data j). split; [by apply split_disk_chunk|done].
  - intros dir' Hall Hbad.
    apply (reassembleFile_mismatch sm name outputPath now'
             (mkDisk dir' _ _) (split_manifest sm name data now)); try done.
    cbn. apply lookup_insert_eq.
Qed.

(** ** A changed chunk that the check lets through *)

Definition bytes_of_N (l : list N) : list byte :=
  (λ n, default x00 (Byte.of_N n)) <$> l.

(** Two 128-byte messages with the same MD5 digest (Wang and Yu, 2005). *)
Definition collision_a : list byte := bytes_of_N
  [
    0xd1; 0x31; 0xdd; 0x02; 0xc5; 0xe6; 0xee; 0xc4; 0x69; 0x3d; 0x9a; 0x06; 0x98; 0xaf; 0xf9; 0x5c;
    0x2f; 0xca; 0xb5; 0x87; 0x12; 0x46; 0x7e; 0xab; 0x40; 0x04; 0x58; 0x3e; 0xb8; 0xfb; 0x7f; 0x89;
    0x55; 0xad; 0x34; 0x06; 0x09; 0xf4; 0xb3; 0x02; 0x83; 0xe4; 0x88; 0x83; 0x25; 0x71; 0x41; 0x5a;
    0x08; 0x51; 0x25; 0xe8; 0xf7; 0xcd; 0xc9; 0x9f; 0xd9; 0x1d; 0xbd; 0xf2; 0x80; 0x37; 0x3c; 0x5b;
    0xd8; 0x82; 0x3e; 0x31; 0x56; 0x34; 0x8f; 0x5b; 0xae; 0x6d; 0xac; 0xd4; 0x36; 0xc9; 0x19; 0xc6;
    0xdd; 0x53; 0xe2; 0xb4; 0x87; 0xda; 0x03; 0xfd; 0x02; 0x39; 0x63; 0x06; 0xd2; 0x48; 0xcd; 0xa0;
    0xe9; 0x9f; 0x33; 0x42; 0x0f; 0x57; 0x7e; 0xe8; 0xce; 0x54; 0xb6; 0x70; 0x80; 0xa8; 0x0d; 0x1e;
    0xc6; 0x98; 0x21; 0xbc; 0xb6; 0xa8; 0x83; 0x93; 0x96; 0xf9; 0x65; 0x2b; 0x6f; 0xf7; 0x2a; 0x70 ]%N.

Definition collision_b : list byte := bytes_of_N
  [
    0xd1; 0x31; 0xdd; 0x02; 0xc5; 0xe6; 0xee; 0xc4; 0x69; 0x3d; 0x9a; 0x06; 0x98; 0xaf; 0xf9; 0x5c;
    0x2f; 0xca; 0xb5; 0x07; 0x12; 0x46; 0x7e; 0xab; 0x40; 0x04; 0x58; 0x3e; 0xb8; 0xfb; 0x7f; 0x89;
    0x55; 0xad; 0x34; 0x06; 0x09; 0xf4; 0xb3; 0x02; 0x83; 0xe4; 0x88; 0x83; 0x25; 0xf1; 0x41; 0x5a;
    0x08; 0x51; 0x25; 0xe8; 0xf7; 0xcd; 0xc9; 0x9f; 0xd9; 0x1d; 0xbd; 0x72; 0x80; 0x37; 0x3c; 0x5b;
    0xd8; 0x82; 0x3e; 0x31; 0x56; 0x34; 0x8f; 0x5b; 0xae; 0x6d; 0xac; 0xd4; 0x36; 0xc9; 0x19; 0xc6;
    0xdd; 0x53; 0xe2; 0x34; 0x87; 0xda; 0x03; 0xfd; 0x02; 0x39; 0x63; 0x06; 0xd2; 0x48; 0xcd; 0xa0;
    0xe9; 0x9f; 0x33; 0x42; 0x0f; 0x57; 0x7e; 0xe8; 0xce; 0x54; 0xb6; 0x70; 0x80; 0x28; 0x0d; 0x1e;
    0xc6; 0x98; 0x21; 0xbc; 0xb6; 0xa8; 0x83; 0x93; 0x96; 0xf9; 0x65; 0xab; 0x6f; 0xf7; 0x2a; 0x70 ]%N.

Example collision_same_digest :
  collision_a ≠ collision_b ∧
  MD5.md5_hex collision_a = "79054025255fb1a26e4bc422aef54eb4" ∧
  MD5.md5_hex collision_b = "79054025255fb1a26e4bc422aef54eb4".
Proof.
  split_and!.
  - intros E. by vm_compute in E.
  - by vm_compute.
  - by vm_compute.
Qed.

Definition collision_disk : Disk :=
  mkDisk ∅ ∅ {[ "upload.bin" := collision_a ]}.

(** The disk after the split, with the one chunk file overwritten by the
    other message. *)
Definition collision_changed_disk : Disk :=
  let disk1 :=
    (splitFile (new_StorageManager None) "upload.bin" "report.pdf" 0
       collision_disk).2 in
  mkDisk (<[id (chunk_info (new_StorageManager None) "report.pdf" collision_a 0)
            := collision_b]> (chunksDir disk1))
         (metadataDir disk1) (files disk1).

(** C1 (as stated) fails: a 128-byte file is split with the 1 MiB chunk
    size into one chunk; the persisted bytes of that chunk are replaced by
    different bytes with the same MD5 digest; [reassembleFile] then
    succeeds and writes the changed bytes as the output file. *)
Lemma changed_chunk_can_pass_the_check :
  ∃ m c original,
    splitFile (new_StorageManager None) "upload.bin" "report.pdf" 0 collision_disk
    = (Ok m, (splitFile (new_StorageManager None) "upload.bin" "report.pdf" 0
                collision_disk).2) ∧
    chunks m = [c] ∧
    chunksDir (splitFile (new_StorageManager None) "upload.bin" "report.pdf" 0
                 collision_disk).2 !! id c = Some original ∧
    original = collision_a ∧
    chunksDir collision_changed_disk !! id c = Some collision_b ∧
    collision_b ≠ original ∧
    (reassembleFile (new_StorageManager None) "report.pdf" "out.bin" 1
       collision_changed_disk).1 = Ok "out.bin" ∧
    files (reassembleFile (new_StorageManager None) "report.pdf" "out.bin" 1
             collision_changed_disk).2 !! "out.bin" = Some collision_b.
Proof.
  exists (split_manifest (new_StorageManager None) "report.pdf" collision_a 0),
         (chunk_info (new_StorageManager None) "report.pdf" collision_a 0),
         collision_a.
  split_and!.
  - by vm_compute.
  - by vm_compute.
  - by vm_compute.
  - done.
  - by vm_compute.
  - intros E. by vm_compute in E.
  - by vm_compute.
  - by vm_compute.
Qed.

(** ** The theorems at a concrete file *)

Definition hello_disk : Disk :=
  mkDisk ∅ ∅ {[ "in.txt" := bytes_of_string "hello world" ]}.

(** C1 at an 11-byte file with the constructor's chunk size. *)
Lemma split_then_reassemble_witness :
  (0 < chunkSize (new_StorageManager None))%N ∧
  files hello_disk !! "in.txt" = Some (bytes_of_string "hello world") ∧
  ∃ m disk1 disk2,
    splitFile (new_StorageManager None) "in.txt" "hello" 0 hello_disk
    = (Ok m, disk1) ∧
    reassembleFile (new_StorageManager None) "hello" "out.txt" 1 disk1
    = (Ok "out.txt", disk2) ∧
    files disk2 !! "out.txt" = Some (bytes_of_string "hello world").
Proof.
  assert (H1 : (0 < chunkSize (new_StorageManager None))%N) by (by vm_compute).
  assert (H2 : files hello_disk !! "in.txt" = Some (bytes_of_string "hello world"))
    by (by vm_compute).
  split; [exact H1|]. split; [exact H2|].
  destruct (split_then_reassemble (new_StorageManager None) "in.txt" "hello"
              "out.txt" 0 1 hello_disk _ H1 H2)
    as (m & disk1 & Hs & (disk2 & Hr & Ho) & _).
  by exists m, disk1, disk2.
Defined.

(** C8 at an 11-byte file with chunk size 4: three chunks. *)
Lemma splitFile_chunks_witness :
  (0 < chunkSize (mkStorageManager "./storage" 4))%N ∧
  files hello_disk !! "in.txt" = Some (bytes_of_string "hello world") ∧
  ∃ m disk',
    splitFile (mkStorageManager "./storage" 4) "in.txt" "hello" 0 hello_disk
    = (Ok m, disk') ∧
    chunkCount m = 3%N ∧ length (chunks m) = 3%nat.
Proof.
  assert (H1 : (0 < chunkSize (mkStorageManager "./storage" 4))%N) by (by vm_compute).
  assert (H2 : files hello_disk !! "in.txt" = Some (bytes_of_string "hello world"))
    by (by vm_compute).
  split; [exact H1|]. split; [exact H2|].
  destruct (splitFile_chunks (mkStorageManager "./storage" 4) "in.txt" "hello"
              0 hello_disk _ H1 H2)
    as (m & disk' & Hs & Hc & _ & Hl & _).
  exists m, disk'. split; [done|]. rewrite Hl, Hc. by vm_compute.
Defined.

End StorageSpec.

(* ===================================================================== *)
(** * Further properties of the control plane                             *)
(* ===================================================================== *)

Module ControllerExtra.
Import Controller ControllerSpec.

(** ** What deannounce does to the index and to the registry *)

Lemma deannounce_files id filename sz st fi :
  is_Some (registeredNodes st !! id) →
  fileLocations st !! filename = Some fi →
  fileLocations (deannounce id filename sz st).2 =
  if Set_has id (owners fi) then
    if decide (Set_delete id (owners fi) = [])
    then delete filename (fileLocations st)
    else <[filename := set_owners fi (Set_delete id (owners fi))]> (fileLocations st)
  else fileLocations st.
Proof.
  intros [node Hn] Hf. unfold deannounce. rewrite Hn, Hf. cbn zeta.
  destruct (Set_has id (owners fi)); [|done]. cbn.
  destruct (Set_delete id (owners fi)) as [|x l] eqn:E; cbn.
  - by rewrite decide_True.
  - by rewrite decide_False.
Qed.

Lemma deannounce_untracked id filename sz st :
  fileLocations st !! filename = None →
  (deannounce id filename sz st).2 = st.
Proof.
  intros Hf. unfold deannounce.
  destruct (registeredNodes st !! id); [|done]. by rewrite Hf.
Qed.

Lemma deannounce_nodes id filename sz st node fi :
  registeredNodes st !! id = Some node →
  fileLocations st !! filename = Some fi →
  registeredNodes (deannounce id filename sz st).2 =
  if Set_has id (owners fi) && negb (sz =? 0)%N
  then <[id := set_storage node
                 (mkStorage (total (storage_or_zero node))
                            (sub_floor (used (storage_or_zero node)) sz))]>
         (registeredNodes st)
  else registeredNodes st.
Proof.
  intros Hn Hf. unfold deannounce. rewrite Hn, Hf. cbn zeta.
  destruct (Set_has id (owners fi)); [|done]. cbn.
  by destruct (sz =? 0)%N.
Qed.

Lemma deannounce_used id filename sz st node fi :
  registeredNodes st !! id = Some node →
  fileLocations st !! filename = Some fi →
  used_of (deannounce id filename sz st).2 id =
  Some (if Set_has id (owners fi) then sub_floor (node_used node) sz
        else node_used node).
Proof.
  intros Hn Hf. unfold used_of. rewrite (deannounce_nodes _ _ _ _ _ _ Hn Hf).
  destruct (Set_has id (owners fi)); cbn [andb].
  - destruct (sz =? 0)%N eqn:E; cbn [negb].
    + apply N.eqb_eq in E as ->. rewrite Hn. cbn. f_equal.
      unfold sub_floor. lia.
    + by rewrite lookup_insert_eq.
  - by rewrite Hn.
Qed.

(** ** The registry only grows *)

Lemma exec_registered op st id :
  is_Some (registeredNodes st !! id) →
  is_Some (registeredNodes (exec op st) !! id).
Proof.
  intros [node Hn].
  destruct op as [i addr prt own sto now|i now|i f sz now|f|i f sz|now]; cbn.
  - rewrite lookup_insert. case_decide; eauto.
  - destruct (registeredNodes st !! i) eqn:Hi; cbn; [|eauto].
    rewrite lookup_insert. case_decide; eauto.
  - destruct (registeredNodes st !! i) as [n|] eqn:Hi.
    + rewrite (announce_nodes _ _ _ _ _ _ Hi).
      destruct (negb _ && negb _); [|eauto].
      rewrite lookup_insert. case_decide; eauto.
    + rewrite (announce_unregistered _ _ _ _ _ Hi). eauto.
  - eauto.
  - destruct (registeredNodes st !! i) as [n|] eqn:Hi.
    + destruct (fileLocations st !! f) as [fi|] eqn:Hf.
      * rewrite (deannounce_nodes _ _ _ _ _ _ Hi Hf).
        destruct (Set_has _ _ && negb _); [|eauto].
        rewrite lookup_insert. case_decide; eauto.
      * rewrite (deannounce_untracked _ _ _ _ Hf). eauto.
    + rewrite (deannounce_unregistered _ _ _ _ Hi). eauto.
  - rewrite sweep_nodes, lookup_fmap, Hn. cbn. eauto.
Qed.

(** X1. No operation of the control plane removes a node record: an id
    that is registered stays registered after any operation, hence after
    any run. *)
Theorem registry_never_shrinks (ops : list Op) (st : State) (id : string) :
  is_Some (registeredNodes st !! id) →
  is_Some (registeredNodes (run ops st) !! id).
Proof.
  revert st. induction ops as [|op ops IH]; intros st H; [done|].
  cbn. apply IH. by apply exec_registered.
Qed.

(** X1 at the run of the stale node. *)
Lemma registry_never_shrinks_witness :
  is_Some (registeredNodes one_node !! "A") ∧
  is_Some (registeredNodes
             (run [Sweep 31000; Deannounce "A" "report.pdf" 5; Sweep 99000] one_node)
           !! "A").
Proof.
  assert (H : is_Some (registeredNodes one_node !! "A")) by (by vm_compute; eauto).
  split; [exact H|]. exact (registry_never_shrinks _ one_node "A" H).
Defined.

(** ** Owners are registered nodes, each listed once *)

Definition owners_registered (st : State) : Prop :=
  ∀ filename fi o, fileLocations st !! filename = Some fi → o ∈ owners fi →
    is_Some (registeredNodes st !! o).

Definition owners_nodup (st : State) : Prop :=
  ∀ filename fi, fileLocations st !! filename = Some fi → NoDup (owners fi).

Lemma NoDup_Set_add x s : NoDup s → NoDup (Set_add x s).
Proof.
  intros H. unfold Set_add. destruct (Set_has x s) eqn:E; [done|].
  apply Set_has_false in E. apply NoDup_app. split_and!; [done| |apply NoDup_singleton].
  intros y Hy Hy'. apply list_elem_of_singleton in Hy'. by subst y.
Qed.

Lemma NoDup_Set_delete x s : NoDup s → NoDup (Set_delete x s).
Proof. intros H. unfold Set_delete. by apply NoDup_filter. Qed.

Lemma exec_index_entry op st filename fi' :
  fileLocations (exec op st) !! filename = Some fi' →
  (∃ fi, fileLocations st !! filename = Some fi ∧
         (owners fi' = owners fi ∨
          (∃ id, is_Some (registeredNodes st !! id) ∧
                 (owners fi' = Set_add id (owners fi) ∨
                  owners fi' = Set_delete id (owners fi))))) ∨
  (∃ id, is_Some (registeredNodes st !! id) ∧ owners fi' = [id]).
Proof.
  destruct op as [i addr prt own sto now|i now|i f sz now|f|i f sz|now]; cbn.
  - intros H. left. exists fi'. eauto.
  - destruct (registeredNodes st !! i); cbn; intros H; left; exists fi'; eauto.
  - destruct (registeredNodes st !! i) as [n|] eqn:Hi.
    + assert (Hs : is_Some (registeredNodes st !! i)) by (rewrite Hi; eauto).
      rewrite (announce_files _ _ _ _ _ Hs), lookup_insert.
      case_decide as Hf.
      * subst f. intros [= <-]. cbn. unfold entry_for.
        destruct (fileLocations st !! filename) as [fi|] eqn:E.
        -- left. exists fi. split; [done|]. right. exists i. eauto.
        -- right. exists i. split; [done|]. done.
      * intros H. left. exists fi'. eauto.
    + rewrite (announce_unregistered _ _ _ _ _ Hi). intros H. left. exists fi'. eauto.
  - intros H. left. exists fi'. eauto.
  - destruct (registeredNodes st !! i) as [n|] eqn:Hi.
    + assert (Hs : is_Some (registeredNodes st !! i)) by (rewrite Hi; eauto).
      destruct (fileLocations st !! f) as [fi|] eqn:Hf.
      * rewrite (deannounce_files _ _ _ _ _ Hs Hf).
        destruct (Set_has i (owners fi)); [|intros H; left; exists fi'; eauto].
        case_decide.
        -- rewrite lookup_delete. case_decide; [done|].
           intros H'. left. exists fi'. eauto.
        -- rewrite lookup_insert. case_decide as Hff.
           ++ subst f. intros [= <-]. left. exists fi. split; [done|].
              right. exists i. eauto.
           ++ intros H'. left. exists fi'. eauto.
      * rewrite (deannounce_untracked _ _ _ _ Hf). intros H. left. exists fi'. eauto.
    + rewrite (deannounce_unregistered _ _ _ _ Hi). intros H. left. exists fi'. eauto.
  - unfold sweep. destruct (sweep_changed now (registeredNodes st)); cbn.
    + intros [H _]%map_lookup_filter_Some. left. exists fi'. eauto.
    + intros H. left. exists fi'. eauto.
Qed.

Lemma exec_owners_registered op st :
  owners_registered st → owners_registered (exec op st).
Proof.
  intros H filename fi' o Hf Ho. apply exec_registered.
  apply exec_index_entry in Hf
    as [(fi & Hfi & [E|(id & Hid & [E|E])])|(id & Hid & E)]; rewrite E in Ho.
  - by eapply H.
  - apply elem_of_Set_add in Ho as [->|Ho]; [done|]. by eapply H.
  - apply elem_of_Set_delete in Ho as [_ Ho]. by eapply H.
  - apply list_elem_of_singleton in Ho. by subst o.
Qed.

Lemma exec_owners_nodup op st : owners_nodup st → owners_nodup (exec op st).
Proof.
  intros H filename fi' Hf.
  apply exec_index_entry in Hf
    as [(fi & Hfi & [E|(id & Hid & [E|E])])|(id & Hid & E)]; rewrite E.
  - by eapply H.
  - apply NoDup_Set_add. by eapply H.
  - apply NoDup_Set_delete. by eapply H.
  - apply NoDup_singleton.
Qed.

Lemma reachable_owners_registered st : reachable st → owners_registered st.
Proof.
  induction 1 as [users|op st _ IH].
  - intros f fi o Hf. cbn in Hf. by rewrite lookup_empty in Hf.
  - by apply exec_owners_registered.
Qed.

Lemma reachable_owners_nodup st : reachable st → owners_nodup st.
Proof.
  induction 1 as [users|op st _ IH].
  - intros f fi Hf. cbn in Hf. by rewrite lookup_empty in Hf.
  - by apply exec_owners_nodup.
Qed.


(** X2. In every reachable state each owner of each index entry is a
    registered node: announce refuses unknown ids and no record is ever
    removed. *)
Theorem every_owner_is_registered (st : State) (filename : string)
    (fi : FileInfo) (o : string) :
  reachable st →
  fileLocations st !! filename = Some fi → o ∈ owners fi →
  is_Some (registeredNodes st !! o).
Proof. intros Hr. by apply reachable_owners_registered. Qed.

(** X2 at the state where the offline node has announced a file. *)
Lemma every_owner_is_registered_witness :
  reachable (run stale_run (initial None)) ∧
  fileLocations (run stale_run (initial None)) !! "report.pdf"
  = Some (mkFileInfo ["A"] 32000 3145728 false) ∧
  is_Some (registeredNodes (run stale_run (initial None)) !! "A").
Proof.
  assert (Hr : reachable (run stale_run (initial None)))
    by (apply reachable_run; constructor).
  assert (Hf : fileLocations (run stale_run (initial None)) !! "report.pdf"
               = Some (mkFileInfo ["A"] 32000 3145728 false)) by (by vm_compute).
  split; [exact Hr|]. split; [exact Hf|].
  apply (every_owner_is_registered _ _ _ "A" Hr Hf). cbn. by left.
Defined.

Lemma NoDup_location_ids (g : string → option Location) (l : list string) :
  (∀ o y, g o = Some y → loc_id y = o) →
  NoDup l → NoDup (loc_id <$> omap g l).
Proof.
  intros Hg. induction 1 as [|x l Hx Hnd IH]; cbn; [constructor|].
  destruct (g x) as [y|] eqn:E; [|done]. cbn. constructor; [|done].
  rewrite (Hg _ _ E). intros Hin. apply Hx.
  apply list_elem_of_fmap in Hin as (y' & -> & Hy').
  apply list_elem_of_omap in Hy' as (o & Ho & Hgo).
  by rewrite (Hg _ _ Hgo).
Qed.

(** X3. In every reachable state the answer of [locate] names each node
    at most once. *)
Theorem locate_lists_each_node_once (st : State) (filename : string) :
  reachable st → NoDup (loc_id <$> locations filename st).
Proof.
  intros Hr. unfold locations.
  destruct (fileLocations st !! filename) as [fi|] eqn:Hf; [|constructor].
  apply NoDup_location_ids.
  - intros o y. destruct (registeredNodes st !! o) as [n|]; [|done].
    destruct (online n); [|done]. by intros [= <-].
  - by eapply reachable_owners_nodup.
Qed.

(** Two nodes own the same file, one of them announced it twice. *)
Definition two_owners : State :=
  run [ Register "B" "10.0.0.2" None None None 500;
        Announce "A" "report.pdf" 100 1000;
        Announce "B" "report.pdf" 100 1100;
        Announce "A" "report.pdf" 100 1200 ] one_node.

(** X3 at [two_owners]. *)
Lemma locate_lists_each_node_once_witness :
  reachable two_owners ∧
  loc_id <$> locations "report.pdf" two_owners = ["A"; "B"] ∧
  NoDup (loc_id <$> locations "report.pdf" two_owners).
Proof.
  assert (Hr : reachable two_owners) by (do 2 apply reachable_run; constructor).
  split; [exact Hr|]. split; [by vm_compute|].
  exact (locate_lists_each_node_once two_owners "report.pdf" Hr).
Defined.

(** ** Heartbeats *)

Lemma heartbeat_nodes id t st node :
  registeredNodes st !! id = Some node →
  registeredNodes (heartbeat id t st).2 =
  <[id := mkNode (address node) (port node) true t (owner node) (storage node)]>
    (registeredNodes st).
Proof. intros H. unfold heartbeat. by rewrite H. Qed.

Lemma heartbeat_files id t st :
  fileLocations (heartbeat id t st).2 = fileLocations st.
Proof. unfold heartbeat. cbn. by destruct (registeredNodes st !! id). Qed.

(** X4. A registered node whose heartbeat arrived at time [t] is online
    with [lastSeen = t] after a sweep at any time up to [t + 30000]: the
    sweep does not mark it offline, whatever its state was before the
    heartbeat. *)
Theorem heartbeat_then_sweep_keeps_online (id : string) (t now : Z) (st : State)
    (node : Node) :
  registeredNodes st !! id = Some node →
  (now - t ≤ 30000)%Z →
  registeredNodes (sweep now (heartbeat id t st).2) !! id =
  Some (mkNode (address node) (port node) true t (owner node) (storage node)).
Proof.
  intros Hn Ht. rewrite sweep_nodes, (heartbeat_nodes _ _ _ _ Hn), lookup_fmap.
  rewrite lookup_insert_eq. cbn. f_equal. unfold sweep_node, timed_out. cbn.
  rewrite (proj2 (Z.ltb_ge _ _)) by (unfold timeout_ms; lia).
  by rewrite andb_false_r.
Qed.

(** X4 for the node that had timed out: its heartbeat at 40 s keeps it
    online through the sweep at 70 s. *)
Lemma heartbeat_then_sweep_keeps_online_witness :
  registeredNodes offline_node !! "A" = Some (set_online node_A false) ∧
  (70000 - 40000 ≤ 30000)%Z ∧
  online <$> registeredNodes (sweep 70000 (heartbeat "A" 40000 offline_node).2) !! "A"
  = Some true.
Proof.
  assert (Hn : registeredNodes offline_node !! "A" = Some (set_online node_A false))
    by (by vm_compute).
  assert (Ht : (70000 - 40000 ≤ 30000)%Z) by lia.
  split; [exact Hn|]. split; [exact Ht|].
  by rewrite (heartbeat_then_sweep_keeps_online "A" 40000 70000 offline_node _ Hn Ht).
Defined.

(** X5. After the heartbeat of a registered node, [locate] lists that node
    for every file it owns, also when it was marked offline before. *)
Theorem heartbeat_makes_locatable (id filename : string) (t : Z) (st : State)
    (node : Node) (fi : FileInfo) :
  registeredNodes st !! id = Some node →
  fileLocations st !! filename = Some fi → id ∈ owners fi →
  mkLocation id (address node) (port node)
  ∈ locations filename (heartbeat id t st).2.
Proof.
  intros Hn Hf Ho. apply elem_of_locations.
  exists fi, (mkNode (address node) (port node) true t (owner node) (storage node)).
  rewrite heartbeat_files, (heartbeat_nodes _ _ _ _ Hn). cbn.
  by rewrite lookup_insert_eq.
Qed.

(** The offline node [A] owns a file (the state of the stale run). *)
Definition stale_state : State := run stale_run (initial None).

(** X5 at [stale_state]: nothing is located before the heartbeat, the node
    is located after it. *)
Lemma heartbeat_makes_locatable_witness :
  registeredNodes stale_state !! "A"
  = Some (mkNode "10.0.0.1" 5001 false 0 None (Some (mkStorage 0 3145728))) ∧
  fileLocations stale_state !! "report.pdf"
  = Some (mkFileInfo ["A"] 32000 3145728 false) ∧
  locations "report.pdf" stale_state = [] ∧
  mkLocation "A" "10.0.0.1" 5001
  ∈ locations "report.pdf" (heartbeat "A" 50000 stale_state).2.
Proof.
  assert (Hn : registeredNodes stale_state !! "A"
    = Some (mkNode "10.0.0.1" 5001 false 0 None (Some (mkStorage 0 3145728))))
    by (by vm_compute).
  assert (Hf : fileLocations stale_state !! "report.pdf"
    = Some (mkFileInfo ["A"] 32000 3145728 false)) by (by vm_compute).
  split; [exact Hn|]. split; [exact Hf|]. split; [by vm_compute|].
  apply (heartbeat_makes_locatable "A" "report.pdf" 50000 stale_state _ _ Hn Hf).
  cbn. by left.
Defined.

(** X6. After the announce of a file by a registered node that is online,
    [locate] lists that node, with its registered address and port, for
    the file. *)
Theorem announce_then_locate (id filename : string) (sz : N) (now : Z)
    (st : State) (node : Node) :
  registeredNodes st !! id = Some node → online node = true →
  mkLocation id (address node) (port node)
  ∈ locations filename (announce id filename sz now st).2.
Proof.
  intros Hn Hon.
  assert (Hs : is_Some (registeredNodes st !! id)) by (rewrite Hn; eauto).
  apply elem_of_locations. rewrite (announce_files _ _ _ _ _ Hs).
  rewrite (announce_nodes _ _ _ _ _ _ Hn), lookup_insert_eq.
  destruct (negb _ && negb _).
  - eexists _, _. split; [done|]. cbn. split; [apply elem_of_Set_add; by left|].
    rewrite lookup_insert_eq. split; [done|]. by cbn.
  - eexists _, _. split; [done|]. cbn. split; [apply elem_of_Set_add; by left|].
    rewrite Hn. done.
Qed.

(** X6 at [one_node]. *)
Lemma announce_then_locate_witness :
  registeredNodes one_node !! "A" = Some node_A ∧ online node_A = true ∧
  locations "report.pdf" (announce "A" "report.pdf" 100 1000 one_node).2
  = [mkLocation "A" "10.0.0.1" 5001] ∧
  mkLocation "A" "10.0.0.1" 5001
  ∈ locations "report.pdf" (announce "A" "report.pdf" 100 1000 one_node).2.
Proof.
  split; [exact one_node_A|]. split; [done|]. split; [by vm_compute|].
  exact (announce_then_locate "A" "report.pdf" 100 1000 one_node node_A
           one_node_A eq_refl).
Defined.

(** ** More on the sweep *)

Lemma sweep_node_not_timed_out now node :
  timed_out now (sweep_node now node) = false.
Proof.
  unfold sweep_node. destruct (timed_out now node) eqn:E; [|done].
  by unfold timed_out.
Qed.

(** X7. A second sweep with the same clock changes nothing: whatever the
    first one had to mark offline or evict is done. *)
Theorem sweep_idempotent (now : Z) (st : State) :
  sweep now (sweep now st) = sweep now st.
Proof.
  apply sweep_unchanged, sweep_changed_false. intros id node'.
  rewrite sweep_nodes, lookup_fmap.
  destruct (registeredNodes st !! id) as [node|]; [|done].
  intros [= <-]. apply sweep_node_not_timed_out.
Qed.

(** X8. The sweep only takes away: every index entry it leaves was there
    before, unchanged; it registers and removes no node; a node that is
    online after it was online before with the same record; and every
    location [locate] returns after it was returned before it. *)
Theorem sweep_only_takes_away (now : Z) (st : State) :
  (∀ filename fi, fileLocations (sweep now st) !! filename = Some fi →
     fileLocations st !! filename = Some fi) ∧
  (∀ id, is_Some (registeredNodes (sweep now st) !! id) ↔
         is_Some (registeredNodes st !! id)) ∧
  (∀ id node, registeredNodes (sweep now st) !! id = Some node →
     online node = true → registeredNodes st !! id = Some node) ∧
  (∀ filename l, l ∈ locations filename (sweep now st) →
     l ∈ locations filename st).
Proof.
  assert (Hfiles : ∀ filename fi,
            fileLocations (sweep now st) !! filename = Some fi →
            fileLocations st !! filename = Some fi).
  { intros filename fi. unfold sweep.
    destruct (sweep_changed now (registeredNodes st)); cbn; [|done].
    by intros [H _]%map_lookup_filter_Some. }
  assert (Honline : ∀ id node,
            registeredNodes (sweep now st) !! id = Some node →
            online node = true → registeredNodes st !! id = Some node).
  { intros id node. rewrite sweep_nodes, lookup_fmap.
    destruct (registeredNodes st !! id) as [n|]; [|done]. cbn.
    intros [= <-]. unfold sweep_node. by destruct (timed_out now n). }
  split_and!; [done| |done|].
  - intros id. rewrite sweep_nodes, lookup_fmap.
    destruct (registeredNodes st !! id); cbn; split; intros [? ?]; eauto.
  - intros filename l (fi & node & Hf & Ho & Hn & Hon & Hl)%elem_of_locations.
    apply elem_of_locations. exists fi, node. split_and!; eauto.
Qed.

(** X9. In a reachable state, when every registered owner of a file is
    either offline already or a node without owner whose last heartbeat is
    more than 30 s old, and the sweep finds a node to mark offline, the
    sweep removes the file from the index and [locate] answers with the
    empty list. *)
Theorem sweep_evicts_file_of_dead_owners (now : Z) (st : State)
    (filename : string) (fi : FileInfo) :
  reachable st →
  fileLocations st !! filename = Some fi →
  (∀ o node, o ∈ owners fi → registeredNodes st !! o = Some node →
     online node = false ∨
     (owner node = None ∧ (now - lastSeen node > 30000)%Z)) →
  (∃ id node, registeredNodes st !! id = Some node ∧ owner node = None ∧
              online node = true ∧ (now - lastSeen node > 30000)%Z) →
  fileLocations (sweep now st) !! filename = None ∧
  locations filename (sweep now st) = [].
Proof.
  intros Hr Hf Hdead (id & node & Hn & Hown & Hon & Hstale).
  pose proof (reachable_owners_wf _ Hr) as Hwf.
  assert (Hc : sweep_changed now (registeredNodes st) = true).
  { apply sweep_changed_true. exists id, node. split; [done|].
    apply timed_out_spec; [exact (Hwf _ _ Hn)|]. by unfold timeout_ms. }
  assert (Hgone : fileLocations (sweep now st) !! filename = None).
  { unfold sweep. rewrite Hc. cbn. apply map_lookup_filter_None. right.
    intros fi' Hf'. rewrite Hf in Hf'. injection Hf' as <-. cbn.
    intros (o & n' & Ho & Hn' & Hon')%hasOnlineOwner_true.
    rewrite lookup_fmap in Hn'.
    destruct (registeredNodes st !! o) as [n|] eqn:Hno; [|done].
    injection Hn' as <-. unfold sweep_node in Hon'.
    destruct (Hdead o n Ho Hno) as [Hoff|[Hnone Hold]].
    - destruct (timed_out now n); cbn in Hon'; congruence.
    - destruct (timed_out now n) eqn:Ht; [done|].
      destruct (online n) eqn:Hon''; [|done].
      assert (timed_out now n = true); [|congruence].
      apply timed_out_spec; [exact (Hwf _ _ Hno)|]. by unfold timeout_ms. }
  split; [done|]. unfold locations. by rewrite Hgone.
Qed.

(** X9 at the single node that announced and then stopped heartbeating. *)
Lemma sweep_evicts_file_of_dead_owners_witness :
  reachable (run [Announce "A" "report.pdf" 100 1000] one_node) ∧
  locations "report.pdf" (run [Announce "A" "report.pdf" 100 1000] one_node)
  = [mkLocation "A" "10.0.0.1" 5001] ∧
  fileLocations (sweep 31000 (run [Announce "A" "report.pdf" 100 1000] one_node))
  !! "report.pdf" = None ∧
  locations "report.pdf"
    (sweep 31000 (run [Announce "A" "report.pdf" 100 1000] one_node)) = [].
Proof.
  set (st := run [Announce "A" "report.pdf" 100 1000] one_node).
  assert (Hr : reachable st) by (do 2 apply reachable_run; constructor).
  split; [exact Hr|]. split; [by vm_compute|].
  apply (sweep_evicts_file_of_dead_owners 31000 st "report.pdf"
           (mkFileInfo ["A"] 1000 100 false) Hr).
  - by vm_compute.
  - intros o node Ho Hn. cbn in Ho. apply list_elem_of_singleton in Ho. subst o.
    vm_compute in Hn. injection Hn as <-. right. split; [done|]. cbn. lia.
  - exists "A", (mkNode "10.0.0.1" 5001 true 0 None (Some (mkStorage 0 100))).
    split; [by vm_compute|]. cbn. split_and!; done.
Defined.

(** ** Two owners of one file *)

Lemma announce_lookup_other id other filename sz now st :
  other ≠ id →
  registeredNodes (announce id filename sz now st).2 !! other =
  registeredNodes st !! other.
Proof.
  intros Hne. destruct (registeredNodes st !! id) as [node|] eqn:Hn.
  - rewrite (announce_nodes _ _ _ _ _ _ Hn).
    destruct (negb _ && negb _); [|done]. by rewrite lookup_insert_ne.
  - by rewrite (announce_unregistered _ _ _ _ _ Hn).
Qed.

Lemma deannounce_lookup_other id other filename sz st :
  other ≠ id →
  registeredNodes (deannounce id filename sz st).2 !! other =
  registeredNodes st !! other.
Proof.
  intros Hne. destruct (registeredNodes st !! id) as [node|] eqn:Hn.
  - destruct (fileLocations st !! filename) as [fi|] eqn:Hf.
    + rewrite (deannounce_nodes _ _ _ _ _ _ Hn Hf).
      destruct (Set_has _ _ && negb _); [|done]. by rewrite lookup_insert_ne.
    + by rewrite (deannounce_untracked _ _ _ _ Hf).
  - by rewrite (deannounce_unregistered _ _ _ _ Hn).
Qed.

Lemma used_of_Some st id u :
  used_of st id = Some u →
  ∃ node, registeredNodes st !! id = Some node ∧ node_used node = u.
Proof.
  unfold used_of. destruct (registeredNodes st !! id) as [node|]; [|done].
  intros [= <-]. by exists node.
Qed.

Lemma Set_add_second a b : a ≠ b → Set_add b [a] = [a; b].
Proof.
  intros Hne. unfold Set_add.
  rewrite (proj2 (Set_has_false b [a])); [done|].
  rewrite list_elem_of_singleton. congruence.
Qed.

Lemma Set_delete_first a b : a ≠ b → Set_delete a [a; b] = [b].
Proof.
  intros Hne. unfold Set_delete.
  rewrite filter_cons, decide_False by (intros H; by apply H).
  rewrite filter_cons, decide_True by congruence. done.
Qed.

(** X10. Two distinct registered nodes announce the same untracked file
    with the same size: the owner set is [a, b] and each node's used
    storage has grown by the size.  Deannouncing from [a] leaves the entry
    with owner set [b]; deannouncing from [b] as well removes the entry,
    and the index and both used-storage counters are back where they
    started. *)
Theorem two_owners_announce_and_release (a b filename : string) (sz : N)
    (now1 now2 : Z) (st : State) (na nb : Node) :
  a ≠ b →
  registeredNodes st !! a = Some na →
  registeredNodes st !! b = Some nb →
  fileLocations st !! filename = None →
  let st1 := (announce a filename sz now1 st).2 in
  let st2 := (announce b filename sz now2 st1).2 in
  let st3 := (deannounce a filename sz st2).2 in
  let st4 := (deannounce b filename sz st3).2 in
  owners_of st2 filename = Some [a; b] ∧
  used_of st2 a = Some (node_used na + sz)%N ∧
  used_of st2 b = Some (node_used nb + sz)%N ∧
  owners_of st3 filename = Some [b] ∧
  used_of st3 a = Some (node_used na) ∧
  fileLocations st4 !! filename = None ∧
  fileLocations st4 = fileLocations st ∧
  used_of st4 a = Some (node_used na) ∧
  used_of st4 b = Some (node_used nb).
Proof.
  intros Hab Hna Hnb Hf st1 st2 st3 st4.
  assert (Hsa : is_Some (registeredNodes st !! a)) by (rewrite Hna; eauto).
  (* after the first announce *)
  assert (Hf1 : fileLocations st1 = <[filename := mkFileInfo [a] now1 sz false]>
                                      (fileLocations st)).
  { subst st1. rewrite (announce_files _ _ _ _ _ Hsa). unfold entry_for.
    by rewrite Hf. }
  assert (Hua1 : used_of st1 a = Some (node_used na + sz)%N).
  { subst st1. rewrite (announce_used _ _ _ _ _ _ Hna). unfold entry_for.
    rewrite Hf. cbn. by rewrite (proj2 (Set_has_false a [])) by apply not_elem_of_nil. }
  assert (Hnb1 : registeredNodes st1 !! b = Some nb).
  { subst st1. rewrite announce_lookup_other by done. done. }
  assert (Hsb1 : is_Some (registeredNodes st1 !! b)) by (rewrite Hnb1; eauto).
  assert (He1 : entry_for filename sz now2 st1 = mkFileInfo [a] now1 sz false).
  { unfold entry_for. by rewrite Hf1, lookup_insert_eq. }
  (* after the second announce *)
  assert (Hf2 : fileLocations st2 = <[filename := mkFileInfo [a; b] now1 sz false]>
                                      (fileLocations st1)).
  { subst st2. rewrite (announce_files _ _ _ _ _ Hsb1), He1. cbn [owners set_owners uploadTime size replicated].
    by rewrite (Set_add_second a b Hab). }
  assert (Hub2 : used_of st2 b = Some (node_used nb + sz)%N).
  { subst st2. rewrite (announce_used _ _ _ _ _ _ Hnb1), He1. cbn [owners].
    rewrite (proj2 (Set_has_false b [a])); [done|].
    rewrite list_elem_of_singleton. congruence. }
  assert (Hua2 : used_of st2 a = Some (node_used na + sz)%N).
  { rewrite <- Hua1. unfold used_of. subst st2.
    by rewrite announce_lookup_other. }
  destruct (used_of_Some _ _ _ Hua2) as (na2 & Hna2 & Hu2).
  assert (Hl2 : fileLocations st2 !! filename = Some (mkFileInfo [a; b] now1 sz false))
    by (by rewrite Hf2, lookup_insert_eq).
  (* after the first deannounce *)
  assert (Hf3 : fileLocations st3 = <[filename := mkFileInfo [b] now1 sz false]>
                                      (fileLocations st2)).
  { subst st3. rewrite (deannounce_files _ _ _ _ _ ltac:(rewrite Hna2; eauto) Hl2).
    cbn [owners set_owners]. rewrite (proj2 (Set_has_true a [a; b])) by (apply elem_of_cons; by left).
    rewrite (Set_delete_first a b Hab). by rewrite decide_False. }
  assert (Hua3 : used_of st3 a = Some (node_used na)).
  { subst st3. rewrite (deannounce_used _ _ _ _ _ _ Hna2 Hl2). cbn [owners].
    rewrite (proj2 (Set_has_true a [a; b])) by (apply elem_of_cons; by left).
    by rewrite Hu2, sub_floor_add. }
  assert (Hub3 : used_of st3 b = Some (node_used nb + sz)%N).
  { rewrite <- Hub2. unfold used_of. subst st3.
    by rewrite deannounce_lookup_other. }
  destruct (used_of_Some _ _ _ Hub3) as (nb3 & Hnb3 & Hu3).
  assert (Hl3 : fileLocations st3 !! filename = Some (mkFileInfo [b] now1 sz false))
    by (by rewrite Hf3, lookup_insert_eq).
  (* after the second deannounce *)
  assert (Hf4 : fileLocations st4 = fileLocations st).
  { subst st4. rewrite (deannounce_files _ _ _ _ _ ltac:(rewrite Hnb3; eauto) Hl3).
    cbn [owners set_owners]. rewrite (proj2 (Set_has_true b [b])) by (apply elem_of_cons; by left).
    rewrite Set_delete_singleton, decide_True by done.
    rewrite Hf3, Hf2, Hf1, !delete_insert_eq. by apply delete_id. }
  split_and!.
  - unfold owners_of. by rewrite Hl2.
  - done.
  - done.
  - unfold owners_of. by rewrite Hl3.
  - done.
  - by rewrite Hf4.
  - done.
  - rewrite <- Hua3. unfold used_of. subst st4.
    by rewrite deannounce_lookup_other.
  - subst st4. rewrite (deannounce_used _ _ _ _ _ _ Hnb3 Hl3). cbn [owners].
    rewrite (proj2 (Set_has_true b [b])) by (apply elem_of_cons; by left).
    by rewrite Hu3, sub_floor_add.
Qed.

(** Nodes [A] and [B], both registered, no file tracked. *)
Definition two_nodes : State :=
  run [ Register "B" "10.0.0.2" None None None 500 ] one_node.

(** X10 at [two_nodes]. *)
Lemma two_owners_announce_and_release_witness :
  "A" ≠ "B" ∧
  registeredNodes two_nodes !! "A" = Some node_A ∧
  fileLocations two_nodes !! "report.pdf" = None ∧
  owners_of (run [ Announce "A" "report.pdf" 100 1000;
                   Announce "B" "report.pdf" 100 1100 ] two_nodes) "report.pdf"
  = Some ["A"; "B"] ∧
  fileLocations (run [ Announce "A" "report.pdf" 100 1000;
                       Announce "B" "report.pdf" 100 1100;
                       Deannounce "A" "report.pdf" 100;
                       Deannounce "B" "report.pdf" 100 ] two_nodes)
  = fileLocations two_nodes.
Proof.
  assert (Hab : "A" ≠ "B") by done.
  assert (Ha : registeredNodes two_nodes !! "A" = Some node_A) by (by vm_compute).
  assert (Hb : registeredNodes two_nodes !! "B"
               = Some (mkNode "10.0.0.2" 5001 true 500 None (Some (mkStorage 0 0))))
    by (by vm_compute).
  assert (Hf : fileLocations two_nodes !! "report.pdf" = None) by (by vm_compute).
  split; [exact Hab|]. split; [exact Ha|]. split; [exact Hf|].
  destruct (two_owners_announce_and_release "A" "B" "report.pdf" 100 1000 1100
              two_nodes _ _ Hab Ha Hb Hf) as (Ho & _ & _ & _ & _ & _ & Hback & _).
  split; [exact Ho|exact Hback].
Defined.

(** ** Deleting a file everywhere *)






(** ** Personal nodes *)

Definition personal_online (st : State) : Prop :=
  ∀ id node, registeredNodes st !! id = Some node →
    truthy (owner node) = true → online node = true.

Lemma exec_personal_online op st : personal_online st → personal_online (exec op st).
Proof.
  intros H id node.
  destruct op as [i addr prt own sto now|i now|i f sz now|f|i f sz|now]; cbn.
  - rewrite lookup_insert. case_decide; [|apply H]. by intros [= <-].
  - destruct (registeredNodes st !! i) as [n|] eqn:Hi; cbn; [|apply H].
    rewrite lookup_insert. case_decide; [|apply H]. by intros [= <-].
  - destruct (registeredNodes st !! i) as [n|] eqn:Hi.
    + rewrite (announce_nodes _ _ _ _ _ _ Hi).
      destruct (negb _ && negb _); [|apply H].
      rewrite lookup_insert. case_decide; [|apply H].
      intros [= <-]. cbn. exact (H _ _ Hi).
    + rewrite (announce_unregistered _ _ _ _ _ Hi). apply H.
  - apply H.
  - destruct (registeredNodes st !! i) as [n|] eqn:Hi.
    + destruct (fileLocations st !! f) as [fi|] eqn:Hf.
      * rewrite (deannounce_nodes _ _ _ _ _ _ Hi Hf).
        destruct (Set_has _ _ && negb _); [|apply H].
        rewrite lookup_insert. case_decide; [|apply H].
        intros [= <-]. cbn. exact (H _ _ Hi).
      * rewrite (deannounce_untracked _ _ _ _ Hf). apply H.
    + rewrite (deannounce_unregistered _ _ _ _ Hi). apply H.
  - rewrite sweep_nodes, lookup_fmap.
    destruct (registeredNodes st !! id) as [n|] eqn:Hn; [|done].
    cbn. intros [= <-]. unfold sweep_node, timed_out.
    destruct (truthy (owner n)) eqn:Ho.
    + rewrite andb_false_r. cbn. intros _. by apply (H id n).
    + destruct (online n && negb false && _); cbn; congruence.
Qed.

(** X12. A personal node is never offline: in every reachable state a
    node record that has an owner is marked online, however long ago its
    last heartbeat was. *)
Theorem personal_nodes_always_online (st : State) (id : string) (node : Node) :
  reachable st →
  registeredNodes st !! id = Some node → owner node ≠ None →
  online node = true.
Proof.
  intros Hr Hn Ho.
  assert (Hall : personal_online st).
  { clear Hn. induction Hr as [users|op st _ IH].
    - intros i n Hi. cbn in Hi. by rewrite lookup_empty in Hi.
    - by apply exec_personal_online. }
  apply (Hall id node Hn).
  pose proof (reachable_owners_wf _ Hr _ _ Hn) as Hok. cbn in Hok.
  destruct (truthy (owner node)) eqn:E; [done|].
  by apply (truthy_owner_ok node Hok) in E.
Qed.

(** A personal node, registered at time 0 and silent for a day. *)
Definition personal_run : list Op :=
  [ Register "node_u" "localhost" None (Some "u@x.org") None 0;
    Sweep 40000; Sweep 86400000 ].

(** X12 at the silent personal node. *)
Lemma personal_nodes_always_online_witness :
  reachable (run personal_run (initial None)) ∧
  registeredNodes (run personal_run (initial None)) !! "node_u"
  = Some (mkNode "localhost" 5001 true 0 (Some "u@x.org") (Some (mkStorage 0 0))) ∧
  online (mkNode "localhost" 5001 true 0 (Some "u@x.org") (Some (mkStorage 0 0)))
  = true.
Proof.
  assert (Hr : reachable (run personal_run (initial None)))
    by (apply reachable_run; constructor).
  assert (Hn : registeredNodes (run personal_run (initial None)) !! "node_u"
    = Some (mkNode "localhost" 5001 true 0 (Some "u@x.org") (Some (mkStorage 0 0))))
    by (by vm_compute).
  split; [exact Hr|]. split; [exact Hn|].
  exact (personal_nodes_always_online _ "node_u" _ Hr Hn ltac:(done)).
Defined.

(** ** What an index entry keeps *)

Lemma exec_entry_fields op st filename fi' :
  fileLocations (exec op st) !! filename = Some fi' →
  (∃ fi, fileLocations st !! filename = Some fi ∧
         size fi' = size fi ∧ uploadTime fi' = uploadTime fi ∧
         replicated fi' = replicated fi) ∨
  (fileLocations st !! filename = None ∧
   ∃ id sz now, op = Announce id filename sz now ∧
                fi' = mkFileInfo [id] now sz false).
Proof.
  destruct op as [i addr prt own sto now|i now|i f sz now|f|i f sz|now]; cbn.
  - intros H. left. exists fi'. eauto.
  - destruct (registeredNodes st !! i); cbn; intros H; left; exists fi'; eauto.
  - destruct (registeredNodes st !! i) as [n|] eqn:Hi.
    + assert (Hs : is_Some (registeredNodes st !! i)) by (rewrite Hi; eauto).
      rewrite (announce_files _ _ _ _ _ Hs), lookup_insert.
      case_decide as Hf.
      * subst f. intros [= <-]. unfold entry_for.
        destruct (fileLocations st !! filename) as [fi|] eqn:E.
        -- left. exists fi. eauto.
        -- right. split; [done|]. by exists i, sz, now.
      * intros H. left. exists fi'. eauto.
    + rewrite (announce_unregistered _ _ _ _ _ Hi). intros H. left. exists fi'. eauto.
  - intros H. left. exists fi'. eauto.
  - destruct (registeredNodes st !! i) as [n|] eqn:Hi.
    + assert (Hs : is_Some (registeredNodes st !! i)) by (rewrite Hi; eauto).
      destruct (fileLocations st !! f) as [fi|] eqn:Hf.
      * rewrite (deannounce_files _ _ _ _ _ Hs Hf).
        destruct (Set_has i (owners fi)); [|intros H; left; exists fi'; eauto].
        case_decide.
        -- rewrite lookup_delete. case_decide; [done|].
           intros H'. left. exists fi'. eauto.
        -- rewrite lookup_insert. case_decide as Hff.
           ++ subst f. intros [= <-]. left. exists fi. eauto.
           ++ intros H'. left. exists fi'. eauto.
      * rewrite (deannounce_untracked _ _ _ _ Hf). intros H. left. exists fi'. eauto.
    + rewrite (deannounce_unregistered _ _ _ _ Hi). intros H. left. exists fi'. eauto.
  - unfold sweep. destruct (sweep_changed now (registeredNodes st)); cbn.
    + intros [H _]%map_lookup_filter_Some. left. exists fi'. eauto.
    + intros H. left. exists fi'. eauto.
Qed.

(** X13. An index entry keeps the size and the upload time of the
    announce that created it: no operation changes them while the entry
    exists (a later announce with another size only adds an owner), and an
    entry that appears was created by an announce of that file with
    exactly its size and time.  The [replicated] flag is [false] on every
    entry of every reachable state. *)
Theorem index_entry_is_fixed_at_creation :
  (∀ op st filename fi fi',
     fileLocations st !! filename = Some fi →
     fileLocations (exec op st) !! filename = Some fi' →
     size fi' = size fi ∧ uploadTime fi' = uploadTime fi) ∧
  (∀ op st filename fi',
     fileLocations st !! filename = None →
     fileLocations (exec op st) !! filename = Some fi' →
     ∃ id, op = Announce id filename (size fi') (uploadTime fi') ∧
           owners fi' = [id]) ∧
  (∀ st filename fi,
     reachable st → fileLocations st !! filename = Some fi →
     replicated fi = false).
Proof.
  split_and!.
  - intros op st filename fi fi' Hf Hf'.
    apply exec_entry_fields in Hf' as [(fi0 & Hf0 & Hs & Ht & _)|[Hnone _]].
    + rewrite Hf in Hf0. injection Hf0 as <-. done.
    + congruence.
  - intros op st filename fi' Hf Hf'.
    apply exec_entry_fields in Hf' as [(fi0 & Hf0 & _)|[_ (id & sz & now & -> & ->)]].
    + congruence.
    + by exists id.
  - intros st filename fi Hr. revert filename fi.
    induction Hr as [users|op st _ IH]; intros filename fi Hf.
    + cbn in Hf. by rewrite lookup_empty in Hf.
    + apply exec_entry_fields in Hf as [(fi0 & Hf0 & _ & _ & Hrep)|[_ (id & sz & now & _ & ->)]].
      * rewrite Hrep. by eapply IH.
      * done.
Qed.

End ControllerExtra.

(* ===================================================================== *)
(** * Further properties of the chunk engine                              *)
(* ===================================================================== *)

Module StorageExtra.
Import Storage StorageSpec.

(** ** Chunk ids *)

(** X14. The id of a chunk determines its index and its hash: two ids
    built for the same file name are equal only for the same index and the
    same hash (the decimal index is followed by a separator that is not a
    digit). *)
Theorem chunkId_determines_index_and_hash (name : string) (i j : N)
    (h1 h2 : string) :
  chunkId name i h1 = chunkId name j h2 → i = j ∧ h1 = h2.
Proof.
  intros H. pose proof (chunkId_index_inj _ _ _ _ _ H) as ->.
  split; [done|]. unfold chunkId in H.
  apply (inj (String.app name)) in H.
  apply (inj (String.app "_chunk_")) in H.
  apply (inj (String.app (decimal j))) in H.
  by apply (inj (String.app "_")) in H.
Qed.

(** X14 at one id; the second line shows two ids that differ although
    index digits and hash run into each other. *)
Lemma chunkId_determines_index_and_hash_witness :
  chunkId "f" 12 "ab" = chunkId "f" 12 "ab" ∧
  chunkId "f" 1 "2_ab" ≠ chunkId "f" 12 "ab" ∧
  (12%N = 12%N ∧ "ab" = "ab").
Proof.
  split; [done|]. split; [by vm_compute|].
  exact (chunkId_determines_index_and_hash "f" 12 12 "ab" "ab" eq_refl).
Defined.

(** ** The manifest splitFile writes *)

Lemma length_concat_chunks (ls : list (list byte)) :
  length (concat ls) = foldr (λ l acc, (length l + acc)%nat) 0%nat ls.
Proof. induction ls as [|l ls IH]; cbn; [done|]. by rewrite length_app, IH. Qed.

Lemma sizes_sum sm name data (l : list N) :
  foldr (λ c acc, (size c + acc)%N) 0%N (chunk_info sm name data <$> l) =
  N.of_nat (length (concat (chunk_bytes sm data <$> l))).
Proof.
  induction l as [|j l IH]; cbn [fmap list_fmap foldr concat]; [done|].
  rewrite IH, length_app. cbn [size chunk_info]. lia.
Qed.

(** X15. The manifest [splitFile] returns is the one it stores under the
    file's metadata name; it records the file's length as [originalSize]
    and the manager's chunk size, is not yet marked reassembled, and the
    sizes of its chunks add up to [originalSize].  The input file and all
    other paths are left as they were. *)
Theorem splitFile_manifest (sm : StorageManager) (filePath name : string)
    (now : Z) (disk : Disk) (data : list byte) :
  (0 < chunkSize sm)%N →
  files disk !! filePath = Some data →
  ∃ m disk',
    splitFile sm filePath name now disk = (Ok m, disk') ∧
    metadataDir disk' !! metadataName name = Some m ∧
    filename m = name ∧
    originalSize m = N.of_nat (length data) ∧
    manifest_chunkSize m = chunkSize sm ∧
    createdAt m = now ∧ reassembled m = false ∧ reassembledAt m = None ∧
    foldr (λ c acc, (size c + acc)%N) 0%N (chunks m) = originalSize m ∧
    files disk' = files disk ∧
    (∀ other, other ≠ metadataName name →
       metadataDir disk' !! other = metadataDir disk !! other).
Proof.
  intros Hpos Hf.
  exists (split_manifest sm name data now), (split_disk sm name data now disk).
  split_and!; try done.
  - by apply splitFile_eq.
  - cbn. apply lookup_insert_eq.
  - cbn [chunks split_manifest originalSize].
    by rewrite sizes_sum, (chunks_cover sm data Hpos).
  - intros other Hne. cbn. by rewrite lookup_insert_ne.
Qed.

(** X15 at the 11-byte file with chunk size 4. *)
Lemma splitFile_manifest_witness :
  (0 < chunkSize (mkStorageManager "./storage" 4))%N ∧
  files hello_disk !! "in.txt" = Some (bytes_of_string "hello world") ∧
  ∃ m disk',
    splitFile (mkStorageManager "./storage" 4) "in.txt" "hello" 7 hello_disk
    = (Ok m, disk') ∧
    size <$> chunks m = [4; 4; 3]%N ∧
    originalSize m = 11%N.
Proof.
  assert (H1 : (0 < chunkSize (mkStorageManager "./storage" 4))%N) by (by vm_compute).
  assert (H2 : files hello_disk !! "in.txt" = Some (bytes_of_string "hello world"))
    by (by vm_compute).
  split; [exact H1|]. split; [exact H2|].
  destruct (splitFile_manifest (mkStorageManager "./storage" 4) "in.txt" "hello"
              7 hello_disk _ H1 H2) as (m & disk' & Hs & _ & _ & Ho & _).
  exists m, disk'. split; [exact Hs|]. split; [|exact Ho].
  assert (E : Ok m = (splitFile (mkStorageManager "./storage" 4) "in.txt" "hello"
                        7 hello_disk).1) by (by rewrite Hs).
  vm_compute in E. by injection E as ->.
Defined.

(** ** reassembleFile on any disk *)

Lemma buffer_copy_length source target (targetStart : nat) :
  length (buffer_copy source target targetStart) = length target.
Proof.
  unfold buffer_copy. rewrite !length_app, !length_take, length_drop. lia.
Qed.

Lemma reassemble_loop_length dir infos buf written out :
  reassemble_loop dir infos buf written = Ok out → length out = length buf.
Proof.
  revert buf written. induction infos as [|c infos IH]; intros buf written; cbn.
  - by intros [= <-].
  - destruct (dir !! id c) as [bytes|]; [|done].
    destruct (decide (MD5.md5_hex bytes = hash c)); [|done].
    intros H%IH. by rewrite buffer_copy_length in H.
Qed.

(** X16. [reassembleFile] is all or nothing, for any manifest and any
    chunk files.  When it throws, the disk is exactly as before.  When it
    succeeds it returns the output path, has written there a file of
    exactly [originalSize] bytes, has rewritten only this file's metadata
    (marked [reassembled], stamped with the time) and has left every chunk
    file and every other path alone. *)
Theorem reassembleFile_all_or_nothing (sm : StorageManager)
    (name outputPath : string) (now : Z) (disk : Disk) :
  match reassembleFile sm name outputPath now disk with
  | (Throw _, disk') => disk' = disk
  | (Ok path, disk') =>
      path = outputPath ∧
      chunksDir disk' = chunksDir disk ∧
      ∃ m m' out,
        metadataDir disk !! metadataName name = Some m ∧
        files disk' = <[outputPath := out]> (files disk) ∧
        N.of_nat (length out) = originalSize m ∧
        metadataDir disk' = <[metadataName name := m']> (metadataDir disk) ∧
        reassembled m' = true ∧ reassembledAt m' = Some now ∧
        originalSize m' = originalSize m ∧ chunkCount m' = chunkCount m ∧
        chunks m' = sort_by_index (chunks m)
  end.
Proof.
  unfold reassembleFile.
  destruct (metadataDir disk !! metadataName name) as [m|] eqn:Hm; [|done].
  cbn zeta.
  destruct (reassemble_loop _ _ _ _) as [out|e] eqn:Hloop; [|done].
  split; [done|]. split; [done|].
  eexists m, _, out. split_and!; try done.
  apply reassemble_loop_length in Hloop.
  rewrite Hloop, length_replicate. lia.
Qed.

(** ** reassembleFile on the chunks of a split *)

(** The manifest as [reassembleFile] rewrites it. *)
Definition mark_reassembled (m : Manifest) (now : Z) : Manifest :=
  mkManifest (filename m) (originalSize m) (manifest_chunkSize m) (chunkCount m)
    (sort_by_index (chunks m)) (createdAt m) true (Some now).

Lemma reassembleFile_ok sm name data outputPath now disk m :
  (0 < chunkSize sm)%N →
  metadataDir disk !! metadataName name = Some m →
  originalSize m = N.of_nat (length data) →
  sort_by_index (chunks m) =
    chunk_info sm name data
      <$> Nseq 0 (N.to_nat (ceil_div (N.of_nat (length data)) (chunkSize sm))) →
  (∀ j, (j < ceil_div (N.of_nat (length data)) (chunkSize sm))%N →
     chunksDir disk !! id (chunk_info sm name data j) = Some (chunk_bytes sm data j)) →
  reassembleFile sm name outputPath now disk =
  (Ok outputPath,
   mkDisk (chunksDir disk)
          (<[metadataName name := mark_reassembled m now]> (metadataDir disk))
          (<[outputPath := data]> (files disk))).
Proof.
  intros Hpos Hm Hsize Hsort Hdir. unfold reassembleFile. rewrite Hm. cbn zeta.
  rewrite Hsort, Hsize, Nat2N.id.
  pose proof (reassemble_loop_chunks sm data Hpos name (chunksDir disk)
                (N.to_nat (ceil_div (N.of_nat (length data)) (chunkSize sm)))
                0%N ltac:(lia)) as Hloop.
  replace (N.to_nat (N.min (0 * chunkSize sm) (N.of_nat (length data)))) with 0%nat
    in Hloop by lia.
  replace (N.min (0 * chunkSize sm) (N.of_nat (length data))) with 0%N
    in Hloop by lia.
  unfold partial_buffer in Hloop. rewrite take_0, Nat.sub_0_r in Hloop.
  cbn [app] in Hloop. rewrite Hloop.
  - unfold mark_reassembled. by rewrite Hsort, Hsize.
  - intros j Hj%elem_of_Nseq. apply Hdir. lia.
Qed.

Lemma sort_by_index_split sm name data i n :
  sort_by_index (chunk_info sm name data <$> Nseq i n) =
  chunk_info sm name data <$> Nseq i n.
Proof.
  revert i. induction n as [|n IH]; intros i; [done|].
  cbn [Nseq fmap list_fmap]. unfold sort_by_index in *. cbn [foldr].
  rewrite IH. apply insert_by_index_head.
  destruct n as [|n]; cbn; [done|]. intros x [= <-]. cbn. lia.
Qed.

Lemma reassemble_loop_missing sm name data dir j n i buf written :
  (∀ k, k ∈ Nseq i n → (k < j)%N →
     dir !! id (chunk_info sm name data k) = Some (chunk_bytes sm data k)) →
  dir !! id (chunk_info sm name data j) = None →
  j ∈ Nseq i n →
  reassemble_loop dir (chunk_info sm name data <$> Nseq i n) buf written =
  Throw (ChunkNotFound (id (chunk_info sm name data j))).
Proof.
  revert i buf written. induction n as [|n IH]; intros i buf written Hgood Hj Hin.
  - by apply elem_of_nil in Hin.
  - cbn [Nseq fmap list_fmap reassemble_loop].
    destruct (decide (i = j)) as [->|Hne].
    + by rewrite Hj.
    + apply elem_of_Nseq in Hin.
      rewrite Hgood by (try apply elem_of_Nseq; lia).
      cbn [hash chunk_info]. rewrite decide_True by done.
      apply IH; [|done|apply elem_of_Nseq; lia].
      intros k Hk Hkj. apply Hgood; [|done].
      apply elem_of_Nseq. apply elem_of_Nseq in Hk. lia.
Qed.

(** X17. When one chunk file of a split file has been removed,
    [reassembleFile] throws for that chunk (file not found, not the
    integrity error) and writes nothing. *)
Theorem reassembleFile_missing_chunk (sm : StorageManager)
    (filePath name outputPath : string) (now now' : Z) (disk disk1 : Disk)
    (data : list byte) (m : Manifest) (c : ChunkInfo) :
  files disk !! filePath = Some data →
  splitFile sm filePath name now disk = (Ok m, disk1) →
  c ∈ chunks m →
  reassembleFile sm name outputPath now'
    (mkDisk (delete (id c) (chunksDir disk1)) (metadataDir disk1) (files disk1))
  = (Throw (ChunkNotFound (id c)),
     mkDisk (delete (id c) (chunksDir disk1)) (metadataDir disk1) (files disk1)).
Proof.
  intros Hf Hs Hc. rewrite (splitFile_eq _ _ _ _ _ _ Hf) in Hs.
  injection Hs as <- <-.
  apply elem_of_split_chunks in Hc as (j & Hj & ->).
  unfold reassembleFile. cbn [metadataDir split_disk].
  rewrite lookup_insert_eq. cbn [chunks split_manifest chunksDir].
  rewrite sort_by_index_split.
  rewrite (reassemble_loop_missing sm name data _ j); [done| | |].
  - intros k Hk Hkj. rewrite lookup_delete_ne.
    + apply write_chunks_lookup; [apply NoDup_Nseq|done].
    + intros E. apply chunk_info_id_inj in E. lia.
  - apply lookup_delete_eq.
  - apply elem_of_Nseq. lia.
Qed.

(** X17 at the 11-byte file: the middle chunk is removed. *)
Lemma reassembleFile_missing_chunk_witness :
  ∃ m disk1 c,
    files hello_disk !! "in.txt" = Some (bytes_of_string "hello world") ∧
    splitFile (mkStorageManager "./storage" 4) "in.txt" "hello" 0 hello_disk
    = (Ok m, disk1) ∧
    chunks m !! 1%nat = Some c ∧
    (reassembleFile (mkStorageManager "./storage" 4) "hello" "out.txt" 1
       (mkDisk (delete (id c) (chunksDir disk1)) (metadataDir disk1) (files disk1))).1
    = Throw (ChunkNotFound "hello_chunk_1_e7c52a655c23270552b9bf9ea01b1483").
Proof.
  set (sm := mkStorageManager "./storage" 4).
  set (data := bytes_of_string "hello world").
  exists (split_manifest sm "hello" data 0), (split_disk sm "hello" data 0 hello_disk),
         (chunk_info sm "hello" data 1).
  assert (Hf : files hello_disk !! "in.txt" = Some data) by (by vm_compute).
  assert (Hs : splitFile sm "in.txt" "hello" 0 hello_disk
               = (Ok (split_manifest sm "hello" data 0),
                  split_disk sm "hello" data 0 hello_disk))
    by (by apply splitFile_eq).
  assert (Hc : chunk_info sm "hello" data 1 ∈ chunks (split_manifest sm "hello" data 0)).
  { apply elem_of_split_chunks. exists 1%N. split; [by vm_compute|done]. }
  split; [exact Hf|]. split; [exact Hs|]. split; [by vm_compute|].
  rewrite (reassembleFile_missing_chunk sm "in.txt" "hello" "out.txt" 0 1
             hello_disk _ data _ _ Hf Hs Hc).
  by vm_compute.
Defined.

(** ** The sort in reassembleFile *)

Definition by_index (c1 c2 : ChunkInfo) : Prop := (index c1 ≤ index c2)%N.

Local Instance by_index_transitive : Transitive by_index.
Proof. unfold by_index. intros x y z. lia. Qed.

Lemma insert_by_index_perm c l : insert_by_index c l ≡ₚ c :: l.
Proof.
  induction l as [|x l IH]; cbn; [done|].
  destruct (index c <=? index x)%N; [done|].
  rewrite IH. apply Permutation_swap.
Qed.

Lemma sort_by_index_perm l : sort_by_index l ≡ₚ l.
Proof.
  unfold sort_by_index. induction l as [|x l IH]; cbn; [done|].
  by rewrite insert_by_index_perm, IH.
Qed.

Lemma insert_by_index_sorted c l :
  Sorted by_index l → Sorted by_index (insert_by_index c l).
Proof.
  induction 1 as [|x l Hs IH Hhd]; cbn.
  - by repeat constructor.
  - destruct (index c <=? index x)%N eqn:E.
    + apply N.leb_le in E. constructor; [by constructor|]. by constructor.
    + apply N.leb_gt in E. constructor; [done|].
      destruct l as [|y l]; cbn.
      * constructor. unfold by_index. lia.
      * destruct (index c <=? index y)%N.
        -- constructor. unfold by_index. lia.
        -- constructor. by inversion Hhd.
Qed.

Lemma sort_by_index_sorted l : Sorted by_index (sort_by_index l).
Proof.
  unfold sort_by_index. induction l as [|x l IH]; cbn; [constructor|].
  by apply insert_by_index_sorted.
Qed.

Lemma chunks_sorted sm name data i n :
  Sorted by_index (chunk_info sm name data <$> Nseq i n).
Proof.
  revert i. induction n as [|n IH]; intros i; cbn; [constructor|].
  constructor; [apply IH|].
  destruct n; cbn; constructor. unfold by_index. cbn. lia.
Qed.

Lemma sort_by_index_shuffled sm name data n perm :
  perm ≡ₚ chunk_info sm name data <$> Nseq 0 n →
  sort_by_index perm = chunk_info sm name data <$> Nseq 0 n.
Proof.
  intros Hperm. apply (Sorted_unique_strong by_index).
  - intros x1 x2 Hx1 Hx2 H12 H21.
    rewrite sort_by_index_perm, Hperm in Hx1.
    apply list_elem_of_fmap in Hx1 as (j1 & -> & _).
    apply list_elem_of_fmap in Hx2 as (j2 & -> & _).
    unfold by_index in *. cbn in *. f_equal. lia.
  - apply sort_by_index_sorted.
  - apply chunks_sorted.
  - by rewrite sort_by_index_perm.
Qed.

(** X18. [reassembleFile] does not depend on the order in which the
    manifest lists the chunks: with the chunk entries of a split file
    stored in any order, it still writes the original bytes, and the
    manifest it writes back lists the chunks by ascending index. *)
Theorem reassembleFile_sorts_manifest (sm : StorageManager)
    (filePath name outputPath : string) (now now' : Z) (disk disk1 : Disk)
    (data : list byte) (m : Manifest) (perm : list ChunkInfo) :
  (0 < chunkSize sm)%N →
  files disk !! filePath = Some data →
  splitFile sm filePath name now disk = (Ok m, disk1) →
  perm ≡ₚ chunks m →
  ∃ disk2 m2,
    reassembleFile sm name outputPath now'
      (mkDisk (chunksDir disk1)
         (<[metadataName name :=
              mkManifest (filename m) (originalSize m) (manifest_chunkSize m)
                (chunkCount m) perm (createdAt m) (reassembled m)
                (reassembledAt m)]> (metadataDir disk1))
         (files disk1))
    = (Ok outputPath, disk2) ∧
    files disk2 !! outputPath = Some data ∧
    metadataDir disk2 !! metadataName name = Some m2 ∧
    chunks m2 = chunks m.
Proof.
  intros Hpos Hf Hs Hperm. rewrite (splitFile_eq _ _ _ _ _ _ Hf) in Hs.
  injection Hs as <- <-. cbn [chunks split_manifest] in Hperm.
  eexists _, _. split.
  - apply (reassembleFile_ok sm name data); [done| | | |].
    + cbn. apply lookup_insert_eq.
    + done.
    + cbn [chunks]. by apply sort_by_index_shuffled.
    + intros j Hj. by apply split_disk_chunk.
  - cbn. rewrite !lookup_insert_eq. split; [done|]. split; [done|].
    cbn. by apply sort_by_index_shuffled.
Qed.

(** X18 at the 11-byte file with the three manifest entries reversed. *)
Lemma reassembleFile_sorts_manifest_witness :
  ∃ m disk1 disk2,
    splitFile (mkStorageManager "./storage" 4) "in.txt" "hello" 0 hello_disk
    = (Ok m, disk1) ∧
    index <$> reverse (chunks m) = [2; 1; 0]%N ∧
    reassembleFile (mkStorageManager "./storage" 4) "hello" "out.txt" 1
      (mkDisk (chunksDir disk1)
         (<[metadataName "hello" :=
              mkManifest (filename m) (originalSize m) (manifest_chunkSize m)
                (chunkCount m) (reverse (chunks m)) (createdAt m) (reassembled m)
                (reassembledAt m)]> (metadataDir disk1))
         (files disk1))
    = (Ok "out.txt", disk2) ∧
    files disk2 !! "out.txt" = Some (bytes_of_string "hello world").
Proof.
  set (sm := mkStorageManager "./storage" 4).
  set (data := bytes_of_string "hello world").
  assert (Hpos : (0 < chunkSize sm)%N) by (by vm_compute).
  assert (Hf : files hello_disk !! "in.txt" = Some data) by (by vm_compute).
  assert (Hs : splitFile sm "in.txt" "hello" 0 hello_disk
               = (Ok (split_manifest sm "hello" data 0),
                  split_disk sm "hello" data 0 hello_disk))
    by (by apply splitFile_eq).
  destruct (reassembleFile_sorts_manifest sm "in.txt" "hello" "out.txt" 0 1
              hello_disk _ data _ (reverse (chunks (split_manifest sm "hello" data 0)))
              Hpos Hf Hs (reverse_Permutation _))
    as (disk2 & m2 & Hr & Ho & _).
  exists (split_manifest sm "hello" data 0), (split_disk sm "hello" data 0 hello_disk),
         disk2.
  split; [exact Hs|]. split; [by vm_compute|]. split; [exact Hr|exact Ho].
Defined.

(** ** Splitting and reassembling again *)

Lemma write_chunks_same sm name data dir l :
  (∀ j, j ∈ l →
     dir !! id (chunk_info sm name data j) = Some (chunk_bytes sm data j)) →
  foldl (write_chunk sm name data) dir l = dir.
Proof.
  induction l as [|x l IH]; intros H; [done|]. cbn [foldl].
  unfold write_chunk at 2. rewrite insert_id by (apply H; by left).
  apply IH. intros j Hj. apply H. by right.
Qed.

(** X19. Splitting the same content under the same name a second time
    rewrites every chunk file with the bytes it already has: the chunk
    directory is unchanged, the second manifest lists the same chunks, and
    only [createdAt] differs. *)
Theorem splitFile_again_keeps_chunks (sm : StorageManager)
    (filePath name : string) (now now2 : Z) (disk : Disk) (data : list byte) :
  files disk !! filePath = Some data →
  ∃ m1 disk1 m2 disk2,
    splitFile sm filePath name now disk = (Ok m1, disk1) ∧
    splitFile sm filePath name now2 disk1 = (Ok m2, disk2) ∧
    chunksDir disk2 = chunksDir disk1 ∧
    chunks m2 = chunks m1 ∧
    m2 = mkManifest (filename m1) (originalSize m1) (manifest_chunkSize m1)
           (chunkCount m1) (chunks m1) now2 (reassembled m1) (reassembledAt m1) ∧
    files disk2 = files disk.
Proof.
  intros Hf.
  exists (split_manifest sm name data now), (split_disk sm name data now disk),
         (split_manifest sm name data now2),
         (split_disk sm name data now2 (split_disk sm name data now disk)).
  split_and!; try done.
  - by apply splitFile_eq.
  - by apply splitFile_eq.
  - cbn [chunksDir split_disk]. apply write_chunks_same.
    intros j Hj. apply write_chunks_lookup; [apply NoDup_Nseq|done].
Qed.

(** X19 at the 11-byte file. *)
Lemma splitFile_again_keeps_chunks_witness :
  files hello_disk !! "in.txt" = Some (bytes_of_string "hello world") ∧
  chunksDir (splitFile (mkStorageManager "./storage" 4) "in.txt" "hello" 9
               (splitFile (mkStorageManager "./storage" 4) "in.txt" "hello" 0
                  hello_disk).2).2
  = chunksDir (splitFile (mkStorageManager "./storage" 4) "in.txt" "hello" 0
                 hello_disk).2.
Proof.
  assert (Hf : files hello_disk !! "in.txt" = Some (bytes_of_string "hello world"))
    by (by vm_compute).
  split; [exact Hf|].
  destruct (splitFile_again_keeps_chunks (mkStorageManager "./storage" 4)
              "in.txt" "hello" 0 9 hello_disk _ Hf)
    as (m1 & disk1 & m2 & disk2 & Hs1 & Hs2 & Hc & _).
  rewrite Hs1. cbn [snd]. rewrite Hs2. exact Hc.
Defined.

(** X20. A split file can be reassembled any number of times: after one
    successful [reassembleFile], a second one (to any path, at any time)
    succeeds as well and writes the original bytes again. *)
Theorem reassembleFile_twice (sm : StorageManager)
    (filePath name out1 out2 : string) (t0 t1 t2 : Z) (disk : Disk)
    (data : list byte) :
  (0 < chunkSize sm)%N →
  files disk !! filePath = Some data →
  ∃ m disk1 disk2 disk3,
    splitFile sm filePath name t0 disk = (Ok m, disk1) ∧
    reassembleFile sm name out1 t1 disk1 = (Ok out1, disk2) ∧
    reassembleFile sm name out2 t2 disk2 = (Ok out2, disk3) ∧
    files disk3 !! out2 = Some data ∧
    files disk3 !! out1 = Some data ∧
    (∃ m3, metadataDir disk3 !! metadataName name = Some m3 ∧
           reassembled m3 = true ∧ reassembledAt m3 = Some t2 ∧
           chunks m3 = chunks m).
Proof.
  intros Hpos Hf.
  set (m := split_manifest sm name data t0).
  set (disk1 := split_disk sm name data t0 disk).
  assert (H1 : reassembleFile sm name out1 t1 disk1 =
               (Ok out1,
                mkDisk (chunksDir disk1)
                  (<[metadataName name := mark_reassembled m t1]> (metadataDir disk1))
                  (<[out1 := data]> (files disk1)))).
  { apply reassembleFile_ok; [done| | | |].
    - cbn. apply lookup_insert_eq.
    - done.
    - cbn [chunks m split_manifest]. apply sort_by_index_split.
    - intros j Hj. by apply split_disk_chunk. }
  set (disk2 := mkDisk (chunksDir disk1)
                  (<[metadataName name := mark_reassembled m t1]> (metadataDir disk1))
                  (<[out1 := data]> (files disk1))) in *.
  assert (H2 : reassembleFile sm name out2 t2 disk2 =
               (Ok out2,
                mkDisk (chunksDir disk2)
                  (<[metadataName name := mark_reassembled (mark_reassembled m t1) t2]>
                     (metadataDir disk2))
                  (<[out2 := data]> (files disk2)))).
  { apply reassembleFile_ok; [done| | | |].
    - cbn. apply lookup_insert_eq.
    - done.
    - cbn [chunks mark_reassembled m split_manifest].
      by rewrite !sort_by_index_split.
    - intros j Hj. cbn [chunksDir disk2]. by apply split_disk_chunk. }
  eexists m, disk1, disk2, _. split_and!.
  - by apply splitFile_eq.
  - exact H1.
  - exact H2.
  - cbn. apply lookup_insert_eq.
  - cbn. destruct (decide (out2 = out1)) as [->|Hne].
    + apply lookup_insert_eq.
    + rewrite lookup_insert_ne by done. apply lookup_insert_eq.
  - eexists. split; [cbn; apply lookup_insert_eq|]. cbn.
    split; [done|]. split; [done|]. by rewrite !sort_by_index_split.
Qed.

(** X20 at the 11-byte file. *)
Lemma reassembleFile_twice_witness :
  (0 < chunkSize (mkStorageManager "./storage" 4))%N ∧
  files hello_disk !! "in.txt" = Some (bytes_of_string "hello world") ∧
  ∃ m disk1 disk2 disk3,
    splitFile (mkStorageManager "./storage" 4) "in.txt" "hello" 0 hello_disk
    = (Ok m, disk1) ∧
    reassembleFile (mkStorageManager "./storage" 4) "hello" "a.txt" 1 disk1
    = (Ok "a.txt", disk2) ∧
    reassembleFile (mkStorageManager "./storage" 4) "hello" "b.txt" 2 disk2
    = (Ok "b.txt", disk3) ∧
    files disk3 !! "b.txt" = Some (bytes_of_string "hello world").
Proof.
  assert (H1 : (0 < chunkSize (mkStorageManager "./storage" 4))%N) by (by vm_compute).
  assert (H2 : files hello_disk !! "in.txt" = Some (bytes_of_string "hello world"))
    by (by vm_compute).
  split; [exact H1|]. split; [exact H2|].
  destruct (reassembleFile_twice (mkStorageManager "./storage" 4) "in.txt" "hello"
              "a.txt" "b.txt" 0 1 2 hello_disk _ H1 H2)
    as (m & disk1 & disk2 & disk3 & Hs & Hr1 & Hr2 & Ho & _).
  by exists m, disk1, disk2, disk3.
Defined.

(** ** cleanup *)

(** A chunk id some metadata file refers to. *)
Definition referenced (metadata : gmap string Manifest) (key : string) : Prop :=
  ∃ mname m c, metadata !! mname = Some m ∧ c ∈ chunks m ∧ id c = key.

Lemma elem_of_add_ids (cs : list ChunkInfo) (used : gset string) key :
  key ∈ foldl (λ u c, {[ id c ]} ∪ u) used cs ↔
  key ∈ used ∨ ∃ c, c ∈ cs ∧ id c = key.
Proof.
  revert used. induction cs as [|c cs IH]; intros used; cbn [foldl].
  - split; [auto|]. intros [H|(c & Hc & _)]; [done|]. by apply elem_of_nil in Hc.
  - rewrite IH, elem_of_union, elem_of_singleton. split.
    + intros [[->|H]|(c' & Hc' & E)]; [right; exists c|by left|right; exists c'].
      * split; [by left|done].
      * split; [by right|done].
    + intros [H|(c' & Hc' & E)]; [left; by right|].
      apply elem_of_cons in Hc' as [->|Hc']; [left; left; done|].
      right. by exists c'.
Qed.

Lemma elem_of_add_manifests (l : list (string * Manifest)) (used : gset string) key :
  key ∈ foldl (λ u kv, foldl (λ u' c, {[ id c ]} ∪ u') u (chunks kv.2)) used l ↔
  key ∈ used ∨ ∃ kv c, kv ∈ l ∧ c ∈ chunks kv.2 ∧ id c = key.
Proof.
  revert used. induction l as [|kv l IH]; intros used; cbn [foldl].
  - split; [auto|]. intros [H|(kv & c & Hkv & _)]; [done|].
    by apply elem_of_nil in Hkv.
  - rewrite IH, elem_of_add_ids. split.
    + intros [[H|(c & Hc & E)]|(kv' & c & Hkv' & Hc & E)].
      * by left.
      * right. exists kv, c. split; [by left|done].
      * right. exists kv', c. split; [by right|done].
    + intros [H|(kv' & c & Hkv' & Hc & E)]; [left; by left|].
      apply elem_of_cons in Hkv' as [->|Hkv'].
      * left. right. by exists c.
      * right. by exists kv', c.
Qed.

Lemma elem_of_usedChunks metadata key :
  key ∈ usedChunks metadata ↔ referenced metadata key.
Proof.
  unfold usedChunks, referenced. rewrite elem_of_add_manifests. split.
  - intros [H|([mname m] & c & Hkv & Hc & E)]; [by apply not_elem_of_empty in H|].
    apply elem_of_map_to_list in Hkv. by exists mname, m, c.
  - intros (mname & m & c & Hm & Hc & E). right. exists (mname, m), c.
    split; [by apply elem_of_map_to_list|done].
Qed.

Lemma cleanup_loop_cons used x names dir n :
  cleanup_loop used (x :: names) dir n =
  if decide (x ∈ used) then cleanup_loop used names dir n
  else cleanup_loop used names (delete x dir) (n + 1)%N.
Proof. unfold cleanup_loop. cbn [foldl fst snd]. by destruct (decide (x ∈ used)). Qed.

Lemma cleanup_loop_lookup used names dir n key :
  (cleanup_loop used names dir n).1 !! key =
  if decide (key ∈ used) then dir !! key
  else if decide (key ∈ names) then None else dir !! key.
Proof.
  revert dir n. induction names as [|x names IH]; intros dir n.
  - cbn. destruct (decide (key ∈ used)); [done|].
    rewrite decide_False; [done|apply not_elem_of_nil].
  - rewrite cleanup_loop_cons. destruct (decide (x ∈ used)) as [Hx|Hx]; rewrite IH.
    + destruct (decide (key ∈ used)) as [|Hk]; [done|].
      destruct (decide (key ∈ names)) as [Hin|Hin].
      * rewrite decide_True; [done|by right].
      * rewrite decide_False; [done|].
        intros [->|?]%elem_of_cons; done.
    + destruct (decide (key ∈ used)) as [Hk|Hk].
      * apply lookup_delete_ne. congruence.
      * destruct (decide (key ∈ names)) as [Hin|Hin].
        -- rewrite decide_True; [done|by right].
        -- destruct (decide (key = x)) as [->|Hne].
           ++ rewrite decide_True by (by left). apply lookup_delete_eq.
           ++ rewrite decide_False by (intros [?|?]%elem_of_cons; done).
              by apply lookup_delete_ne.
Qed.

Lemma cleanup_loop_count used names (dir : gmap string (list byte)) n :
  NoDup names → (∀ k, k ∈ names → is_Some (dir !! k)) →
  (N.to_nat (cleanup_loop used names dir n).2 + base.size (cleanup_loop used names dir n).1
   = N.to_nat n + base.size dir)%nat.
Proof.
  revert dir n. induction names as [|x names IH]; intros dir n Hnd Hin; [done|].
  apply NoDup_cons in Hnd as [Hx Hnd]. rewrite cleanup_loop_cons.
  destruct (decide (x ∈ used)).
  - apply IH; [done|]. intros k Hk. apply Hin. by right.
  - rewrite IH; [|done|].
    + rewrite map_size_delete_Some by (apply Hin; by left).
      assert (base.size dir ≠ 0%nat).
      { intros E%map_size_empty_inv. destruct (Hin x) as [? H]; [by left|].
        by rewrite E, lookup_empty in H. }
      lia.
    + intros k Hk. rewrite lookup_delete_ne by (intros ->; done).
      apply Hin. by right.
Qed.

Lemma cleanup_loop_all_used used names dir n :
  (∀ k, k ∈ names → k ∈ used) → cleanup_loop used names dir n = (dir, n).
Proof.
  induction names as [|x names IH]; intros H; [done|].
  rewrite cleanup_loop_cons, decide_True by (apply H; by left).
  apply IH. intros k Hk. apply H. by right.
Qed.

Lemma elem_of_keys (dir : gmap string (list byte)) key :
  key ∈ (map_to_list dir).*1 ↔ is_Some (dir !! key).
Proof.
  rewrite list_elem_of_fmap. split.
  - intros ([k v] & -> & H%elem_of_map_to_list). eauto.
  - intros [v H]. exists (key, v). split; [done|]. by apply elem_of_map_to_list.
Qed.

Lemma cleanup_lookup sm disk key :
  chunksDir (cleanup sm disk).2 !! key =
  if decide (key ∈ usedChunks (metadataDir disk)) then chunksDir disk !! key
  else None.
Proof.
  unfold cleanup. cbn [snd chunksDir]. rewrite cleanup_loop_lookup.
  destruct (decide (key ∈ usedChunks (metadataDir disk))); [done|].
  destruct (decide (key ∈ (map_to_list (chunksDir disk)).*1)) as [|Hn]; [done|].
  rewrite elem_of_keys in Hn. by apply eq_None_not_Some.
Qed.

(** X21. [cleanup] keeps exactly the chunk files some metadata file
    refers to, with their bytes, and deletes every other chunk file; the
    number it returns is the number of chunk files that are gone; metadata
    and all other paths are untouched. *)
Theorem cleanup_keeps_referenced_chunks (sm : StorageManager) (disk : Disk) :
  (∀ key, referenced (metadataDir disk) key →
     chunksDir (cleanup sm disk).2 !! key = chunksDir disk !! key) ∧
  (∀ key, ¬ referenced (metadataDir disk) key →
     chunksDir (cleanup sm disk).2 !! key = None) ∧
  (N.to_nat (cleanup sm disk).1 + base.size (chunksDir (cleanup sm disk).2)
   = base.size (chunksDir disk))%nat ∧
  metadataDir (cleanup sm disk).2 = metadataDir disk ∧
  files (cleanup sm disk).2 = files disk.
Proof.
  split_and!; [| | |done|done].
  - intros key Hr. rewrite cleanup_lookup, decide_True; [done|].
    by apply elem_of_usedChunks.
  - intros key Hr. rewrite cleanup_lookup, decide_False; [done|].
    by rewrite elem_of_usedChunks.
  - unfold cleanup. cbn [fst snd chunksDir].
    rewrite cleanup_loop_count; [done|apply NoDup_fst_map_to_list|].
    intros k Hk. by apply elem_of_keys.
Qed.

(** X22. [cleanup] does not break a split file: after [splitFile] and any
    [cleanup], [reassembleFile] still writes the original bytes. *)
Theorem cleanup_then_reassemble (sm : StorageManager)
    (filePath name outputPath : string) (now now' : Z) (disk : Disk)
    (data : list byte) :
  (0 < chunkSize sm)%N →
  files disk !! filePath = Some data →
  ∃ m disk1 disk3,
    splitFile sm filePath name now disk = (Ok m, disk1) ∧
    reassembleFile sm name outputPath now' (cleanup sm disk1).2
    = (Ok outputPath, disk3) ∧
    files disk3 !! outputPath = Some data.
Proof.
  intros Hpos Hf.
  exists (split_manifest sm name data now), (split_disk sm name data now disk).
  eexists. split; [by apply splitFile_eq|]. split.
  - apply (reassembleFile_ok sm name data); [done| | | |].
    + cbn. apply lookup_insert_eq.
    + done.
    + cbn [chunks split_manifest]. apply sort_by_index_split.
    + intros j Hj. rewrite cleanup_lookup, decide_True.
      * by apply split_disk_chunk.
      * apply elem_of_usedChunks.
        exists (metadataName name), (split_manifest sm name data now),
               (chunk_info sm name data j).
        split; [cbn; apply lookup_insert_eq|]. split; [|done].
        apply elem_of_split_chunks. by exists j.
  - cbn. apply lookup_insert_eq.
Qed.

(** A store with one orphan chunk file next to the input file. *)
Definition orphan_disk : Disk :=
  mkDisk {[ "old_chunk_0_00" := bytes_of_string "stale" ]} ∅
         {[ "in.txt" := bytes_of_string "hello world" ]}.

(** X22 at [orphan_disk]: the clean-up deletes the orphan (one file) and
    the file still reassembles. *)
Lemma cleanup_then_reassemble_witness :
  (0 < chunkSize (mkStorageManager "./storage" 4))%N ∧
  files orphan_disk !! "in.txt" = Some (bytes_of_string "hello world") ∧
  (cleanup (mkStorageManager "./storage" 4)
     (splitFile (mkStorageManager "./storage" 4) "in.txt" "hello" 0 orphan_disk).2).1
  = 1%N ∧
  ∃ m disk1 disk3,
    splitFile (mkStorageManager "./storage" 4) "in.txt" "hello" 0 orphan_disk
    = (Ok m, disk1) ∧
    reassembleFile (mkStorageManager "./storage" 4) "hello" "out.txt" 1
      (cleanup (mkStorageManager "./storage" 4) disk1).2
    = (Ok "out.txt", disk3) ∧
    files disk3 !! "out.txt" = Some (bytes_of_string "hello world").
Proof.
  assert (H1 : (0 < chunkSize (mkStorageManager "./storage" 4))%N) by (by vm_compute).
  assert (H2 : files orphan_disk !! "in.txt" = Some (bytes_of_string "hello world"))
    by (by vm_compute).
  split; [exact H1|]. split; [exact H2|]. split; [by vm_compute|].
  exact (cleanup_then_reassemble (mkStorageManager "./storage" 4) "in.txt" "hello"
           "out.txt" 0 1 orphan_disk _ H1 H2).
Defined.

(** X23. A second [cleanup] right after the first finds nothing to
    delete: it returns 0 and leaves the disk as the first one left it. *)
Theorem cleanup_idempotent (sm : StorageManager) (disk : Disk) :
  cleanup sm (cleanup sm disk).2 = (0%N, (cleanup sm disk).2).
Proof.
  unfold cleanup at 1. cbn [metadataDir cleanup snd].
  rewrite cleanup_loop_all_used.
  - cbn [fst snd]. f_equal.
  - intros k Hk%elem_of_keys.
    change (is_Some (chunksDir (cleanup sm disk).2 !! k)) in Hk.
    rewrite cleanup_lookup in Hk.
    destruct (decide (k ∈ usedChunks (metadataDir disk))); [done|].
    by destruct Hk.
Qed.

(** ** getStorageStats *)

Lemma total_size_sum (l : list (string * list byte)) (acc : N) :
  foldl (λ total kv, (total + N.of_nat (length kv.2))%N) acc l =
  (acc + N.of_nat (sum_list_with (λ kv, length kv.2) l))%N.
Proof.
  revert acc. induction l as [|kv l IH]; intros acc; cbn [foldl].
  - cbn. lia.
  - rewrite IH. cbn. lia.
Qed.

Lemma map_to_list_write_chunks sm name data dir l :
  NoDup l →
  (∀ j, j ∈ l → dir !! id (chunk_info sm name data j) = None) →
  map_to_list (foldl (write_chunk sm name data) dir l) ≡ₚ
  (map_to_list dir ++
   ((λ j, (id (chunk_info sm name data j), chunk_bytes sm data j)) <$> l))%list.
Proof.
  revert dir. induction l as [|x l IH]; intros dir Hnd Hfresh.
  - cbn. by rewrite app_nil_r.
  - apply NoDup_cons in Hnd as [Hx Hnd]. cbn [foldl fmap list_fmap].
    rewrite IH; [|done|].
    + unfold write_chunk. rewrite map_to_list_insert by (apply Hfresh; by left).
      by rewrite <- Permutation_middle.
    + intros j Hj. unfold write_chunk. rewrite lookup_insert_ne.
      * apply Hfresh. by right.
      * intros E. apply chunk_info_id_inj in E. by subst j.
Qed.

Lemma sum_chunk_lengths sm name data (l : list N) :
  sum_list_with (λ kv : string * list byte, length kv.2)
    ((λ j, (id (chunk_info sm name data j), chunk_bytes sm data j)) <$> l)
  = length (concat (chunk_bytes sm data <$> l)).
Proof.
  induction l as [|j l IH]; [done|].
  cbn [fmap list_fmap concat]. rewrite length_app, <- IH. done.
Qed.

(** X24. When none of the chunk ids of a file exists in the store yet,
    [splitFile] raises the statistics by exactly that file: the total size
    by the file's length and the chunk count by its number of chunks; the
    file count goes up by one when the file had no metadata before. *)
Theorem stats_after_split (sm : StorageManager) (filePath name : string)
    (now : Z) (disk disk1 : Disk) (data : list byte) (m : Manifest) :
  (0 < chunkSize sm)%N →
  files disk !! filePath = Some data →
  splitFile sm filePath name now disk = (Ok m, disk1) →
  (∀ c, c ∈ chunks m → chunksDir disk !! id c = None) →
  totalSize (getStorageStats sm disk1)
  = (totalSize (getStorageStats sm disk) + N.of_nat (length data))%N ∧
  stats_chunkCount (getStorageStats sm disk1)
  = (stats_chunkCount (getStorageStats sm disk) + chunkCount m)%N ∧
  (metadataDir disk !! metadataName name = None →
   fileCount (getStorageStats sm disk1)
   = (fileCount (getStorageStats sm disk) + 1)%N).
Proof.
  intros Hpos Hf Hs Hfresh. rewrite (splitFile_eq _ _ _ _ _ _ Hf) in Hs.
  injection Hs as <- <-.
  set (count := ceil_div (N.of_nat (length data)) (chunkSize sm)).
  assert (Hperm : map_to_list (chunksDir (split_disk sm name data now disk)) ≡ₚ
            (map_to_list (chunksDir disk) ++
             ((λ j, (id (chunk_info sm name data j), chunk_bytes sm data j))
                <$> Nseq 0 (N.to_nat count)))%list).
  { cbn [chunksDir split_disk]. apply map_to_list_write_chunks; [apply NoDup_Nseq|].
    intros j Hj%elem_of_Nseq. apply Hfresh, elem_of_split_chunks.
    exists j. split; [fold count; lia|done]. }
  unfold getStorageStats. cbn [totalSize stats_chunkCount fileCount].
  split_and!.
  - rewrite !total_size_sum, Hperm, sum_list_with_app, sum_chunk_lengths.
    unfold count. rewrite (chunks_cover sm data Hpos). lia.
  - rewrite Hperm, length_app, length_fmap, length_Nseq. cbn. fold count. lia.
  - intros Hnew. cbn [metadataDir split_disk].
    rewrite !length_map_to_list, map_size_insert_None by done. lia.
Qed.

(** X24 at the 11-byte file on a store that already holds one chunk. *)
Lemma stats_after_split_witness :
  ∃ m disk1,
    (0 < chunkSize (mkStorageManager "./storage" 4))%N ∧
    files orphan_disk !! "in.txt" = Some (bytes_of_string "hello world") ∧
    splitFile (mkStorageManager "./storage" 4) "in.txt" "hello" 0 orphan_disk
    = (Ok m, disk1) ∧
    getStorageStats (mkStorageManager "./storage" 4) orphan_disk = mkStats 5 1 0 ∧
    getStorageStats (mkStorageManager "./storage" 4) disk1 = mkStats 16 4 1 ∧
    totalSize (getStorageStats (mkStorageManager "./storage" 4) disk1)
    = (totalSize (getStorageStats (mkStorageManager "./storage" 4) orphan_disk)
       + 11)%N.
Proof.
  set (sm := mkStorageManager "./storage" 4).
  set (data := bytes_of_string "hello world").
  exists (split_manifest sm "hello" data 0), (split_disk sm "hello" data 0 orphan_disk).
  assert (Hpos : (0 < chunkSize sm)%N) by (by vm_compute).
  assert (Hf : files orphan_disk !! "in.txt" = Some data) by (by vm_compute).
  assert (Hs : splitFile sm "in.txt" "hello" 0 orphan_disk
               = (Ok (split_manifest sm "hello" data 0),
                  split_disk sm "hello" data 0 orphan_disk))
    by (by apply splitFile_eq).
  split; [exact Hpos|]. split; [exact Hf|]. split; [exact Hs|].
  split; [by vm_compute|]. split; [by vm_compute|].
  apply (stats_after_split sm "in.txt" "hello" 0 orphan_disk _ data _ Hpos Hf Hs).
  intros c Hc. apply elem_of_split_chunks in Hc as (j & Hj & ->).
  assert (E : ceil_div (N.of_nat (length data)) (chunkSize sm) = 3%N)
    by (by vm_compute).
  rewrite E in Hj.
  assert (j = 0 ∨ j = 1 ∨ j = 2)%N as [->|[->| ->]] by lia; by vm_compute.
Defined.

End StorageExtra.

(* ===================================================================== *)
(** * Properties of the one-time passwords                                *)
(* ===================================================================== *)

Module EmailSpec.
Import Email.

Lemma verifyOTP_absent email code now st :
  otpStore st !! email = None → verifyOTP email code now st = (false, st).
Proof. intros H. unfold verifyOTP. by rewrite H. Qed.

Lemma verifyOTP_right email now st stored :
  otpStore st !! email = Some stored → (now ≤ expiryTime stored)%Z →
  verifyOTP email (otp stored) now st =
  (true, mkState (delete email (otpStore st)) (otpFile st)).
Proof.
  intros H Ht. unfold verifyOTP. rewrite H.
  rewrite (proj2 (Z.ltb_ge _ _)) by lia. by rewrite decide_True.
Qed.

Lemma verifyOTP_wrong email code now st stored :
  otpStore st !! email = Some stored → (now ≤ expiryTime stored)%Z →
  otp stored ≠ code →
  verifyOTP email code now st = (false, st).
Proof.
  intros H Ht Hne. unfold verifyOTP. rewrite H.
  rewrite (proj2 (Z.ltb_ge _ _)) by lia. by rewrite decide_False.
Qed.

Lemma verifyOTP_expired email code now st stored :
  otpStore st !! email = Some stored → (expiryTime stored < now)%Z →
  verifyOTP email code now st =
  (false, mkState (delete email (otpStore st)) (otpFile st)).
Proof.
  intros H Ht. unfold verifyOTP. rewrite H.
  by rewrite (proj2 (Z.ltb_lt _ _)) by lia.
Qed.

Lemma storeOTP_lookup email code t st :
  otpStore (storeOTP email code t st).2 !! email =
  Some (mkOtp code (t + otpExpiry)).
Proof. cbn. apply lookup_insert_eq. Qed.

(** X25. A stored code verifies once: up to and including ten minutes
    (600000 ms) after [storeOTP], [verifyOTP] with the stored code answers
    [true]; after that success no code at all verifies for that address,
    at any time, until a new one is stored; pending codes of other
    addresses are not touched. *)
Theorem otp_verifies_once (email code : string) (t now : Z) (st : State) :
  (now ≤ t + 600000)%Z →
  (verifyOTP email code now (storeOTP email code t st).2).1 = true ∧
  (∀ code' now',
     (verifyOTP email code' now'
        (verifyOTP email code now (storeOTP email code t st).2).2).1 = false) ∧
  (∀ other, other ≠ email →
     otpStore (verifyOTP email code now (storeOTP email code t st).2).2 !! other
     = otpStore st !! other).
Proof.
  intros Ht.
  pose proof (storeOTP_lookup email code t st) as Hl.
  assert (Hle : (now ≤ expiryTime (mkOtp code (t + otpExpiry)))%Z)
    by (cbn; unfold otpExpiry; lia).
  pose proof (verifyOTP_right email now _ _ Hl Hle) as Hv. cbn [otp] in Hv.
  rewrite Hv. cbn [fst snd]. split_and!.
  - done.
  - intros code' now'. rewrite verifyOTP_absent; [done|].
    cbn. apply lookup_delete_eq.
  - intros other Hne. cbn. rewrite lookup_delete_ne, lookup_insert_ne; done.
Qed.

Definition no_otps : State := mkState ∅ None.

(** X25 with a code stored at time 1000 and checked exactly ten minutes
    later. *)
Lemma otp_verifies_once_witness :
  (601000 ≤ 1000 + 600000)%Z ∧
  (verifyOTP "a@x.org" "123456" 601000
     (storeOTP "a@x.org" "123456" 1000 no_otps).2).1 = true ∧
  (verifyOTP "a@x.org" "123456" 601000
     (verifyOTP "a@x.org" "123456" 601000
        (storeOTP "a@x.org" "123456" 1000 no_otps).2).2).1 = false.
Proof.
  assert (H : (601000 ≤ 1000 + 600000)%Z) by lia.
  split; [exact H|].
  destruct (otp_verifies_once "a@x.org" "123456" 1000 601000 no_otps H)
    as (H1 & H2 & _).
  split; [exact H1|apply H2].
Defined.

(** X26. A code whose expiry time has passed is rejected, also when it is
    the right code, and is removed from the store by that attempt, so that
    it stays rejected whatever the clock says afterwards. *)
Theorem otp_expired_is_rejected_and_removed (email code : string) (now : Z)
    (st : State) (stored : Otp) :
  otpStore st !! email = Some stored →
  (expiryTime stored < now)%Z →
  (verifyOTP email code now st).1 = false ∧
  otpStore (verifyOTP email code now st).2 !! email = None ∧
  (∀ code' now',
     (verifyOTP email code' now' (verifyOTP email code now st).2).1 = false).
Proof.
  intros H Ht. rewrite (verifyOTP_expired _ _ _ _ _ H Ht). cbn [fst snd].
  split_and!; [done|cbn; apply lookup_delete_eq|].
  intros code' now'. rewrite verifyOTP_absent; [done|].
  cbn. apply lookup_delete_eq.
Qed.

(** X26 one millisecond after the ten minutes. *)
Lemma otp_expired_is_rejected_and_removed_witness :
  otpStore (storeOTP "a@x.org" "123456" 1000 no_otps).2 !! "a@x.org"
  = Some (mkOtp "123456" 601000) ∧
  (601000 < 601001)%Z ∧
  (verifyOTP "a@x.org" "123456" 601001
     (storeOTP "a@x.org" "123456" 1000 no_otps).2).1 = false ∧
  (verifyOTP "a@x.org" "123456" 2000
     (verifyOTP "a@x.org" "123456" 601001
        (storeOTP "a@x.org" "123456" 1000 no_otps).2).2).1 = false.
Proof.
  assert (H1 : otpStore (storeOTP "a@x.org" "123456" 1000 no_otps).2 !! "a@x.org"
               = Some (mkOtp "123456" 601000)) by (by vm_compute).
  assert (H2 : (601000 < 601001)%Z) by lia.
  split; [exact H1|]. split; [exact H2|].
  destruct (otp_expired_is_rejected_and_removed "a@x.org" "123456" 601001
              (storeOTP "a@x.org" "123456" 1000 no_otps).2 _ H1 H2)
    as (Hr & _ & Hlater).
  split; [exact Hr|apply Hlater].
Defined.

(** A series of attempts for one address, each with its code and time. *)
Definition attempts (email : string) (guesses : list (string * Z)) (st : State)
    : State :=
  foldl (λ s g, (verifyOTP email g.1 g.2 s).2) st guesses.

(** X27. Wrong guesses cost nothing: any number of attempts with wrong
    codes before the expiry time are all rejected and leave the state as it
    was, and the right code still verifies afterwards. *)
Theorem otp_wrong_guesses_do_not_consume (email : string)
    (guesses : list (string * Z)) (now : Z) (st : State) (stored : Otp) :
  otpStore st !! email = Some stored →
  (∀ g, g ∈ guesses → g.1 ≠ otp stored ∧ (g.2 ≤ expiryTime stored)%Z) →
  (now ≤ expiryTime stored)%Z →
  (∀ g, g ∈ guesses → (verifyOTP email g.1 g.2 st).1 = false) ∧
  attempts email guesses st = st ∧
  (verifyOTP email (otp stored) now (attempts email guesses st)).1 = true.
Proof.
  intros H Hg Ht.
  assert (Hsame : attempts email guesses st = st).
  { induction guesses as [|g gs IH]; [done|].
    unfold attempts in *. cbn [foldl].
    destruct (Hg g) as [Hne Hle]; [by left|].
    rewrite (verifyOTP_wrong _ _ _ _ _ H Hle) by done. cbn [snd].
    apply IH. intros g' Hg'. apply Hg. by right. }
  split_and!.
  - intros g Hin. destruct (Hg g Hin) as [Hne Hle].
    by rewrite (verifyOTP_wrong _ _ _ _ _ H Hle).
  - done.
  - rewrite Hsame. by rewrite (verifyOTP_right _ _ _ _ H Ht).
Qed.

(** X27 with three wrong guesses before the right one. *)
Lemma otp_wrong_guesses_do_not_consume_witness :
  otpStore (storeOTP "a@x.org" "123456" 1000 no_otps).2 !! "a@x.org"
  = Some (mkOtp "123456" 601000) ∧
  (verifyOTP "a@x.org" "123456" 5000
     (attempts "a@x.org" [("000000", 2000); ("111111", 3000); ("", 4000)]%Z
        (storeOTP "a@x.org" "123456" 1000 no_otps).2)).1 = true.
Proof.
  assert (H1 : otpStore (storeOTP "a@x.org" "123456" 1000 no_otps).2 !! "a@x.org"
               = Some (mkOtp "123456" 601000)) by (by vm_compute).
  split; [exact H1|].
  apply (otp_wrong_guesses_do_not_consume "a@x.org"
           [("000000", 2000); ("111111", 3000); ("", 4000)]%Z 5000 _ _ H1).
  - intros g Hg. cbn.
    repeat (apply elem_of_cons in Hg as [->|Hg]; [cbn; split; [done|lia]|]).
    by apply elem_of_nil in Hg.
  - cbn. lia.
Defined.

(** X28. Storing a new code for an address replaces the pending one: the
    earlier code is rejected from then on (without using up the new one),
    and the new code verifies until ten minutes after the second
    [storeOTP]. *)
Theorem otp_store_replaces (email old new : string) (t1 t2 now : Z) (st : State) :
  old ≠ new →
  (now ≤ t2 + 600000)%Z →
  let st2 := (storeOTP email new t2 (storeOTP email old t1 st).2).2 in
  (verifyOTP email old now st2).1 = false ∧
  (verifyOTP email new now (verifyOTP email old now st2).2).1 = true.
Proof.
  intros Hne Ht st2.
  pose proof (storeOTP_lookup email new t2 (storeOTP email old t1 st).2) as Hl.
  fold st2 in Hl.
  assert (Hle : (now ≤ expiryTime (mkOtp new (t2 + otpExpiry)))%Z)
    by (cbn; unfold otpExpiry; lia).
  rewrite (verifyOTP_wrong _ old _ _ _ Hl Hle) by (cbn; congruence).
  cbn [fst snd]. split_and!.
  - done.
  - pose proof (verifyOTP_right email now _ _ Hl Hle) as Hv. cbn [otp] in Hv.
    by rewrite Hv.
Qed.

(** X28 with two codes for one address. *)
Lemma otp_store_replaces_witness :
  "123456" ≠ "654321" ∧ (9000 ≤ 5000 + 600000)%Z ∧
  (verifyOTP "a@x.org" "123456" 9000
     (storeOTP "a@x.org" "654321" 5000
        (storeOTP "a@x.org" "123456" 1000 no_otps).2).2).1 = false.
Proof.
  assert (H1 : "123456" ≠ "654321") by done.
  assert (H2 : (9000 ≤ 5000 + 600000)%Z) by lia.
  split; [exact H1|]. split; [exact H2|].
  destruct (otp_store_replaces "a@x.org" "123456" "654321" 1000 5000 9000
              no_otps H1 H2) as (H & _).
  exact H.
Defined.

(** X29. [cleanupExpiredOTPs] is invisible to verification: at the time of
    the clean-up or later, every attempt gets the same answer from the
    cleaned store as it would have got without the clean-up (only entries
    that would be rejected as expired are dropped), and an entry the
    clean-up keeps is kept unchanged. *)
Theorem otp_cleanup_is_invisible (email code : string) (now now' : Z)
    (st : State) :
  (now ≤ now')%Z →
  (verifyOTP email code now' (cleanupExpiredOTPs now st)).1 =
  (verifyOTP email code now' st).1 ∧
  (∀ kept, otpStore (cleanupExpiredOTPs now st) !! email = Some kept →
     otpStore st !! email = Some kept ∧ (now ≤ expiryTime kept)%Z).
Proof.
  intros Hle. split.
  - unfold verifyOTP at 1. cbn [otpStore cleanupExpiredOTPs].
    destruct (otpStore st !! email) as [stored|] eqn:Hs.
    + destruct (decide (expiryTime stored < now)%Z) as [Hexp|Hok].
      * rewrite (proj2 (map_lookup_filter_None _ _ _)).
        -- by rewrite (verifyOTP_expired _ _ _ _ _ Hs) by lia.
        -- right. intros x Hx. rewrite Hs in Hx. injection Hx as <-. cbn. tauto.
      * rewrite (map_lookup_filter_Some_2 _ _ _ stored) by done.
        unfold verifyOTP. rewrite Hs.
        destruct (expiryTime stored <? now')%Z; [done|].
        by destruct (decide (otp stored = code)).
    + rewrite (proj2 (map_lookup_filter_None _ _ _)) by (by left).
      by rewrite (verifyOTP_absent _ _ _ _ Hs).
  - intros kept [Hk Hok]%map_lookup_filter_Some. cbn in Hok. split; [done|lia].
Qed.

(** X29 with one expired and one pending code. *)
Lemma otp_cleanup_is_invisible_witness :
  (700000 ≤ 700000)%Z ∧
  otpStore (cleanupExpiredOTPs 700000
              (storeOTP "b@x.org" "222222" 200000
                 (storeOTP "a@x.org" "111111" 1000 no_otps).2).2)
  = {[ "b@x.org" := mkOtp "222222" 800000 ]} ∧
  (verifyOTP "a@x.org" "111111" 700000
     (cleanupExpiredOTPs 700000
        (storeOTP "b@x.org" "222222" 200000
           (storeOTP "a@x.org" "111111" 1000 no_otps).2).2)).1
  = (verifyOTP "a@x.org" "111111" 700000
       (storeOTP "b@x.org" "222222" 200000
          (storeOTP "a@x.org" "111111" 1000 no_otps).2).2).1.
Proof.
  assert (H : (700000 ≤ 700000)%Z) by lia.
  split; [exact H|]. split; [by vm_compute|].
  exact (proj1 (otp_cleanup_is_invisible "a@x.org" "111111" 700000 700000 _ H)).
Defined.

End EmailSpec.
